(** * AJHB authentication service (backendauth.py): a shallow embedding

    The service hashes passwords with PBKDF2-HMAC-SHA256, issues HS256
    bearer tokens, offers an AES-256-CBC helper, and keeps users, sessions
    and an access log in SQLite.  Python values are modelled as follows:

    - a [str] is a list of code points ([pystr]); [str.encode()] is the
      strict UTF-8 encoder and raises [UnicodeEncodeError] on surrogates;
    - [bytes] are lists of integers in [0, 256);
    - a Python exception is a constructor of [exn]; a call that may raise
      returns a [result];
    - the wall clock, the random source and the database are explicit
      arguments and results of the handlers. *)

From Stdlib Require Import ZArith List Lia Bool Btauto Permutation Sorted.
From Stdlib Require Ascii String.
Import String.StringSyntax.
Import ListNotations.
Local Open Scope string_scope.
Local Open Scope list_scope.
Local Open Scope Z_scope.

(** ** Exceptions and results *)

Inductive exn : Type :=
| UnicodeEncodeError
| UnicodeDecodeError
| AttributeError
| TypeError
| ValueError
| KeyError
| OverflowError
| binascii_Error
| sqlite3_ProgrammingError
| sqlite3_IntegrityError
| jwt_DecodeError
| jwt_InvalidSignatureError
| jwt_ExpiredSignatureError
| jwt_ImmatureSignatureError
| jwt_InvalidAlgorithmError
| jwt_InvalidAudienceError
| jwt_InvalidIssuedAtError.

Inductive result (A : Type) : Type :=
| Ok (a : A)
| Raise (e : exn).
Arguments Ok {A} a.
Arguments Raise {A} e.

Definition bind {A B : Type} (m : result A) (k : A -> result B) : result B :=
  match m with
  | Ok a => k a
  | Raise e => Raise e
  end.

Notation "x <- m ;; k" := (bind m (fun x => k))
  (at level 61, m at next level, right associativity).
Notation "' p <- m ;; k" := (bind m (fun p => k))
  (at level 61, p pattern, m at next level, right associativity).

(** [try: ... except cls: handler]: the handler runs when the raised
    exception is an instance of one of the caught classes. *)
Definition try_except {A : Type} (m : result A) (caught : exn -> bool)
    (handler : exn -> result A) : result A :=
  match m with
  | Ok a => Ok a
  | Raise e => if caught e then handler e else Raise e
  end.

(** [isinstance(e, jwt.InvalidTokenError)]: the base class of every error
    PyJWT raises for a token it rejects. *)
Definition is_InvalidTokenError (e : exn) : bool :=
  match e with
  | jwt_DecodeError | jwt_InvalidSignatureError | jwt_ExpiredSignatureError
  | jwt_ImmatureSignatureError | jwt_InvalidAlgorithmError
  | jwt_InvalidAudienceError | jwt_InvalidIssuedAtError => true
  | _ => false
  end.

Definition is_ExpiredSignatureError (e : exn) : bool :=
  match e with
  | jwt_ExpiredSignatureError => true
  | _ => false
  end.

(** [except Exception]: every exception of the model derives from it. *)
Definition is_Exception (e : exn) : bool := true.

(** ** Strings and bytes *)

Definition pystr := list Z.
Definition bytes := list Z.

Definition is_byte (b : Z) : bool := (0 <=? b) && (b <? 256).

(** A Unicode scalar value: a code point that is not a surrogate. *)
Definition is_scalar (c : Z) : bool :=
  ((0 <=? c) && (c <? 0xD800)) || ((0xE000 <=? c) && (c <? 0x110000)).

(** Text that UTF-8 can carry. *)
Definition is_text (s : pystr) : bool := forallb is_scalar s.

Definition utf8_encode_cp (c : Z) : result bytes :=
  if negb (is_scalar c) then Raise UnicodeEncodeError
  else if c <? 0x80 then Ok [c]
  else if c <? 0x800 then Ok [0xC0 + c / 64; 0x80 + c mod 64]
  else if c <? 0x10000 then
    Ok [0xE0 + c / 4096; 0x80 + (c / 64) mod 64; 0x80 + c mod 64]
  else
    Ok [0xF0 + c / 262144; 0x80 + (c / 4096) mod 64;
        0x80 + (c / 64) mod 64; 0x80 + c mod 64].

(** [s.encode()] (UTF-8, strict). *)
Fixpoint str_encode (s : pystr) : result bytes :=
  match s with
  | [] => Ok []
  | c :: s' =>
      b <- utf8_encode_cp c ;;
      bs <- str_encode s' ;;
      Ok (b ++ bs)
  end.

(** [b.decode('utf-8')] (strict): shortest forms only, no surrogates,
    nothing above U+10FFFF. *)
Definition is_cont (b : Z) : bool := (0x80 <=? b) && (b <? 0xC0).

Fixpoint bytes_decode_fuel (fuel : nat) (b : bytes) : result pystr :=
  match fuel with
  | O => Ok []
  | S fuel' =>
      match b with
      | [] => Ok []
      | b0 :: r0 =>
          if (0 <=? b0) && (b0 <? 0x80) then
            s <- bytes_decode_fuel fuel' r0 ;; Ok (b0 :: s)
          else if (0xC2 <=? b0) && (b0 <? 0xE0) then
            match r0 with
            | b1 :: r1 =>
                if is_cont b1 then
                  s <- bytes_decode_fuel fuel' r1 ;;
                  Ok ((b0 - 0xC0) * 64 + (b1 - 0x80) :: s)
                else Raise UnicodeDecodeError
            | _ => Raise UnicodeDecodeError
            end
          else if (0xE0 <=? b0) && (b0 <? 0xF0) then
            match r0 with
            | b1 :: b2 :: r2 =>
                let c := (b0 - 0xE0) * 4096 + (b1 - 0x80) * 64 + (b2 - 0x80) in
                if is_cont b1 && is_cont b2 && (0x800 <=? c) && is_scalar c then
                  s <- bytes_decode_fuel fuel' r2 ;; Ok (c :: s)
                else Raise UnicodeDecodeError
            | _ => Raise UnicodeDecodeError
            end
          else if (0xF0 <=? b0) && (b0 <? 0xF5) then
            match r0 with
            | b1 :: b2 :: b3 :: r3 =>
                let c := (b0 - 0xF0) * 262144 + (b1 - 0x80) * 4096
                         + (b2 - 0x80) * 64 + (b3 - 0x80) in
                if is_cont b1 && is_cont b2 && is_cont b3
                   && (0x10000 <=? c) && is_scalar c then
                  s <- bytes_decode_fuel fuel' r3 ;; Ok (c :: s)
                else Raise UnicodeDecodeError
            | _ => Raise UnicodeDecodeError
            end
          else Raise UnicodeDecodeError
      end
  end.

Definition bytes_decode (b : bytes) : result pystr :=
  bytes_decode_fuel (length b) b.

(** String literals of the source, as code points. *)
Definition ord (c : Ascii.ascii) : Z := Z.of_N (Ascii.N_of_ascii c).

Fixpoint lit (s : String.string) : pystr :=
  match s with
  | String.EmptyString => []
  | String.String c s' => ord c :: lit s'
  end.

(** [a == b] on strings, and on bytes. *)
Fixpoint str_eqb (a b : pystr) : bool :=
  match a, b with
  | [], [] => true
  | x :: a', y :: b' => (x =? y) && str_eqb a' b'
  | _, _ => false
  end.

(** ** SHA-256 (FIPS 180-4), as [hashlib] computes it *)

Module SHA256.

Definition w32 (x : Z) : Z := Z.land x 0xFFFFFFFF.
Definition add32 (x y : Z) : Z := w32 (x + y).
Definition rotr (n x : Z) : Z :=
  Z.lor (Z.shiftr x n) (w32 (Z.shiftl x (32 - n))).
Definition shr (n x : Z) : Z := Z.shiftr x n.

Definition Ch (x y z : Z) : Z :=
  Z.lxor (Z.land x y) (Z.land (Z.lxor x 0xFFFFFFFF) z).
Definition Maj (x y z : Z) : Z :=
  Z.lxor (Z.lxor (Z.land x y) (Z.land x z)) (Z.land y z).
Definition Sigma0 (x : Z) : Z := Z.lxor (Z.lxor (rotr 2 x) (rotr 13 x)) (rotr 22 x).
Definition Sigma1 (x : Z) : Z := Z.lxor (Z.lxor (rotr 6 x) (rotr 11 x)) (rotr 25 x).
Definition sigma0 (x : Z) : Z := Z.lxor (Z.lxor (rotr 7 x) (rotr 18 x)) (shr 3 x).
Definition sigma1 (x : Z) : Z := Z.lxor (Z.lxor (rotr 17 x) (rotr 19 x)) (shr 10 x).

(** The constants (FIPS 180-4, 4.2.2 and 5.3.3): the first 32 bits of the
    fractional parts of the cube roots of the first 64 primes, and of the
    square roots of the first 8. *)
Definition is_prime (n : Z) : bool :=
  forallb (fun d => negb (n mod d =? 0)) (map Z.of_nat (seq 2 (Z.to_nat n - 2))).

Definition primes_to (bound : nat) : list Z :=
  filter is_prime (map Z.of_nat (seq 2 (bound - 1))).

(** The integer cube root of [x], found bit by bit from bit [n - 1] down. *)
Fixpoint cube_root (n : nat) (x r : Z) : Z :=
  match n with
  | O => r
  | S n' =>
      let r' := r + 2 ^ Z.of_nat n' in
      cube_root n' x (if r' * r' * r' <=? x then r' else r)
  end.

Definition K : list Z :=
  Eval vm_compute in
  map (fun p => cube_root 40 (p * 2 ^ 96) 0 mod 2 ^ 32) (primes_to 311).

Definition H0 : list Z :=
  Eval vm_compute in
  map (fun p => Z.sqrt (p * 2 ^ 64) mod 2 ^ 32) (primes_to 19).

(** Big-endian bytes of the low [8 * n] bits of [x]. *)
Fixpoint be_bytes (n : nat) (x : Z) : bytes :=
  match n with
  | O => []
  | S n' => Z.land (Z.shiftr x (8 * Z.of_nat n')) 0xFF :: be_bytes n' x
  end.

Definition be_word (b3 b2 b1 b0 : Z) : Z :=
  Z.lor (Z.lor (Z.shiftl b3 24) (Z.shiftl b2 16)) (Z.lor (Z.shiftl b1 8) b0).

(** Padding: a 1 bit, zeros up to 56 mod 64, then the bit length on 8 bytes. *)
Definition pad (msg : bytes) : bytes :=
  let len := Z.of_nat (length msg) in
  let zeros := Z.to_nat ((55 - len) mod 64) in
  msg ++ [0x80] ++ repeat 0 zeros ++ be_bytes 8 (8 * len).

Fixpoint words (b : bytes) : list Z :=
  match b with
  | b3 :: b2 :: b1 :: b0 :: r => be_word b3 b2 b1 b0 :: words r
  | _ => []
  end.

(** The message schedule, newest word first: [rev_w] holds W(t-1), W(t-2), ... *)
Fixpoint schedule (n : nat) (rev_w : list Z) : list Z :=
  match n with
  | O => rev_w
  | S n' =>
      let w := add32 (add32 (sigma1 (nth 1 rev_w 0)) (nth 6 rev_w 0))
                     (add32 (sigma0 (nth 14 rev_w 0)) (nth 15 rev_w 0)) in
      schedule n' (w :: rev_w)
  end.

Record regs : Type := mkRegs { ra : Z; rb : Z; rc : Z; rd : Z;
                               re : Z; rf : Z; rg : Z; rh : Z }.

Definition round (s : regs) (kw : Z * Z) : regs :=
  let t1 := add32 (add32 (add32 (rh s) (Sigma1 (re s)))
                         (add32 (Ch (re s) (rf s) (rg s)) (fst kw))) (snd kw) in
  let t2 := add32 (Sigma0 (ra s)) (Maj (ra s) (rb s) (rc s)) in
  mkRegs (add32 t1 t2) (ra s) (rb s) (rc s) (add32 (rd s) t1) (re s) (rf s) (rg s).

Definition regs_of (h : list Z) : regs :=
  mkRegs (nth 0 h 0) (nth 1 h 0) (nth 2 h 0) (nth 3 h 0)
         (nth 4 h 0) (nth 5 h 0) (nth 6 h 0) (nth 7 h 0).

Definition compress (h : list Z) (block : bytes) : list Z :=
  let w := rev (schedule 48 (rev (words block))) in
  let s0 := regs_of h in
  let s := fold_left round (combine K w) s0 in
  [add32 (ra s0) (ra s); add32 (rb s0) (rb s); add32 (rc s0) (rc s);
   add32 (rd s0) (rd s); add32 (re s0) (re s); add32 (rf s0) (rf s);
   add32 (rg s0) (rg s); add32 (rh s0) (rh s)].

Fixpoint blocks (n : nat) (h : list Z) (b : bytes) : list Z :=
  match n with
  | O => h
  | S n' => blocks n' (compress h (firstn 64 b)) (skipn 64 b)
  end.

Definition digest (msg : bytes) : bytes :=
  let p := pad msg in
  flat_map (be_bytes 4) (blocks (length p / 64) H0 p).

End SHA256.

(** ** HMAC (RFC 2104) and PBKDF2 (RFC 8018) over SHA-256 *)

Definition block_size : Z := 64.

Definition xor_bytes (a b : bytes) : bytes :=
  map (fun p => Z.lxor (fst p) (snd p)) (combine a b).

(** The key block: a key longer than one block is hashed first, then the
    key is filled with zero bytes up to the block size. *)
Definition hmac_key_block (key : bytes) : bytes :=
  let k := if block_size <? Z.of_nat (length key) then SHA256.digest key else key in
  k ++ repeat 0 (Z.to_nat (block_size - Z.of_nat (length k))).

Definition hmac_sha256 (key msg : bytes) : bytes :=
  let kb := hmac_key_block key in
  let inner := SHA256.digest (map (Z.lxor 0x36) kb ++ msg) in
  SHA256.digest (map (Z.lxor 0x5C) kb ++ inner).

(** [hashlib.pbkdf2_hmac('sha256', password, salt, iterations)]: the derived
    key has the digest's length, so there is the single block of index 1. *)
Definition pbkdf2_step (password : bytes) (st : bytes * bytes) : bytes * bytes :=
  let prev := hmac_sha256 password (fst st) in
  (prev, xor_bytes (snd st) prev).

Definition pbkdf2_hmac_sha256 (password salt : bytes) (iterations : Z) : bytes :=
  let u1 := hmac_sha256 password (salt ++ [0; 0; 0; 1]) in
  snd (N.iter (Z.to_N (iterations - 1)) (pbkdf2_step password) (u1, u1)).

Definition hex (s : String.string) : bytes :=
  (fix go (l : list Z) : bytes :=
     match l with
     | h :: l0 :: r =>
         let v := fun c => if c <? 58 then c - 48 else c - 87 in
         v h * 16 + v l0 :: go r
     | _ => []
     end) (lit s).


(** ** Base64 ([base64.b64encode], [base64.b64decode]) *)

Definition b64_alphabet : pystr :=
  lit "ABCDEFGHIJKLMNOPQRSTUVWXYZabcdefghijklmnopqrstuvwxyz0123456789+/".

Definition b64_char (v : Z) : Z := nth (Z.to_nat v) b64_alphabet 0.

(** [binascii.b2a_base64]: three bytes give four characters; the last
    group is completed with '='. *)
Fixpoint b64encode (b : bytes) : bytes :=
  match b with
  | [] => []
  | [x] => [b64_char (x / 4); b64_char (x mod 4 * 16); 61; 61]
  | [x; y] =>
      [b64_char (x / 4); b64_char (x mod 4 * 16 + y / 16);
       b64_char (y mod 16 * 4); 61]
  | x :: y :: z :: r =>
      b64_char (x / 4) :: b64_char (x mod 4 * 16 + y / 16)
      :: b64_char (y mod 16 * 4 + z / 64) :: b64_char (z mod 64)
      :: b64encode r
  end.

(** The decoding table: [None] for a character outside the alphabet. *)
Definition b64_value (c : Z) : option Z :=
  if (65 <=? c) && (c <=? 90) then Some (c - 65)
  else if (97 <=? c) && (c <=? 122) then Some (c - 71)
  else if (48 <=? c) && (c <=? 57) then Some (c + 4)
  else if c =? 43 then Some 62
  else if c =? 47 then Some 63
  else None.

(** [binascii.a2b_base64] without strict mode: characters outside the
    alphabet are skipped, a complete run of padding ends the input, and an
    incomplete last group is an error.  [quad_pos] counts the characters of
    the current group, [leftchar] holds its bits not yet written. *)
Fixpoint a2b_base64 (s : bytes) (quad_pos leftchar pads : Z) (out : bytes)
  : result bytes :=
  match s with
  | [] => if quad_pos =? 0 then Ok (rev out) else Raise binascii_Error
  | c :: r =>
      if c =? 61 then
        if 2 <=? quad_pos then
          if 4 <=? quad_pos + (pads + 1) then Ok (rev out)
          else a2b_base64 r quad_pos leftchar (pads + 1) out
        else a2b_base64 r quad_pos leftchar pads out
      else
        match b64_value c with
        | None => a2b_base64 r quad_pos leftchar pads out
        | Some v =>
            if quad_pos =? 0 then a2b_base64 r 1 v 0 out
            else if quad_pos =? 1 then
              a2b_base64 r 2 (v mod 16) 0 (leftchar * 4 + v / 16 :: out)
            else if quad_pos =? 2 then
              a2b_base64 r 3 (v mod 4) 0 (leftchar * 16 + v / 4 :: out)
            else a2b_base64 r 0 0 0 (leftchar * 64 + v :: out)
        end
  end.

Definition b64decode_bytes (s : bytes) : result bytes := a2b_base64 s 0 0 0 [].

(** [base64.b64decode] of a [str]: the text must be ASCII. *)
Definition b64decode (s : pystr) : result bytes :=
  if forallb (fun c => (0 <=? c) && (c <? 128)) s then b64decode_bytes s
  else Raise ValueError.

(** PyJWT's unpadded URL-safe variant. *)
Definition urlsafe_of_std (c : Z) : Z :=
  if c =? 43 then 45 else if c =? 47 then 95 else c.
Definition std_of_urlsafe (c : Z) : Z :=
  if c =? 45 then 43 else if c =? 95 then 47 else c.

Definition base64url_encode (b : bytes) : bytes :=
  filter (fun c => negb (c =? 61)) (map urlsafe_of_std (b64encode b)).

Definition base64url_decode (s : bytes) : result bytes :=
  let rem := Z.of_nat (length s) mod 4 in
  let padded := if 0 <? rem then s ++ repeat 61 (Z.to_nat (4 - rem)) else s in
  b64decode_bytes (map std_of_urlsafe padded).

(** ** Decimal integers *)

Fixpoint digits_fuel (fuel : nat) (n : Z) (acc : pystr) : pystr :=
  match fuel with
  | O => 48 + n :: acc
  | S f =>
      if n <? 10 then 48 + n :: acc
      else digits_fuel f (n / 10) (48 + n mod 10 :: acc)
  end.

Definition digits (n : Z) : pystr := digits_fuel (Z.to_nat (Z.log2 n)) n [].

(** [str(n)] for an integer. *)
Definition decimal (n : Z) : pystr :=
  if n <? 0 then 45 :: digits (- n) else digits n.

Definition is_digit (c : Z) : bool := (48 <=? c) && (c <=? 57).

Fixpoint scan_digits (s : pystr) (acc : Z) : Z * pystr :=
  match s with
  | c :: r => if is_digit c then scan_digits r (acc * 10 + (c - 48)) else (acc, s)
  | [] => (acc, [])
  end.

(** ** Python values carried by JSON *)

Local Set Warnings "-register-all".

Inductive pyval : Type :=
| VNone
| VBool (b : bool)
| VInt (n : Z)
| VStr (s : pystr)
| VList (l : list pyval)
| VDict (d : list (pystr * pyval)).

(** Truth value testing ([if x], [not x]). *)
Definition truthy (v : pyval) : bool :=
  match v with
  | VNone => false
  | VBool b => b
  | VInt n => negb (n =? 0)
  | VStr s => match s with [] => false | _ => true end
  | VList l => match l with [] => false | _ => true end
  | VDict d => match d with [] => false | _ => true end
  end.

(** A [dict] keeps its keys in insertion order; assigning to a key that is
    present replaces the value in place. *)
Definition dict := list (pystr * pyval).

Fixpoint dict_lookup (d : dict) (k : pystr) : option pyval :=
  match d with
  | [] => None
  | (k', v) :: d' => if str_eqb k' k then Some v else dict_lookup d' k
  end.

Fixpoint dict_set (d : dict) (k : pystr) (v : pyval) : dict :=
  match d with
  | [] => [(k, v)]
  | (k', v') :: d' =>
      if str_eqb k' k then (k', v) :: d' else (k', v') :: dict_set d' k v
  end.

Definition dict_has (d : dict) (k : pystr) : bool :=
  match dict_lookup d k with Some _ => true | None => false end.

(** [data.get(k)] on whatever the request body decoded to: only a [dict]
    has the method. *)
Definition py_get (data : pyval) (k : pystr) : result pyval :=
  match data with
  | VDict d => Ok (match dict_lookup d k with Some v => v | None => VNone end)
  | _ => Raise AttributeError
  end.

(** [k in data]: membership of a key for a dict, of an element for a list,
    of a substring for a str ([TypeError] for the other values). *)
Definition py_in (k : pystr) (data : pyval) : result bool :=
  match data with
  | VDict d => Ok (dict_has d k)
  | VList l =>
      Ok (existsb (fun v => match v with VStr s => str_eqb s k | _ => false end) l)
  | VStr s =>
      Ok ((fix find (t : pystr) : bool :=
             match t with
             | [] => match k with [] => true | _ => false end
             | _ :: t' =>
                 str_eqb (firstn (length k) t) k || find t'
             end) s)
  | _ => Raise TypeError
  end.

(** [data[k]] with a string key. *)
Definition py_item (data : pyval) (k : pystr) : result pyval :=
  match data with
  | VDict d => match dict_lookup d k with Some v => Ok v | None => Raise KeyError end
  | _ => Raise TypeError
  end.

(** ** JSON text ([json.dumps] with compact separators, [json.loads]) *)

Definition hex_digit (v : Z) : Z := if v <? 10 then 48 + v else 87 + v.

Definition u_escape (c : Z) : pystr :=
  [92; 117; hex_digit (c / 4096); hex_digit (c / 256 mod 16);
   hex_digit (c / 16 mod 16); hex_digit (c mod 16)].

(** [ensure_ascii]: everything outside printable ASCII is escaped, a code
    point above U+FFFF as a surrogate pair. *)
Definition json_escape_cp (c : Z) : pystr :=
  if c =? 34 then [92; 34]
  else if c =? 92 then [92; 92]
  else if c =? 10 then [92; 110]
  else if c =? 13 then [92; 114]
  else if c =? 9 then [92; 116]
  else if c =? 8 then [92; 98]
  else if c =? 12 then [92; 102]
  else if (32 <=? c) && (c <=? 126) then [c]
  else if c <? 0x10000 then u_escape c
  else u_escape (0xD800 + (c - 0x10000) / 1024)
       ++ u_escape (0xDC00 + (c - 0x10000) mod 1024).

Definition json_quote (s : pystr) : pystr :=
  34 :: flat_map json_escape_cp s ++ [34].

Fixpoint json_dumps (v : pyval) : pystr :=
  match v with
  | VNone => lit "null"
  | VBool true => lit "true"
  | VBool false => lit "false"
  | VInt n => decimal n
  | VStr s => json_quote s
  | VList l =>
      91 :: (fix items (l : list pyval) : pystr :=
               match l with
               | [] => []
               | [x] => json_dumps x
               | x :: r => json_dumps x ++ 44 :: items r
               end) l ++ [93]
  | VDict d =>
      123 :: (fix members (d : list (pystr * pyval)) : pystr :=
                match d with
                | [] => []
                | [(k, x)] => json_quote k ++ 58 :: json_dumps x
                | (k, x) :: r => json_quote k ++ 58 :: json_dumps x ++ 44 :: members r
                end) d ++ [125]
  end.

Definition is_ws (c : Z) : bool :=
  (c =? 32) || (c =? 9) || (c =? 10) || (c =? 13).

Fixpoint skip_ws (s : pystr) : pystr :=
  match s with
  | c :: r => if is_ws c then skip_ws r else s
  | [] => []
  end.

Definition hex_value (c : Z) : option Z :=
  if (48 <=? c) && (c <=? 57) then Some (c - 48)
  else if (97 <=? c) && (c <=? 102) then Some (c - 87)
  else if (65 <=? c) && (c <=? 70) then Some (c - 55)
  else None.

Definition hex4 (a b c d : Z) : option Z :=
  match hex_value a, hex_value b, hex_value c, hex_value d with
  | Some x, Some y, Some z, Some w => Some (x * 4096 + y * 256 + z * 16 + w)
  | _, _, _, _ => None
  end.

Definition is_high_surrogate (u : Z) : bool := (0xD800 <=? u) && (u <=? 0xDBFF).
Definition is_low_surrogate (u : Z) : bool := (0xDC00 <=? u) && (u <=? 0xDFFF).

(** The body of a string, after its opening quote.  A high surrogate
    escape directly followed by a low surrogate escape is one code point. *)
Fixpoint scan_string (s : pystr) (acc : pystr) : option (pystr * pystr) :=
  match s with
  | [] => None
  | c :: r =>
      if c =? 34 then Some (rev acc, r)
      else if c =? 92 then
        match r with
        | [] => None
        | e :: r1 =>
            if e =? 117 then
              match r1 with
              | h1 :: h2 :: h3 :: h4 :: r2 =>
                  match hex4 h1 h2 h3 h4 with
                  | None => None
                  | Some u =>
                      match r2 with
                      | b :: r3 =>
                          match r3 with
                          | u' :: g1 :: g2 :: g3 :: g4 :: r4 =>
                              if is_high_surrogate u && (b =? 92) && (u' =? 117) then
                                match hex4 g1 g2 g3 g4 with
                                | None => None
                                | Some u2 =>
                                    if is_low_surrogate u2 then
                                      scan_string r4
                                        (0x10000 + (u - 0xD800) * 1024 + (u2 - 0xDC00) :: acc)
                                    else scan_string r2 (u :: acc)
                                end
                              else scan_string r2 (u :: acc)
                          | _ =>
                              if is_high_surrogate u && (b =? 92)
                                 && match r3 with u' :: _ => u' =? 117 | [] => false end
                              then None
                              else scan_string r2 (u :: acc)
                          end
                      | [] => scan_string r2 (u :: acc)
                      end
                  end
              | _ => None
              end
            else if e =? 34 then scan_string r1 (34 :: acc)
            else if e =? 92 then scan_string r1 (92 :: acc)
            else if e =? 47 then scan_string r1 (47 :: acc)
            else if e =? 98 then scan_string r1 (8 :: acc)
            else if e =? 102 then scan_string r1 (12 :: acc)
            else if e =? 110 then scan_string r1 (10 :: acc)
            else if e =? 114 then scan_string r1 (13 :: acc)
            else if e =? 116 then scan_string r1 (9 :: acc)
            else None
        end
      else if c <? 32 then None
      else scan_string r (c :: acc)
  end.

(** An integer literal: an optional minus sign, then 0 or a run of digits
    that does not start with 0.  A fraction or an exponent
    would make the number a float, which this model does not carry: such
    text is refused. *)
Definition scan_natural (t : pystr) : option (Z * pystr) :=
  match t with
  | c :: r =>
      if c =? 48 then Some (0, r)
      else if is_digit c then Some (scan_digits t 0)
      else None
  | [] => None
  end.

Definition refuse_float (x : option (Z * pystr)) : option (Z * pystr) :=
  match x with
  | Some (n, c :: r) =>
      if (c =? 46) || (c =? 101) || (c =? 69) then None else Some (n, c :: r)
  | _ => x
  end.

Definition scan_number (s : pystr) : option (Z * pystr) :=
  match s with
  | c :: r =>
      if c =? 45 then
        refuse_float (match scan_natural r with
                      | Some (n, r') => Some (- n, r')
                      | None => None
                      end)
      else refuse_float (scan_natural s)
  | [] => None
  end.

(** The scanner.  Every call consumes a character before it recurses, so a
    fuel of the length of the text, plus one, never runs out. *)
Fixpoint scan_once (fuel : nat) (s : pystr) : option (pyval * pystr) :=
  match fuel with
  | O => None
  | S f =>
      match s with
      | [] => None
      | c :: r =>
          if c =? 34 then
            match scan_string r [] with
            | Some (str, r') => Some (VStr str, r')
            | None => None
            end
          else if c =? 123 then
            match skip_ws r with
            | c' :: r' =>
                if c' =? 125 then Some (VDict [], r')
                else if c' =? 34 then scan_members f r' []
                else None
            | [] => None
            end
          else if c =? 91 then
            match skip_ws r with
            | c' :: r' =>
                if c' =? 93 then Some (VList [], r')
                else scan_elements f (c' :: r') []
            | [] => None
            end
          else if c =? 110 then
            match r with
            | 117 :: 108 :: 108 :: r' => Some (VNone, r')
            | _ => None
            end
          else if c =? 116 then
            match r with
            | 114 :: 117 :: 101 :: r' => Some (VBool true, r')
            | _ => None
            end
          else if c =? 102 then
            match r with
            | 97 :: 108 :: 115 :: 101 :: r' => Some (VBool false, r')
            | _ => None
            end
          else
            match scan_number s with
            | Some (n, r') => Some (VInt n, r')
            | None => None
            end
      end
  end

(** [s] starts just after the opening quote of a key. *)
with scan_members (fuel : nat) (s : pystr) (acc : dict) : option (pyval * pystr) :=
  match fuel with
  | O => None
  | S f =>
      match scan_string s [] with
      | None => None
      | Some (key, r) =>
          match skip_ws r with
          | c :: r1 =>
              if c =? 58 then
                match scan_once f (skip_ws r1) with
                | None => None
                | Some (v, r2) =>
                    match skip_ws r2 with
                    | c2 :: r3 =>
                        if c2 =? 125 then Some (VDict (dict_set acc key v), r3)
                        else if c2 =? 44 then
                          match skip_ws r3 with
                          | c3 :: r4 =>
                              if c3 =? 34 then scan_members f r4 (dict_set acc key v)
                              else None
                          | [] => None
                          end
                        else None
                    | [] => None
                    end
                end
              else None
          | [] => None
          end
      end
  end

(** [s] starts at an element. *)
with scan_elements (fuel : nat) (s : pystr) (acc : list pyval) : option (pyval * pystr) :=
  match fuel with
  | O => None
  | S f =>
      match scan_once f s with
      | None => None
      | Some (v, r) =>
          match skip_ws r with
          | c :: r1 =>
              if c =? 93 then Some (VList (rev (v :: acc)), r1)
              else if c =? 44 then scan_elements f (skip_ws r1) (v :: acc)
              else None
          | [] => None
          end
      end
  end.

(** [json.loads] of text: one value, surrounded by optional white space. *)
Definition json_loads_str (s : pystr) : option pyval :=
  match scan_once (S (length s)) (skip_ws s) with
  | Some (v, r) => match skip_ws r with [] => Some v | _ => None end
  | None => None
  end.

(** [json.loads] of bytes (UTF-8). *)
Definition json_loads (b : bytes) : option pyval :=
  match bytes_decode b with
  | Ok s => json_loads_str s
  | Raise _ => None
  end.

(** ** [str.replace] and [str.startswith] *)

Fixpoint starts_with (prefix s : pystr) : bool :=
  match prefix, s with
  | [], _ => true
  | p :: prefix', c :: s' => (p =? c) && starts_with prefix' s'
  | _ :: _, [] => false
  end.

(** [s.replace(old, new)] for a non-empty [old]: occurrences are replaced
    from the left and do not overlap; [skip] counts the characters of an
    occurrence still to be dropped. *)
Fixpoint replace_go (old new s : pystr) (skip : nat) : pystr :=
  match s with
  | [] => []
  | c :: r =>
      match skip with
      | S k => replace_go old new r k
      | O =>
          if starts_with old s then new ++ replace_go old new r (length old - 1)
          else c :: replace_go old new r O
      end
  end.

Definition str_replace (s old new : pystr) : pystr := replace_go old new s O.

(** ** SQLite values, rows and tables *)

Inductive sqlval : Type :=
| SNull
| SInt (n : Z)
| SText (s : pystr).

(** Binding a Python value to a [?] placeholder. *)
Definition bind_param (v : pyval) : result sqlval :=
  match v with
  | VNone => Ok SNull
  | VBool b => Ok (SInt (if b then 1 else 0))
  | VInt n =>
      if (- 2 ^ 63 <=? n) && (n <? 2 ^ 63) then Ok (SInt n) else Raise OverflowError
  | VStr s => if is_text s then Ok (SText s) else Raise UnicodeEncodeError
  | VList _ | VDict _ => Raise sqlite3_ProgrammingError
  end.

(** An optionally signed run of digits. *)
Definition integer_literal (s : pystr) : option Z :=
  let unsigned (t : pystr) : option Z :=
    match t with
    | [] => None
    | _ => if forallb is_digit t then Some (fst (scan_digits t 0)) else None
    end in
  match s with
  | c :: r =>
      if c =? 45 then option_map Z.opp (unsigned r)
      else if c =? 43 then unsigned r
      else unsigned s
  | [] => None
  end.

(** Column affinity.  A TEXT column stores a number as its text; an INTEGER
    column stores text that is an integer literal of 64 bits as the number
    (literals with a fraction, an exponent or surrounding blanks are not
    modelled). *)
Definition text_affinity (v : sqlval) : sqlval :=
  match v with
  | SInt n => SText (decimal n)
  | _ => v
  end.

Definition integer_affinity (v : sqlval) : sqlval :=
  match v with
  | SText s =>
      match integer_literal s with
      | Some n => if (- 2 ^ 63 <=? n) && (n <? 2 ^ 63) then SInt n else v
      | None => v
      end
  | _ => v
  end.

(** [a = b] in a WHERE clause, both sides already brought to the column's
    affinity: NULL equals nothing, a number never equals text. *)
Definition sql_eq (a b : sqlval) : bool :=
  match a, b with
  | SInt x, SInt y => x =? y
  | SText x, SText y => str_eqb x y
  | _, _ => false
  end.

(** A TEXT column that admits NULL. *)
Definition opt_text (v : sqlval) : option pystr :=
  match text_affinity v with
  | SText s => Some s
  | _ => None
  end.

(** A NOT NULL TEXT column. *)
Definition req_text (v : sqlval) : result pystr :=
  match text_affinity v with
  | SText s => Ok s
  | _ => Raise sqlite3_IntegrityError
  end.

Record usuario : Type := mkUsuario {
  u_id : Z;
  u_username : pystr;
  u_password_hash : pystr;
  u_salt : pystr;
  u_nombre_completo : pystr;
  u_email : option pystr;
  u_role : pystr;
  u_permisos : pystr;
  u_activo : sqlval;
  u_fecha_creacion : pystr;
  u_ultimo_acceso : option pystr;
  u_creado_por : sqlval
}.

Record sesion : Type := mkSesion {
  s_id : Z;
  s_user_id : Z;
  s_token : pystr;
  s_ip_address : option pystr;
  s_user_agent : option pystr;
  s_fecha_inicio : pystr;
  s_fecha_expiracion : pystr;
  s_activa : sqlval
}.

Record log_acceso : Type := mkLog {
  l_id : Z;
  l_user_id : sqlval;
  l_username : option pystr;
  l_accion : pystr;
  l_ip_address : option pystr;
  l_fecha : pystr;
  l_exitoso : sqlval
}.

(** The three tables, rows in rowid order, and the AUTOINCREMENT counters
    ([sqlite_sequence]). *)
Record database : Type := mkDatabase {
  usuarios : list usuario;
  sesiones : list sesion;
  logs_acceso : list log_acceso;
  seq_usuarios : Z;
  seq_sesiones : Z;
  seq_logs : Z
}.

Definition next_rowid (ids : list Z) (seq : Z) : Z :=
  Z.max seq (fold_right Z.max 0 ids) + 1.

(** ** The process: keys, clock, random source, database *)

Record world : Type := mkWorld {
  w_db : database;
  (** [JWT_SECRET = secrets.token_hex(32)] and [AES_KEY = secrets.token_bytes(32)],
      drawn once when the module is loaded. *)
  JWT_SECRET : pystr;
  AES_KEY : bytes;
  (** The successive readings of the wall clock, in microseconds of UTC
      since the epoch, and the number of readings made so far. *)
  w_clock : nat -> Z;
  w_ticks : nat;
  (** The local time zone: the offset from UTC, in microseconds, in force at
      an instant. *)
  w_utcoffset : Z -> Z;
  (** The operating system's random bytes and the number already drawn. *)
  w_entropy : nat -> Z;
  w_drawn : nat
}.

Definition set_db (w : world) (d : database) : world :=
  mkWorld d (JWT_SECRET w) (AES_KEY w) (w_clock w) (w_ticks w)
          (w_utcoffset w) (w_entropy w) (w_drawn w).

(** A computation reads and changes the process and may raise. *)
Definition M (A : Type) : Type := world -> result A * world.

Definition ret {A : Type} (a : A) : M A := fun w => (Ok a, w).
Definition raise {A : Type} (e : exn) : M A := fun w => (Raise e, w).
Definition lift {A : Type} (r : result A) : M A := fun w => (r, w).

Definition bindM {A B : Type} (m : M A) (k : A -> M B) : M B :=
  fun w =>
    match m w with
    | (Ok a, w') => k a w'
    | (Raise e, w') => (Raise e, w')
    end.

Notation "x <<- m ;; k" := (bindM m (fun x => k))
  (at level 61, m at next level, right associativity).
Notation "' p <<- m ;; k" := (bindM m (fun p => k))
  (at level 61, p pattern, m at next level, right associativity).
Notation "m ;;; k" := (bindM m (fun _ => k))
  (at level 61, right associativity).

Definition try_catch {A : Type} (m : M A) (caught : exn -> bool)
    (handler : exn -> M A) : M A :=
  fun w =>
    match m w with
    | (Ok a, w') => (Ok a, w')
    | (Raise e, w') => if caught e then handler e w' else (Raise e, w')
    end.

(** [datetime.utcnow()]: one reading of the clock. *)
Definition utcnow : M Z :=
  fun w =>
    (Ok (w_clock w (w_ticks w)),
     mkWorld (w_db w) (JWT_SECRET w) (AES_KEY w) (w_clock w) (S (w_ticks w))
             (w_utcoffset w) (w_entropy w) (w_drawn w)).

(** [datetime.now()]: the same reading, as local time. *)
Definition now : M Z :=
  t <<- utcnow ;;
  fun w => (Ok (t + w_utcoffset w t), w).

(** [secrets.token_bytes(n)]. *)
Definition token_bytes (n : nat) : M bytes :=
  fun w =>
    (Ok (map (fun i => w_entropy w (w_drawn w + i)%nat mod 256) (seq 0 n)),
     mkWorld (w_db w) (JWT_SECRET w) (AES_KEY w) (w_clock w) (w_ticks w)
             (w_utcoffset w) (w_entropy w) (w_drawn w + n)%nat).

(** [secrets.token_hex(n)]: two lower-case hex digits for each byte. *)
Definition hexlify (b : bytes) : pystr :=
  flat_map (fun x => [hex_digit (x / 16); hex_digit (x mod 16)]) b.

Definition token_hex (n : nat) : M pystr :=
  b <<- token_bytes n ;; ret (hexlify b).

(** [get_db()] opens a connection on the committed state; statements act on
    the connection's view and [conn.commit()] publishes it. *)
Definition get_db : M database := fun w => (Ok (w_db w), w).
Definition commit (conn : database) : M unit := fun w => (Ok tt, set_db w conn).

(** ** Dates *)

Definition microsecond : Z := 1.
Definition second : Z := 1000000.
Definition hours (n : Z) : Z := n * 3600 * second.

(** The civil date of a day number counted from 1970-01-01. *)
Definition civil_from_days (days : Z) : Z * Z * Z :=
  let z := days + 719468 in
  let era := z / 146097 in
  let doe := z - era * 146097 in
  let yoe := (doe - doe / 1460 + doe / 36524 - doe / 146096) / 365 in
  let doy := doe - (365 * yoe + yoe / 4 - yoe / 100) in
  let mp := (5 * doy + 2) / 153 in
  let d := doy - (153 * mp + 2) / 5 + 1 in
  let m := if mp <? 10 then mp + 3 else mp - 9 in
  let y := yoe + era * 400 + (if m <=? 2 then 1 else 0) in
  (y, m, d).

Definition two_digits (n : Z) : pystr := [48 + n / 10; 48 + n mod 10].

Definition four_digits (n : Z) : pystr :=
  [48 + n / 1000; 48 + n / 100 mod 10; 48 + n / 10 mod 10; 48 + n mod 10].

(** [dt.strftime('%Y-%m-%d %H:%M:%S')]: the microseconds are dropped. *)
Definition strftime (dt : Z) : pystr :=
  let secs := dt / second in
  let '(y, m, d) := civil_from_days (secs / 86400) in
  let sod := secs mod 86400 in
  four_digits y ++ [45] ++ two_digits m ++ [45] ++ two_digits d ++ [32]
  ++ two_digits (sod / 3600) ++ [58] ++ two_digits (sod / 60 mod 60)
  ++ [58] ++ two_digits (sod mod 60).

(** [calendar.timegm(dt.utctimetuple())]: whole seconds since the epoch. *)
Definition timegm (dt : Z) : Z := dt / second.

(** ** Credential hasher *)

(** [password.encode()]: only a [str] has the method. *)
Definition py_encode (v : pyval) : result bytes :=
  match v with
  | VStr s => str_encode s
  | _ => Raise AttributeError
  end.

(** [hash_password(password, salt=None)]. *)
Definition hash_password (password : pyval) (salt : option pystr)
  : M (pystr * pystr) :=
  salt <<- match salt with
           | None => token_hex 32
           | Some s => ret s
           end ;;
  p <<- lift (py_encode password) ;;
  s <<- lift (str_encode salt) ;;
  let pwd_hash := pbkdf2_hmac_sha256 p s 100000 in
  d <<- lift (bytes_decode (b64encode pwd_hash)) ;;
  ret (d, salt).

(** [verify_password(password, pwd_hash, salt)]. *)
Definition verify_password (password : pyval) (pwd_hash salt : pystr) : M bool :=
  '(new_hash, _) <<- hash_password password (Some salt) ;;
  ret (str_eqb new_hash pwd_hash).

(** ** Token service (PyJWT 2, HS256) *)

(** [b.rsplit(b".", 1)]: the text before and after the last period. *)
Fixpoint rsplit_dot (b : bytes) : option (bytes * bytes) :=
  match b with
  | [] => None
  | c :: r =>
      match rsplit_dot r with
      | Some (before, after) => Some (c :: before, after)
      | None => if c =? 46 then Some ([], r) else None
      end
  end.

(** [b.split(b".", 1)]: the text before and after the first period. *)
Fixpoint split_dot (b : bytes) : option (bytes * bytes) :=
  match b with
  | [] => None
  | c :: r =>
      if c =? 46 then Some ([], r)
      else match split_dot r with
           | Some (before, after) => Some (c :: before, after)
           | None => None
           end
  end.

Definition or_raise {A : Type} (e : exn) (r : result A) : result A :=
  match r with
  | Ok a => Ok a
  | Raise _ => Raise e
  end.

Definition as_dict (e : exn) (v : option pyval) : result dict :=
  match v with
  | Some (VDict d) => Ok d
  | _ => Raise e
  end.

Record jws : Type := mkJws {
  jws_payload : bytes;
  jws_signing_input : bytes;
  jws_header : dict;
  jws_signature : bytes
}.

(** The structure of a compact token: three segments, each base64url, the
    first one a JSON object. *)
Definition jws_load (token : pystr) : result jws :=
  b <- str_encode token ;;
  match rsplit_dot b with
  | None => Raise jwt_DecodeError
  | Some (signing_input, crypto_segment) =>
      match split_dot signing_input with
      | None => Raise jwt_DecodeError
      | Some (header_segment, payload_segment) =>
          header_data <- or_raise jwt_DecodeError (base64url_decode header_segment) ;;
          header <- as_dict jwt_DecodeError (json_loads header_data) ;;
          payload <- or_raise jwt_DecodeError (base64url_decode payload_segment) ;;
          signature <- or_raise jwt_DecodeError (base64url_decode crypto_segment) ;;
          Ok (mkJws payload signing_input header signature)
      end
  end.

Definition HS256 : pystr := lit "HS256".

(** The header must name an allowed algorithm and the signature must be the
    MAC of the signing input under the secret. *)
Definition jws_verify_signature (t : jws) (key : pystr) (algorithms : list pystr)
  : result unit :=
  match dict_lookup (jws_header t) (lit "alg") with
  | None => Raise jwt_InvalidAlgorithmError
  | Some alg =>
      if negb (truthy alg)
         || negb (existsb (fun a => match alg with
                                    | VStr s => str_eqb s a
                                    | _ => false
                                    end) algorithms)
      then Raise jwt_InvalidAlgorithmError
      else
        k <- str_encode key ;;
        if str_eqb (jws_signature t) (hmac_sha256 k (jws_signing_input t))
        then Ok tt
        else Raise jwt_InvalidSignatureError
  end.

(** [int(v)] on a claim: PyJWT turns a [ValueError] into [wrong]; a value
    that is no number and no string is a [TypeError] of [int] itself. *)
Definition int_claim (wrong : exn) (v : pyval) : result Z :=
  match v with
  | VInt n => Ok n
  | VBool b => Ok (if b then 1 else 0)
  | VStr s =>
      match integer_literal s with
      | Some n => Ok n
      | None => Raise wrong
      end
  | _ => Raise TypeError
  end.

(** The registered claims, checked against the clock reading [now] (in
    microseconds), with no leeway, no expected audience and no issuer. *)
Definition validate_claims (payload : dict) (now : Z) : result unit :=
  _ <- match dict_lookup payload (lit "iat") with
       | Some v =>
           iat <- int_claim jwt_InvalidIssuedAtError v ;;
           if now <? iat * second then Raise jwt_ImmatureSignatureError else Ok tt
       | None => Ok tt
       end ;;
  _ <- match dict_lookup payload (lit "nbf") with
       | Some v =>
           nbf <- int_claim jwt_DecodeError v ;;
           if now <? nbf * second then Raise jwt_ImmatureSignatureError else Ok tt
       | None => Ok tt
       end ;;
  _ <- match dict_lookup payload (lit "exp") with
       | Some v =>
           exp <- int_claim jwt_DecodeError v ;;
           if exp * second <=? now then Raise jwt_ExpiredSignatureError else Ok tt
       | None => Ok tt
       end ;;
  match dict_lookup payload (lit "aud") with
  | Some v => if truthy v then Raise jwt_InvalidAudienceError else Ok tt
  | None => Ok tt
  end.

(** [jwt.decode(token, key, algorithms=[...])]. *)
Definition jwt_decode (token key : pystr) (algorithms : list pystr) : M dict :=
  t <<- lift (jws_load token) ;;
  _ <<- lift (match dict_lookup (jws_header t) (lit "b64") with
              | Some (VBool false) => Raise jwt_DecodeError
              | _ => Ok tt
              end) ;;
  _ <<- lift (jws_verify_signature t key algorithms) ;;
  payload <<- lift (as_dict jwt_DecodeError (json_loads (jws_payload t))) ;;
  now <<- utcnow ;;
  _ <<- lift (validate_claims payload now) ;;
  ret payload.

Definition jwt_header : dict := [(lit "alg", VStr HS256); (lit "typ", VStr (lit "JWT"))].

(** [jwt.encode(payload, key, algorithm='HS256')]; a datetime claim has
    already been turned into whole seconds. *)
Definition jwt_encode (payload : dict) (key : pystr) : result pystr :=
  json_header <- str_encode (json_dumps (VDict jwt_header)) ;;
  json_payload <- str_encode (json_dumps (VDict payload)) ;;
  let signing_input :=
    base64url_encode json_header ++ 46 :: base64url_encode json_payload in
  k <- str_encode key ;;
  let signature := hmac_sha256 k signing_input in
  bytes_decode (signing_input ++ 46 :: base64url_encode signature).

(** [generate_token(user_id, username, role)]. *)
Definition generate_token (user_id : Z) (username role : pystr) : M pystr :=
  issued <<- utcnow ;;
  let payload := [(lit "user_id", VInt user_id);
                  (lit "username", VStr username);
                  (lit "role", VStr role);
                  (lit "exp", VInt (timegm (issued + hours 24)))] in
  key <<- (fun w => (Ok (JWT_SECRET w), w)) ;;
  lift (jwt_encode payload key).

(** [verify_token(token)]: the claims, or [None]. *)
Definition verify_token (token : pystr) : M (option dict) :=
  try_catch
    (try_catch
       (key <<- (fun w => (Ok (JWT_SECRET w), w)) ;;
        payload <<- jwt_decode token key [HS256] ;;
        ret (Some payload))
       is_ExpiredSignatureError (fun _ => ret None))
    is_InvalidTokenError (fun _ => ret None).

(** ** Statements on the tables *)

Definition of_opt (o : option pystr) : pyval :=
  match o with
  | Some s => VStr s
  | None => VNone
  end.

Definition of_sql (v : sqlval) : pyval :=
  match v with
  | SNull => VNone
  | SInt n => VInt n
  | SText s => VStr s
  end.

(** [SELECT * FROM usuarios WHERE username = ? AND activo = 1], first row. *)
Definition select_active_user (conn : database) (username : pyval)
  : result (option usuario) :=
  p <- bind_param username ;;
  Ok (find (fun u => sql_eq (SText (u_username u)) (text_affinity p)
                     && sql_eq (u_activo u) (SInt 1))
           (usuarios conn)).

(** [UPDATE usuarios SET ultimo_acceso = ? WHERE id = ?]. *)
Definition update_ultimo_acceso (conn : database) (fecha : pystr) (id : Z)
  : result database :=
  f <- bind_param (VStr fecha) ;;
  i <- bind_param (VInt id) ;;
  Ok (mkDatabase
        (map (fun u =>
                if sql_eq (SInt (u_id u)) (integer_affinity i) then
                  mkUsuario (u_id u) (u_username u) (u_password_hash u) (u_salt u)
                            (u_nombre_completo u) (u_email u) (u_role u)
                            (u_permisos u) (u_activo u) (u_fecha_creacion u)
                            (opt_text f) (u_creado_por u)
                else u)
             (usuarios conn))
        (sesiones conn) (logs_acceso conn)
        (seq_usuarios conn) (seq_sesiones conn) (seq_logs conn)).

(** [INSERT INTO sesiones (user_id, token, ip_address, user_agent,
    fecha_inicio, fecha_expiracion)]; [activa] takes its default, 1. *)
Definition insert_sesion (conn : database) (user_id : Z)
    (token : pystr) (ip_address user_agent : option pystr)
    (fecha_inicio fecha_expiracion : pystr) : result database :=
  _ <- bind_param (VInt user_id) ;;
  tk <- bind_param (VStr token) ;;
  ip <- bind_param (of_opt ip_address) ;;
  ua <- bind_param (of_opt user_agent) ;;
  fi <- bind_param (VStr fecha_inicio) ;;
  fe <- bind_param (VStr fecha_expiracion) ;;
  tk' <- req_text tk ;;
  fi' <- req_text fi ;;
  fe' <- req_text fe ;;
  let id := next_rowid (map s_id (sesiones conn)) (seq_sesiones conn) in
  Ok (mkDatabase
        (usuarios conn)
        (sesiones conn
         ++ [mkSesion id user_id tk' (opt_text ip) (opt_text ua) fi' fe' (SInt 1)])
        (logs_acceso conn)
        (seq_usuarios conn) id (seq_logs conn)).

(** [INSERT INTO logs_acceso (user_id, username, accion, ip_address, fecha,
    exitoso)]. *)
Definition insert_log (conn : database) (user_id : option Z) (username : pyval)
    (accion : pystr) (ip_address : option pystr) (fecha : pystr) (exitoso : Z)
  : result database :=
  uid <- bind_param (match user_id with Some i => VInt i | None => VNone end) ;;
  un <- bind_param username ;;
  ac <- bind_param (VStr accion) ;;
  ip <- bind_param (of_opt ip_address) ;;
  fe <- bind_param (VStr fecha) ;;
  ex <- bind_param (VInt exitoso) ;;
  ac' <- req_text ac ;;
  fe' <- req_text fe ;;
  let id := next_rowid (map l_id (logs_acceso conn)) (seq_logs conn) in
  Ok (mkDatabase
        (usuarios conn) (sesiones conn)
        (logs_acceso conn
         ++ [mkLog id (integer_affinity uid) (opt_text un) ac' (opt_text ip) fe'
                   (integer_affinity ex)])
        (seq_usuarios conn) (seq_sesiones conn) id).

(** [UPDATE sesiones SET activa = 0 WHERE token = ?]. *)
Definition deactivate_sesiones (conn : database) (token : pyval) : result database :=
  p <- bind_param token ;;
  Ok (mkDatabase
        (usuarios conn)
        (map (fun s =>
                if sql_eq (SText (s_token s)) (text_affinity p) then
                  mkSesion (s_id s) (s_user_id s) (s_token s) (s_ip_address s)
                           (s_user_agent s) (s_fecha_inicio s)
                           (s_fecha_expiracion s) (SInt 0)
                else s)
             (sesiones conn))
        (logs_acceso conn)
        (seq_usuarios conn) (seq_sesiones conn) (seq_logs conn)).

(** [INSERT INTO usuarios (username, password_hash, salt, nombre_completo,
    email, role, permisos, fecha_creacion, creado_por)]: the NOT NULL and
    UNIQUE constraints of the table apply; [activo] takes its default, 1. *)
Definition insert_usuario (conn : database)
    (username : pyval) (password_hash salt : pystr)
    (nombre_completo email role permisos : pyval) (fecha_creacion : pystr)
    (creado_por : pyval) : result (database * Z) :=
  un <- bind_param username ;;
  ph <- bind_param (VStr password_hash) ;;
  sa <- bind_param (VStr salt) ;;
  nc <- bind_param nombre_completo ;;
  em <- bind_param email ;;
  ro <- bind_param role ;;
  pe <- bind_param permisos ;;
  fc <- bind_param (VStr fecha_creacion) ;;
  cp <- bind_param creado_por ;;
  un' <- req_text un ;;
  ph' <- req_text ph ;;
  sa' <- req_text sa ;;
  nc' <- req_text nc ;;
  ro' <- req_text ro ;;
  pe' <- req_text pe ;;
  fc' <- req_text fc ;;
  if existsb (fun u => str_eqb (u_username u) un') (usuarios conn)
  then Raise sqlite3_IntegrityError
  else
    let id := next_rowid (map u_id (usuarios conn)) (seq_usuarios conn) in
    Ok (mkDatabase
          (usuarios conn
           ++ [mkUsuario id un' ph' sa' nc' (opt_text em) ro' pe' (SInt 1) fc'
                         None (integer_affinity cp)])
          (sesiones conn) (logs_acceso conn)
          id (seq_sesiones conn) (seq_logs conn),
        id).

(** The columns [update_user] may assign. *)
Inductive column : Type :=
| col_nombre_completo
| col_email
| col_role
| col_permisos
| col_activo
| col_password_hash
| col_salt.

(** One [col = ?] of a SET clause on a row. *)
Definition assign (u : usuario) (c : column) (v : sqlval) : result usuario :=
  match c with
  | col_nombre_completo =>
      x <- req_text v ;;
      Ok (mkUsuario (u_id u) (u_username u) (u_password_hash u) (u_salt u)
                    x (u_email u) (u_role u) (u_permisos u) (u_activo u)
                    (u_fecha_creacion u) (u_ultimo_acceso u) (u_creado_por u))
  | col_email =>
      Ok (mkUsuario (u_id u) (u_username u) (u_password_hash u) (u_salt u)
                    (u_nombre_completo u) (opt_text v) (u_role u) (u_permisos u)
                    (u_activo u) (u_fecha_creacion u) (u_ultimo_acceso u)
                    (u_creado_por u))
  | col_role =>
      x <- req_text v ;;
      Ok (mkUsuario (u_id u) (u_username u) (u_password_hash u) (u_salt u)
                    (u_nombre_completo u) (u_email u) x (u_permisos u) (u_activo u)
                    (u_fecha_creacion u) (u_ultimo_acceso u) (u_creado_por u))
  | col_permisos =>
      x <- req_text v ;;
      Ok (mkUsuario (u_id u) (u_username u) (u_password_hash u) (u_salt u)
                    (u_nombre_completo u) (u_email u) (u_role u) x (u_activo u)
                    (u_fecha_creacion u) (u_ultimo_acceso u) (u_creado_por u))
  | col_activo =>
      Ok (mkUsuario (u_id u) (u_username u) (u_password_hash u) (u_salt u)
                    (u_nombre_completo u) (u_email u) (u_role u) (u_permisos u)
                    (integer_affinity v) (u_fecha_creacion u) (u_ultimo_acceso u)
                    (u_creado_por u))
  | col_password_hash =>
      x <- req_text v ;;
      Ok (mkUsuario (u_id u) (u_username u) x (u_salt u)
                    (u_nombre_completo u) (u_email u) (u_role u) (u_permisos u)
                    (u_activo u) (u_fecha_creacion u) (u_ultimo_acceso u)
                    (u_creado_por u))
  | col_salt =>
      x <- req_text v ;;
      Ok (mkUsuario (u_id u) (u_username u) (u_password_hash u) x
                    (u_nombre_completo u) (u_email u) (u_role u) (u_permisos u)
                    (u_activo u) (u_fecha_creacion u) (u_ultimo_acceso u)
                    (u_creado_por u))
  end.

Fixpoint assign_all (u : usuario) (sets : list (column * sqlval)) : result usuario :=
  match sets with
  | [] => Ok u
  | (c, v) :: sets' => u' <- assign u c v ;; assign_all u' sets'
  end.

Fixpoint bind_all (params : list pyval) : result (list sqlval) :=
  match params with
  | [] => Ok []
  | p :: params' => v <- bind_param p ;; vs <- bind_all params' ;; Ok (v :: vs)
  end.

Fixpoint map_result {A B : Type} (f : A -> result B) (l : list A) : result (list B) :=
  match l with
  | [] => Ok []
  | a :: l' => b <- f a ;; bs <- map_result f l' ;; Ok (b :: bs)
  end.

(** [UPDATE usuarios SET <updates> WHERE id = ?], the parameters being the
    new values followed by the id. *)
Definition update_usuario (conn : database) (updates : list column)
    (params : list pyval) (user_id : Z) : result database :=
  vs <- bind_all (params ++ [VInt user_id]) ;;
  let i := last vs SNull in
  let sets := combine updates vs in
  us <- map_result
          (fun u => if sql_eq (SInt (u_id u)) (integer_affinity i)
                    then assign_all u sets else Ok u)
          (usuarios conn) ;;
  Ok (mkDatabase us (sesiones conn) (logs_acceso conn)
                 (seq_usuarios conn) (seq_sesiones conn) (seq_logs conn)).

Fixpoint str_ltb (a b : pystr) : bool :=
  match a, b with
  | _, [] => false
  | [], _ :: _ => true
  | x :: a', y :: b' => (x <? y) || ((x =? y) && str_ltb a' b')
  end.

(** [ORDER BY fecha_creacion DESC]; rows with the same date keep the order
    of the scan (SQL leaves it open). *)
Fixpoint insert_desc (u : usuario) (sorted : list usuario) : list usuario :=
  match sorted with
  | [] => [u]
  | v :: sorted' =>
      if str_ltb (u_fecha_creacion v) (u_fecha_creacion u) then u :: sorted
      else v :: insert_desc u sorted'
  end.

Definition order_by_fecha_creacion_desc (rows : list usuario) : list usuario :=
  fold_left (fun sorted u => insert_desc u sorted) rows [].

(** [dict(row)] for a row of
    [SELECT id, username, nombre_completo, email, role, permisos, activo,
            fecha_creacion, ultimo_acceso FROM usuarios]. *)
Definition user_listing_row (u : usuario) : pyval :=
  VDict [(lit "id", VInt (u_id u));
         (lit "username", VStr (u_username u));
         (lit "nombre_completo", VStr (u_nombre_completo u));
         (lit "email", of_opt (u_email u));
         (lit "role", VStr (u_role u));
         (lit "permisos", VStr (u_permisos u));
         (lit "activo", of_sql (u_activo u));
         (lit "fecha_creacion", VStr (u_fecha_creacion u));
         (lit "ultimo_acceso", of_opt (u_ultimo_acceso u))].

(** ** Requests and responses *)

Record request : Type := mkRequest {
  (** [request.json]: the decoded body, or what Flask raises for it. *)
  req_json : result pyval;
  (** [request.headers.get('Authorization')], [.get('User-Agent')]. *)
  req_authorization : option pystr;
  req_user_agent : option pystr;
  req_remote_addr : option pystr
}.

(** [jsonify(body), status]. *)
Definition response : Type := (pyval * Z)%type.

Definition failure (error : pystr) (status : Z) : response :=
  (VDict [(lit "success", VBool false); (lit "error", VStr error)], status).

Definition credenciales_incompletas : pystr := lit "Credenciales incompletas".
Definition error_interno : pystr := lit "Error interno del servidor".
Definition no_autorizado : pystr := lit "No autorizado".
Definition datos_incompletos : pystr := lit "Datos incompletos".
Definition el_usuario_ya_existe : pystr := lit "El usuario ya existe".
Definition no_eliminar_director : pystr := lit "No se puede eliminar al director".

(** The text 'Credenciales inv?lidas', where ? is the letter U+00E1. *)
Definition credenciales_invalidas : pystr :=
  lit "Credenciales inv" ++ [0xE1] ++ lit "lidas".

(** [str(e)] for the handlers that send the exception's text; the text
    itself is not modelled beyond the name of the class. *)
Definition str_of_exn (e : exn) : pystr :=
  match e with
  | UnicodeEncodeError => lit "UnicodeEncodeError"
  | UnicodeDecodeError => lit "UnicodeDecodeError"
  | AttributeError => lit "AttributeError"
  | TypeError => lit "TypeError"
  | ValueError => lit "ValueError"
  | KeyError => lit "KeyError"
  | OverflowError => lit "OverflowError"
  | binascii_Error => lit "binascii.Error"
  | sqlite3_ProgrammingError => lit "sqlite3.ProgrammingError"
  | sqlite3_IntegrityError => lit "sqlite3.IntegrityError"
  | jwt_DecodeError => lit "jwt.DecodeError"
  | jwt_InvalidSignatureError => lit "jwt.InvalidSignatureError"
  | jwt_ExpiredSignatureError => lit "jwt.ExpiredSignatureError"
  | jwt_ImmatureSignatureError => lit "jwt.ImmatureSignatureError"
  | jwt_InvalidAlgorithmError => lit "jwt.InvalidAlgorithmError"
  | jwt_InvalidAudienceError => lit "jwt.InvalidAudienceError"
  | jwt_InvalidIssuedAtError => lit "jwt.InvalidIssuedAtError"
  end.

(** ** Audit log *)

(** [log_access(user_id, username, accion, ip_address, exitoso)]: its own
    connection, and every error swallowed. *)
Definition log_access (user_id : option Z) (username : pyval) (accion : pystr)
    (ip_address : option pystr) (exitoso : bool) : M unit :=
  try_catch
    (conn <<- get_db ;;
     t <<- now ;;
     let fecha_actual := strftime t in
     conn <<- lift (insert_log conn user_id username accion ip_address
                               fecha_actual (if exitoso then 1 else 0)) ;;
     commit conn)
    is_Exception (fun _ => ret tt).

(** ** Authentication routes *)

(** POST /api/login. *)
Definition login (req : request) : M response :=
  try_catch
    (data <<- lift (req_json req) ;;
     username <<- lift (py_get data (lit "username")) ;;
     password <<- lift (py_get data (lit "password")) ;;
     if negb (truthy username) || negb (truthy password) then
       ret (failure credenciales_incompletas 400)
     else
       conn <<- get_db ;;
       user <<- lift (select_active_user conn username) ;;
       match user with
       | None =>
           log_access None username (lit "login_fallido") (req_remote_addr req) false ;;;
           ret (failure credenciales_invalidas 401)
       | Some user =>
           ok <<- verify_password password (u_password_hash user) (u_salt user) ;;
           if negb ok then
             log_access (Some (u_id user)) username (lit "login_fallido")
                        (req_remote_addr req) false ;;;
             ret (failure credenciales_invalidas 401)
           else
             token <<- generate_token (u_id user) (u_username user) (u_role user) ;;
             t <<- now ;;
             let fecha_actual := strftime t in
             conn <<- lift (update_ultimo_acceso conn fecha_actual (u_id user)) ;;
             t' <<- now ;;
             let fecha_expiracion := strftime (t' + hours 24) in
             conn <<- lift (insert_sesion conn (u_id user) token
                                          (req_remote_addr req) (req_user_agent req)
                                          fecha_actual fecha_expiracion) ;;
             commit conn ;;;
             log_access (Some (u_id user)) username (lit "login_exitoso")
                        (req_remote_addr req) true ;;;
             ret (VDict [(lit "success", VBool true);
                         (lit "token", VStr token);
                         (lit "user",
                          VDict [(lit "id", VInt (u_id user));
                                 (lit "username", VStr (u_username user));
                                 (lit "nombre_completo", VStr (u_nombre_completo user));
                                 (lit "role", VStr (u_role user));
                                 (lit "permisos", VStr (u_permisos user))])],
                  200)
       end)
    is_Exception (fun _ => ret (failure error_interno 500)).

(** POST /api/auth/logout. *)
Definition logout (req : request) : M response :=
  try_catch
    (data <<- lift (req_json req) ;;
     token <<- lift (py_get data (lit "token")) ;;
     (if truthy token then
        conn <<- get_db ;;
        conn <<- lift (deactivate_sesiones conn token) ;;
        commit conn
      else ret tt) ;;;
     ret (VDict [(lit "success", VBool true)], 200))
    is_Exception (fun _ => ret (failure error_interno 500)).

(** ** User management routes *)

(** The lines every /api/users handler starts with:
    [token = request.headers.get('Authorization', '').replace('Bearer ', '')],
    [payload = verify_token(token)], and the test
    [not payload or payload['role'] != 'director'].  The result is the
    claims of an authorized caller, [None] for the 403 answer. *)
Definition director_claims (req : request) : M (option dict) :=
  let token :=
    str_replace (match req_authorization req with Some h => h | None => [] end)
                (lit "Bearer ") [] in
  payload <<- verify_token token ;;
  match payload with
  | None | Some [] => ret None
  | Some p =>
      role <<- lift (py_item (VDict p) (lit "role")) ;;
      match role with
      | VStr r => if str_eqb r (lit "director") then ret (Some p) else ret None
      | _ => ret None
      end
  end.

(** GET /api/users. *)
Definition get_users (req : request) : M response :=
  try_catch
    (payload <<- director_claims req ;;
     match payload with
     | None => ret (failure no_autorizado 403)
     | Some _ =>
         conn <<- get_db ;;
         let users := map user_listing_row
                          (order_by_fecha_creacion_desc (usuarios conn)) in
         ret (VDict [(lit "success", VBool true); (lit "data", VList users)], 200)
     end)
    is_Exception (fun e => ret (failure (str_of_exn e) 500)).

(** POST /api/users. *)
Definition create_user (req : request) : M response :=
  try_catch
    (try_catch
       (payload <<- director_claims req ;;
        match payload with
        | None => ret (failure no_autorizado 403)
        | Some payload =>
            data <<- lift (req_json req) ;;
            username <<- lift (py_get data (lit "username")) ;;
            password <<- lift (py_get data (lit "password")) ;;
            nombre_completo <<- lift (py_get data (lit "nombre_completo")) ;;
            email <<- lift (py_get data (lit "email")) ;;
            role <<- lift (py_get data (lit "role")) ;;
            permisos <<- lift (py_get data (lit "permisos")) ;;
            if negb (forallb truthy [username; password; nombre_completo; role; permisos])
            then ret (failure datos_incompletos 400)
            else
              '(pwd_hash, salt) <<- hash_password password None ;;
              conn <<- get_db ;;
              t <<- now ;;
              let fecha_actual := strftime t in
              creado_por <<- lift (py_item (VDict payload) (lit "user_id")) ;;
              '(conn, user_id) <<- lift (insert_usuario conn username pwd_hash salt
                                           nombre_completo email role permisos
                                           fecha_actual creado_por) ;;
              commit conn ;;;
              ret (VDict [(lit "success", VBool true); (lit "id", VInt user_id)], 200)
        end)
       (fun e => match e with sqlite3_IntegrityError => true | _ => false end)
       (fun _ => ret (failure el_usuario_ya_existe 400)))
    is_Exception (fun e => ret (failure (str_of_exn e) 500)).

(** One [if 'col' in data: updates.append('col = ?'); params.append(data['col'])]. *)
Definition collect (data : pyval) (key : pystr) (c : column)
    (acc : list column * list pyval) : result (list column * list pyval) :=
  present <- py_in key data ;;
  if present then
    v <- py_item data key ;;
    Ok (fst acc ++ [c], snd acc ++ [v])
  else Ok acc.

(** PUT /api/users/<int:user_id>. *)
Definition update_user (user_id : Z) (req : request) : M response :=
  try_catch
    (payload <<- director_claims req ;;
     match payload with
     | None => ret (failure no_autorizado 403)
     | Some _ =>
         data <<- lift (req_json req) ;;
         conn <<- get_db ;;
         acc <<- lift (collect data (lit "nombre_completo") col_nombre_completo ([], [])) ;;
         acc <<- lift (collect data (lit "email") col_email acc) ;;
         acc <<- lift (collect data (lit "role") col_role acc) ;;
         acc <<- lift (collect data (lit "permisos") col_permisos acc) ;;
         acc <<- lift (collect data (lit "activo") col_activo acc) ;;
         has_password <<- lift (py_in (lit "password") data) ;;
         acc <<- (if has_password then
                    password <<- lift (py_item data (lit "password")) ;;
                    '(pwd_hash, salt) <<- hash_password password None ;;
                    ret (fst acc ++ [col_password_hash; col_salt],
                         snd acc ++ [VStr pwd_hash; VStr salt])
                  else ret acc) ;;
         (match fst acc with
          | [] => ret tt
          | _ =>
              conn <<- lift (update_usuario conn (fst acc) (snd acc) user_id) ;;
              commit conn
          end) ;;;
         ret (VDict [(lit "success", VBool true)], 200)
     end)
    is_Exception (fun e => ret (failure (str_of_exn e) 500)).

(** [UPDATE usuarios SET activo = 0 WHERE id = ?]. *)
Definition deactivate_usuario (conn : database) (user_id : Z) : result database :=
  update_usuario conn [col_activo] [VInt 0] user_id.

(** DELETE /api/users/<int:user_id>. *)
Definition delete_user (user_id : Z) (req : request) : M response :=
  try_catch
    (payload <<- director_claims req ;;
     match payload with
     | None => ret (failure no_autorizado 403)
     | Some _ =>
         if user_id =? 1 then ret (failure no_eliminar_director 400)
         else
           conn <<- get_db ;;
           conn <<- lift (deactivate_usuario conn user_id) ;;
           commit conn ;;;
           ret (VDict [(lit "success", VBool true)], 200)
     end)
    is_Exception (fun e => ret (failure (str_of_exn e) 500)).

(** ** Start-up *)

(** One seed account of [init_db]: inserted when no row has the username. *)
Definition seed (conn : database) (username password nombre_completo email
    role permisos fecha_actual : pystr) : M database :=
  if existsb (fun u => str_eqb (u_username u) username) (usuarios conn) then ret conn
  else
    '(pwd_hash, salt) <<- hash_password (VStr password) None ;;
    '(conn, _) <<- lift (insert_usuario conn (VStr username) pwd_hash salt
                           (VStr nombre_completo) (VStr email) (VStr role)
                           (VStr permisos) fecha_actual VNone) ;;
    ret conn.

(** [init_db()]: the tables exist from the start in this model; the two
    accounts are seeded. *)
Definition init_db : M unit :=
  conn <<- get_db ;;
  t <<- now ;;
  let fecha_actual := strftime t in
  conn <<- seed conn (lit "DirectorEjecutivoAndres") (lit "Hidalgoajhb41")
                (lit "Andr" ++ [0xE9] ++ lit "s Hidalgo - Director Ejecutivo")
                (lit "andres@ajhb.com") (lit "director") (lit "all") fecha_actual ;;
  conn <<- seed conn (lit "Secretariosajhb1a") (lit "Secretosajhb42")
                (lit "Secretario General") (lit "secretario@ajhb.com")
                (lit "secretario") (lit "ventas,secretarios") fecha_actual ;;
  commit conn.

(** ** POST or GET /api/verify *)

(** [s.split(sep)] for a separator of one character. *)
Fixpoint str_split (sep : Z) (s : pystr) : list pystr :=
  match s with
  | [] => [[]]
  | c :: r =>
      if c =? sep then [] :: str_split sep r
      else match str_split sep r with
           | field :: fields => (c :: field) :: fields
           | [] => [[c]]
           end
  end.

Definition token_no_proporcionado : pystr := lit "Token no proporcionado".

(** The text 'Token inv?lido o expirado', where ? is the letter U+00E1. *)
Definition token_invalido_o_expirado : pystr :=
  lit "Token inv" ++ [0xE1] ++ lit "lido o expirado".

Definition invalid (error : pystr) (status : Z) : response :=
  (VDict [(lit "valid", VBool false); (lit "error", VStr error)], status).

(** [verify_token(token)] on whatever the request gave as a token: PyJWT
    answers a token that is neither [str] nor [bytes] with a [DecodeError],
    which [verify_token] turns into [None]. *)
Definition verify_token_value (token : pyval) : M (option dict) :=
  match token with
  | VStr t => verify_token t
  | _ => ret None
  end.

(** The handler.  The token is item 1 of [auth_header.split(' ')] when the
    header starts with 'Bearer ' (the list then has two items at least),
    and the [token] of a JSON body that is not empty otherwise. *)
Definition verify (req : request) : M response :=
  try_catch
    (token <<- (match req_authorization req with
                | Some ((_ :: _) as auth_header) =>
                    if starts_with (lit "Bearer ") auth_header
                    then ret (VStr (nth 1 (str_split 32 auth_header) []))
                    else
                      data <<- lift (req_json req) ;;
                      if truthy data then lift (py_get data (lit "token"))
                      else ret VNone
                | _ =>
                    data <<- lift (req_json req) ;;
                    if truthy data then lift (py_get data (lit "token"))
                    else ret VNone
                end) ;;
     if negb (truthy token) then ret (invalid token_no_proporcionado 400)
     else
       payload <<- verify_token_value token ;;
       match payload with
       | None | Some [] => ret (invalid token_invalido_o_expirado 401)
       | Some p => ret (VDict [(lit "valid", VBool true); (lit "user", VDict p)], 200)
       end)
    is_Exception (fun _ => ret (invalid error_interno 500)).

(** ** AES-256 (FIPS 197), the block cipher behind [algorithms.AES(AES_KEY)] *)

Module AES.

(** Multiplication by x in GF(2^8), modulo x^8 + x^4 + x^3 + x + 1. *)
Definition xtime (x : Z) : Z :=
  if x <? 128 then 2 * x else Z.lxor (2 * x - 256) 0x1B.

Fixpoint gmul_bits (n : nat) (a b : Z) : Z :=
  match n with
  | O => 0
  | S n' => Z.lxor (if Z.odd a then b else 0) (gmul_bits n' (a / 2) (xtime b))
  end.

Definition gmul (a b : Z) : Z := gmul_bits 8 a b.

Definition all_bytes : list Z := map Z.of_nat (seq 0 256).

(** The multiplicative inverse, 0 for 0. *)
Definition ginv (x : Z) : Z :=
  match find (fun y => gmul x y =? 1) all_bytes with
  | Some y => y
  | None => 0
  end.

Definition rotl8 (x n : Z) : Z :=
  Z.land (Z.lor (Z.shiftl x n) (Z.shiftr x (8 - n))) 0xFF.

Definition affine (b : Z) : Z :=
  Z.lxor (Z.lxor (Z.lxor b (rotl8 b 1)) (Z.lxor (rotl8 b 2) (rotl8 b 3)))
         (Z.lxor (rotl8 b 4) 0x63).

Definition sbox_table : list Z :=
  Eval vm_compute in map (fun x => affine (ginv x)) all_bytes.

Definition position (y : Z) (l : list Z) : Z :=
  (fix go (l : list Z) (i : Z) : Z :=
     match l with
     | [] => 0
     | x :: l' => if x =? y then i else go l' (i + 1)
     end) l 0.

Definition inv_sbox_table : list Z :=
  Eval vm_compute in map (fun y => position y sbox_table) all_bytes.

Definition sub_byte (x : Z) : Z := nth (Z.to_nat x) sbox_table 0.
Definition inv_sub_byte (x : Z) : Z := nth (Z.to_nat x) inv_sbox_table 0.

(** The state is the block itself: byte [r + 4 c] is row [r], column [c]. *)
Definition sub_bytes (s : bytes) : bytes := map sub_byte s.
Definition inv_sub_bytes (s : bytes) : bytes := map inv_sub_byte s.

Definition shift_rows (s : bytes) : bytes :=
  match s with
  | [s0; s1; s2; s3; s4; s5; s6; s7; s8; s9; s10; s11; s12; s13; s14; s15] =>
      [s0; s5; s10; s15; s4; s9; s14; s3; s8; s13; s2; s7; s12; s1; s6; s11]
  | _ => s
  end.

Definition inv_shift_rows (s : bytes) : bytes :=
  match s with
  | [s0; s1; s2; s3; s4; s5; s6; s7; s8; s9; s10; s11; s12; s13; s14; s15] =>
      [s0; s13; s10; s7; s4; s1; s14; s11; s8; s5; s2; s15; s12; s9; s6; s3]
  | _ => s
  end.

Definition xor3 (a b c d : Z) : Z := Z.lxor (Z.lxor a b) (Z.lxor c d).

Definition mix_column (a b c d : Z) : bytes :=
  [xor3 (gmul 2 a) (gmul 3 b) c d;
   xor3 a (gmul 2 b) (gmul 3 c) d;
   xor3 a b (gmul 2 c) (gmul 3 d);
   xor3 (gmul 3 a) b c (gmul 2 d)].

Definition inv_mix_column (a b c d : Z) : bytes :=
  [xor3 (gmul 14 a) (gmul 11 b) (gmul 13 c) (gmul 9 d);
   xor3 (gmul 9 a) (gmul 14 b) (gmul 11 c) (gmul 13 d);
   xor3 (gmul 13 a) (gmul 9 b) (gmul 14 c) (gmul 11 d);
   xor3 (gmul 11 a) (gmul 13 b) (gmul 9 c) (gmul 14 d)].

Fixpoint columns (f : Z -> Z -> Z -> Z -> bytes) (s : bytes) : bytes :=
  match s with
  | a :: b :: c :: d :: r => f a b c d ++ columns f r
  | _ => s
  end.

Definition mix_columns (s : bytes) : bytes := columns mix_column s.
Definition inv_mix_columns (s : bytes) : bytes := columns inv_mix_column s.

Definition add_round_key (s k : bytes) : bytes := xor_bytes s k.

(** Key expansion for a key of eight words: sixty words, newest first in
    [w]; [i] is the index of the word being made. *)
Definition rcon : list Z := [0x01; 0x02; 0x04; 0x08; 0x10; 0x20; 0x40].

Definition sub_word (w : bytes) : bytes := map sub_byte w.

Definition rot_word (w : bytes) : bytes :=
  match w with
  | a :: r => r ++ [a]
  | [] => []
  end.

Fixpoint expand (n : nat) (i : Z) (w : list bytes) : list bytes :=
  match n with
  | O => w
  | S n' =>
      let prev := nth 0 w [] in
      let temp :=
        if i mod 8 =? 0 then
          xor_bytes (sub_word (rot_word prev))
                    [nth (Z.to_nat (i / 8 - 1)) rcon 0; 0; 0; 0]
        else if i mod 8 =? 4 then sub_word prev
        else prev in
      expand n' (i + 1) (xor_bytes (nth 7 w []) temp :: w)
  end.

Fixpoint group4 (w : list bytes) : list bytes :=
  match w with
  | a :: b :: c :: d :: r => (a ++ b ++ c ++ d) :: group4 r
  | _ => []
  end.

Definition key_words (key : bytes) : list bytes :=
  (fix go (n : nat) (k : bytes) : list bytes :=
     match n with
     | O => []
     | S n' => firstn 4 k :: go n' (skipn 4 k)
     end) 8%nat key.

(** The fifteen round keys. *)
Definition round_keys (key : bytes) : list bytes :=
  group4 (rev (expand 52 8 (rev (key_words key)))).

Definition encrypt_round (s k : bytes) : bytes :=
  add_round_key (mix_columns (shift_rows (sub_bytes s))) k.

Definition decrypt_round (s k : bytes) : bytes :=
  inv_mix_columns (add_round_key (inv_sub_bytes (inv_shift_rows s)) k).

(** The cipher on the round keys [k0 :: middle ++ [klast]]. *)
Definition encrypt_with (ks : list bytes) (block : bytes) : bytes :=
  match ks with
  | [] => block
  | k0 :: rest =>
      let s := fold_left encrypt_round (removelast rest) (add_round_key block k0) in
      add_round_key (shift_rows (sub_bytes s)) (last rest [])
  end.

Definition decrypt_with (ks : list bytes) (block : bytes) : bytes :=
  match ks with
  | [] => block
  | k0 :: rest =>
      let s := fold_left decrypt_round (rev (removelast rest))
                         (add_round_key block (last rest [])) in
      add_round_key (inv_sub_bytes (inv_shift_rows s)) k0
  end.

Definition encrypt_block (key block : bytes) : bytes :=
  encrypt_with (round_keys key) block.

Definition decrypt_block (key block : bytes) : bytes :=
  decrypt_with (round_keys key) block.

End AES.

(** ** CBC mode and PKCS#7 padding ([modes.CBC], [padding.PKCS7(128)]) *)

Fixpoint cbc_encrypt_go (n : nat) (key prev data : bytes) : bytes :=
  match n with
  | O => []
  | S n' =>
      let c := AES.encrypt_block key (xor_bytes (firstn 16 data) prev) in
      c ++ cbc_encrypt_go n' key c (skipn 16 data)
  end.

Definition cbc_encrypt (key iv data : bytes) : bytes :=
  cbc_encrypt_go (length data / 16) key iv data.

Fixpoint cbc_decrypt_go (n : nat) (key prev data : bytes) : bytes :=
  match n with
  | O => []
  | S n' =>
      let c := firstn 16 data in
      xor_bytes (AES.decrypt_block key c) prev
      ++ cbc_decrypt_go n' key c (skipn 16 data)
  end.

Definition cbc_decrypt (key iv data : bytes) : bytes :=
  cbc_decrypt_go (length data / 16) key iv data.

(** [Cipher(algorithms.AES(key), modes.CBC(iv))]: the key of this module has
    256 bits (the two shorter sizes the library also takes select another
    cipher and are outside the model); the IV is one block. *)
Definition cipher_aes_cbc (key iv : bytes) : result unit :=
  if negb (length key =? 32)%nat then Raise ValueError
  else if negb (length iv =? 16)%nat then Raise ValueError
  else Ok tt.

Definition pkcs7_pad (data : bytes) : bytes :=
  let n := 16 - Z.of_nat (length data) mod 16 in
  data ++ repeat n (Z.to_nat n).

(** The unpadder: a whole number of blocks, at least one, ending with [n]
    bytes of value [n], [n] between 1 and 16. *)
Definition pkcs7_unpad (data : bytes) : result bytes :=
  let len := Z.of_nat (length data) in
  let n := last data 0 in
  if (len =? 0) || negb (len mod 16 =? 0) then Raise ValueError
  else if negb ((1 <=? n) && (n <=? 16)) then Raise ValueError
  else if forallb (Z.eqb n) (skipn (length data - Z.to_nat n) data)
  then Ok (firstn (length data - Z.to_nat n) data)
  else Raise ValueError.

(** ** Symmetric cipher helper *)

(** [encrypt_data(data)]. *)
Definition encrypt_data (data : pystr) : M pystr :=
  try_catch
    (iv <<- token_bytes 16 ;;
     key <<- (fun w => (Ok (AES_KEY w), w)) ;;
     _ <<- lift (cipher_aes_cbc key iv) ;;
     d <<- lift (str_encode data) ;;
     let padded_data := pkcs7_pad d in
     let encrypted := cbc_encrypt key iv padded_data in
     lift (bytes_decode (b64encode (iv ++ encrypted))))
    is_Exception (fun e => raise e).

(** [decrypt_data(encrypted_data)]. *)
Definition decrypt_data (encrypted_data : pystr) : M pystr :=
  try_catch
    (encrypted_bytes <<- lift (b64decode encrypted_data) ;;
     let iv := firstn 16 encrypted_bytes in
     let encrypted := skipn 16 encrypted_bytes in
     key <<- (fun w => (Ok (AES_KEY w), w)) ;;
     _ <<- lift (cipher_aes_cbc key iv) ;;
     _ <<- lift (if Z.of_nat (length encrypted) mod 16 =? 0 then Ok tt
                 else Raise ValueError) ;;
     let decrypted_padded := cbc_decrypt key iv encrypted in
     decrypted <<- lift (pkcs7_unpad decrypted_padded) ;;
     lift (bytes_decode decrypted))
    is_Exception (fun e => raise e).

(** * Vocabulary of the properties *)

(** ** Frames of the process *)

(** What a computation leaves of the process: [stable m] keeps the
    committed database and the keys. *)
Definition same_store (w w' : world) : Prop :=
  w_db w' = w_db w /\ JWT_SECRET w' = JWT_SECRET w /\ AES_KEY w' = AES_KEY w
  /\ w_clock w' = w_clock w /\ w_utcoffset w' = w_utcoffset w.

Definition stable {A : Type} (m : M A) : Prop :=
  forall w, same_store w (snd (m w)).

(** ** Text and byte strings *)

(** ASCII text is its own encoding. *)
Definition is_ascii (s : pystr) : bool := forallb (fun c => (0 <=? c) && (c <? 128)) s.

Definition sextets : list Z := map Z.of_nat (seq 0 64).

Definition sextet_ok (v : Z) : bool :=
  let c := b64_char v in
  match b64_value c with
  | Some v' =>
      (v' =? v) && negb (c =? 61) && (0 <=? c) && (c <? 128)
      && negb (urlsafe_of_std c =? 61) && negb (urlsafe_of_std c =? 46)
      && (std_of_urlsafe (urlsafe_of_std c) =? c)
      && (0 <=? urlsafe_of_std c) && (urlsafe_of_std c <? 128)
  | None => false
  end.

Definition all_bytes (b : bytes) : Prop := Forall (fun x => 0 <= x < 256) b.

(** ** Processes and requests to run the handlers on *)

(** A database as [init_db] leaves it, with text in place of the two
    derived password hashes. *)
Definition seeded_db : database :=
  mkDatabase
    [mkUsuario 1 (lit "DirectorEjecutivoAndres") (lit "aGFzaDE=") (lit "00ff")
               (lit "Director Ejecutivo") (Some (lit "andres@ajhb.com"))
               (lit "director") (lit "all") (SInt 1)
               (lit "2024-01-01 09:00:00") None SNull;
     mkUsuario 2 (lit "Secretariosajhb1a") (lit "aGFzaDI=") (lit "11ee")
               (lit "Secretario General") (Some (lit "secretario@ajhb.com"))
               (lit "secretario") (lit "ventas,secretarios") (SInt 1)
               (lit "2024-01-01 09:00:00") None SNull]
    [] [] 2 0 0.

(** The clock reads 2024-01-01 09:59:59.999900 UTC, then 150 microseconds
    more at each of the next readings; local time is UTC. *)
Definition seeded_world : world :=
  mkWorld seeded_db
          (lit "5b1e0c9f42a7d3886e0f9a1b2c3d4e5f60718293a4b5c6d7e8f9011223344556")
          (hex "000102030405060708090a0b0c0d0e0f101112131415161718191a1b1c1d1e1f")
          (fun n => nth n [1704103199999900; 1704103200000050; 1704103200000200;
                           1704103200000350; 1704103200000500] 1704103200000650)
          O
          (fun _ => 0)
          (fun n => nth n [7; 20; 33; 46; 59; 72; 85; 98] 111)
          O.

(** The director's token, as [generate_token] issues it in that process. *)
Definition director_token : pystr :=
  Eval vm_compute in
  match fst (generate_token 1 (lit "DirectorEjecutivoAndres") (lit "director")
                            seeded_world) with
  | Ok t => t
  | Raise _ => []
  end.

Definition with_bearer (token : pystr) (body : result pyval) : request :=
  mkRequest body (Some (lit "Bearer " ++ token)) (Some (lit "curl/8.5.0"))
            (Some (lit "127.0.0.1")).

Definition set_activo (u : usuario) (v : sqlval) : usuario :=
  mkUsuario (u_id u) (u_username u) (u_password_hash u) (u_salt u)
            (u_nombre_completo u) (u_email u) (u_role u) (u_permisos u)
            v (u_fecha_creacion u) (u_ultimo_acceso u) (u_creado_por u).

Definition int64 (n : Z) : bool := (- 2 ^ 63 <=? n) && (n <? 2 ^ 63).

Definition deactivate_director_request : request :=
  with_bearer director_token (Ok (VDict [(lit "activo", VInt 0)])).

Definition set_activa (s : sesion) (v : sqlval) : sesion :=
  mkSesion (s_id s) (s_user_id s) (s_token s) (s_ip_address s) (s_user_agent s)
           (s_fecha_inicio s) (s_fecha_expiracion s) v.

Definition deactivated (token : pystr) (d : database) : database :=
  mkDatabase (usuarios d)
             (map (fun s => if str_eqb (s_token s) token
                            then set_activa s (SInt 0) else s) (sesiones d))
             (logs_acceso d) (seq_usuarios d) (seq_sesiones d) (seq_logs d).

Definition logout_request (token : pyval) : request :=
  mkRequest (Ok (VDict [(lit "token", token)])) None (Some (lit "curl/8.5.0"))
            (Some (lit "127.0.0.1")).

(** A process with one open session, for the token ["abc.def.ghi"]. *)
Definition world_with_session : world :=
  set_db seeded_world
         (mkDatabase (usuarios seeded_db)
                     [mkSesion 1 1 (lit "abc.def.ghi") (Some (lit "127.0.0.1")) None
                               (lit "2024-01-01 09:30:00") (lit "2024-01-02 09:30:00")
                               (SInt 1)]
                     [] 2 1 0).

Definition login_request (username : pystr) (password : pyval) : request :=
  mkRequest (Ok (VDict [(lit "username", VStr username); (lit "password", password)]))
            None (Some (lit "curl/8.5.0")) (Some (lit "127.0.0.1")).

(** The process after the director has been deactivated through PUT. *)
Definition world_without_director : world :=
  Eval vm_compute in snd (update_user 1 deactivate_director_request seeded_world).

Definition director_row : usuario :=
  Eval vm_compute in nth 0 (usuarios (w_db world_without_director))
                         (mkUsuario 0 [] [] [] [] None [] [] SNull [] None SNull).

(** ** Derived keys *)

(** The key PBKDF2 derives for a password and a salt. *)
Definition derived_key (password salt : pystr) : result bytes :=
  p <- str_encode password ;;
  s <- str_encode salt ;;
  Ok (pbkdf2_hmac_sha256 p s 100000).

(** ** Unpadded base64 *)

Definition url_char (v : Z) : Z := urlsafe_of_std (b64_char v).

(** The number of characters of the last, incomplete group. *)
Fixpoint url_rem (b : bytes) : Z :=
  match b with
  | [] => 0
  | [_] => 2
  | [_; _] => 3
  | _ :: _ :: _ :: r => url_rem r
  end.

Definition no_dot (b : bytes) : Prop := Forall (fun c => c <> 46) b.

(** ** JSON text of a token *)

Definition ends_number (c : Z) : Prop := c = 44 \/ c = 125.

(** The claims [generate_token] signs. *)
Definition token_claims (user_id : Z) (username role : pystr) (exp : Z) : dict :=
  [(lit "user_id", VInt user_id); (lit "username", VStr username);
   (lit "role", VStr role); (lit "exp", VInt exp)].

Definition claims_text (user_id : Z) (username role : pystr) (exp : Z) : pystr :=
  123 :: 34 :: flat_map json_escape_cp (lit "user_id") ++ 34 :: 58
  :: decimal user_id ++ 44 :: 34
  :: flat_map json_escape_cp (lit "username") ++ 34 :: 58
  :: 34 :: flat_map json_escape_cp username ++ 34 :: 44 :: 34
  :: flat_map json_escape_cp (lit "role") ++ 34 :: 58
  :: 34 :: flat_map json_escape_cp role ++ 34 :: 44 :: 34
  :: flat_map json_escape_cp (lit "exp") ++ 34 :: 58
  :: decimal exp ++ [125].

(** ** Tokens *)

(** The world after one reading of the clock. *)
Definition tick (w : world) : world := snd (utcnow w).

(** The text [jwt.encode] signs and the token it returns, for the key
    bytes [k]. *)
Definition header_text : bytes := json_dumps (VDict jwt_header).

Definition signing_input (payload : dict) : bytes :=
  base64url_encode header_text ++ 46 :: base64url_encode (json_dumps (VDict payload)).

Definition signed_token (payload : dict) (k : bytes) : pystr :=
  signing_input payload
  ++ 46 :: base64url_encode (hmac_sha256 k (signing_input payload)).


(** ** Sessions *)

(** What [login] does once the password has been verified: the token, the
    two dates, the session row, the audit line and the answer. *)
Definition open_session (req : request) (conn : database) (username : pyval)
    (user : usuario) : M response :=
  token <<- generate_token (u_id user) (u_username user) (u_role user) ;;
  t <<- now ;;
  let fecha_actual := strftime t in
  conn <<- lift (update_ultimo_acceso conn fecha_actual (u_id user)) ;;
  t' <<- now ;;
  let fecha_expiracion := strftime (t' + hours 24) in
  conn <<- lift (insert_sesion conn (u_id user) token
                               (req_remote_addr req) (req_user_agent req)
                               fecha_actual fecha_expiracion) ;;
  commit conn ;;;
  log_access (Some (u_id user)) username (lit "login_exitoso")
             (req_remote_addr req) true ;;;
  ret (VDict [(lit "success", VBool true);
              (lit "token", VStr token);
              (lit "user",
               VDict [(lit "id", VInt (u_id user));
                      (lit "username", VStr (u_username user));
                      (lit "nombre_completo", VStr (u_nombre_completo user));
                      (lit "role", VStr (u_role user));
                      (lit "permisos", VStr (u_permisos user))])],
       200).

(** The seeded process a little earlier, with the director's password hash
    [h]: the clock reads 09:59:59.999750, then 150 microseconds more at
    each of the next readings. *)
Definition director_with (h : pystr) : usuario :=
  mkUsuario 1 (lit "DirectorEjecutivoAndres") h (lit "00ff")
            (lit "Director Ejecutivo") (Some (lit "andres@ajhb.com"))
            (lit "director") (lit "all") (SInt 1)
            (lit "2024-01-01 09:00:00") None SNull.

Definition world_at_turn_of_second (h : pystr) : world :=
  mkWorld (mkDatabase [director_with h] [] [] 1 0 0)
          (JWT_SECRET seeded_world) (AES_KEY seeded_world)
          (fun n => nth n [1704103199999750; 1704103199999900; 1704103200000050;
                           1704103200000200; 1704103200000350] 1704103200000500)
          O
          (fun _ => 0)
          (w_entropy seeded_world)
          O.

(** The hash [init_db] stores for the director's password, had it drawn
    the salt 00ff. *)
Definition director_hash : pystr :=
  b64encode (pbkdf2_hmac_sha256 (lit "Hidalgoajhb41") (lit "00ff") 100000).

Definition director_login : request :=
  login_request (lit "DirectorEjecutivoAndres") (VStr (lit "Hidalgoajhb41")).

(** ** The block cipher *)

(** A column through MixColumns and back. *)
Definition mixed_back (a b c d : Z) : bytes :=
  match AES.mix_column a b c d with
  | [m0; m1; m2; m3] => AES.inv_mix_column m0 m1 m2 m3
  | _ => []
  end.

(** A block: sixteen bytes.  A word: four. *)
Definition is_block (s : bytes) : Prop := length s = 16%nat /\ all_bytes s.
Definition is_word (s : bytes) : Prop := length s = 4%nat /\ all_bytes s.

(** SubBytes then ShiftRows, the first half of a round, and back. *)
Definition half_round (s : bytes) : bytes := AES.shift_rows (AES.sub_bytes s).

(** ** Requests of the routes *)

(** [request.headers.get('Authorization', '').replace('Bearer ', '')]. *)
Definition bearer_token (req : request) : pystr :=
  str_replace (match req_authorization req with Some h => h | None => [] end)
              (lit "Bearer ") [].

(** Rows in the order of [ORDER BY fecha_creacion DESC]: no row is followed
    by one with a later date. *)
Definition newest_first (u v : usuario) : Prop :=
  str_ltb (u_fecha_creacion u) (u_fecha_creacion v) = false.

(** The check every /api/users route starts with passes: the request
    carries a token that verifies, with the role 'director'. *)
Definition authorized (req : request) (w : world) : Prop :=
  exists claims, director_claims req w = (Ok (Some claims), tick w).

(** A computation that never looks at the database: started on another
    database it gives the same result and leaves that database alone. *)
Definition db_blind {A : Type} (m : M A) : Prop :=
  forall (w : world) (d : database),
    m (set_db w d) = (fst (m w), set_db (snd (m w)) d).

(** The columns of a row that no route assigns after the row is created. *)
Definition identity (u : usuario) : Z * pystr * pystr * sqlval :=
  (u_id u, u_username u, u_fecha_creacion u, u_creado_por u).


(** ** Fresh salts *)

(** The process after [n] random bytes have been drawn, and the salt
    [secrets.token_hex(32)] makes of the next 32. *)
Definition drawn (n : nat) (w : world) : world := snd (token_bytes n w).




(** ** Dates *)

(** What [datetime.now()] reads next, and the instants [datetime] can hold
    from 1970 on: up to the end of the year 9999. *)
Definition local_time (w : world) : Z :=
  w_clock w (w_ticks w) + w_utcoffset w (w_clock w (w_ticks w)).

Definition datetime_range (t : Z) : Prop := 0 <= t < 253402300800 * second.

(** ** Requests to create an account *)



(** A string field that is given: not empty, and text UTF-8 can encode. *)
Definition given (s : pystr) : Prop := is_text s = true /\ s <> [].


(** The id SQLite gives the next row of [usuarios]. *)
Definition next_user_id (d : database) : Z :=
  next_rowid (map u_id (usuarios d)) (seq_usuarios d).

(** ** Logging in *)

Definition set_ultimo_acceso (u : usuario) (fecha : pystr) : usuario :=
  mkUsuario (u_id u) (u_username u) (u_password_hash u) (u_salt u)
            (u_nombre_completo u) (u_email u) (u_role u) (u_permisos u)
            (u_activo u) (u_fecha_creacion u) (Some fecha) (u_creado_por u).

Definition opt_is_text (o : option pystr) : bool :=
  match o with
  | Some s => is_text s
  | None => true
  end.

(** What a login of the account [u] relies on besides the credentials: the
    usernames of the table are distinct, the role, the secret, the client's
    address and its User-Agent are text UTF-8 can encode, the id fits 64
    bits, and the two dates the handler formats are dates [datetime] can
    hold. *)
Definition login_ready (req : request) (w : world) (u : usuario) : Prop :=
  NoDup (map u_username (usuarios (w_db w)))
  /\ is_text (u_role u) = true
  /\ is_text (JWT_SECRET w) = true
  /\ int64 (u_id u) = true
  /\ opt_is_text (req_remote_addr req) = true
  /\ opt_is_text (req_user_agent req) = true
  /\ datetime_range (local_time (tick w))
  /\ datetime_range (local_time (tick (tick w)) + hours 24).

(** The id SQLite gives the next row of [sesiones]. *)
Definition next_session_id (d : database) : Z :=
  next_rowid (map s_id (sesiones d)) (seq_sesiones d).

(** ** The accounts of [init_db] *)

Definition director_username : pystr := lit "DirectorEjecutivoAndres".
Definition secretario_username : pystr := lit "Secretariosajhb1a".



Definition has_username (d : database) (username : pystr) : Prop :=
  exists u, In u (usuarios d) /\ u_username u = username.

(** ** The cipher helper *)

(** The IV [secrets.token_bytes(16)] draws next. *)
Definition fresh_iv (w : world) : bytes :=
  map (fun i => w_entropy w (w_drawn w + i)%nat mod 256) (seq 0 16).
(** * Properties *)

(** Arithmetic stays folded when a goal is simplified; [lia] decides it. *)
#[local] Arguments Z.add : simpl never.
#[local] Arguments Z.sub : simpl never.
#[local] Arguments Z.mul : simpl never.
#[local] Arguments Z.div : simpl never.
#[local] Arguments Z.modulo : simpl never.
#[local] Arguments Z.opp : simpl never.
#[local] Arguments Z.pow : simpl never.

(** ** Strings *)

Lemma str_eqb_eq (a b : pystr) : str_eqb a b = true <-> a = b.
Proof.
  revert b. induction a as [|x a IH]; intros [|y b]; simpl; split;
    try congruence; intro H.
  - apply andb_true_iff in H. destruct H as [H1 H2].
    apply Z.eqb_eq in H1. apply IH in H2. congruence.
  - inversion H; subst. rewrite Z.eqb_refl. simpl. now apply IH.
Qed.

Lemma str_eqb_refl (a : pystr) : str_eqb a a = true.
Proof. now apply str_eqb_eq. Qed.

(** ** Test vectors for the hash functions *)

Example sha256_abc :
  SHA256.digest (lit "abc")
  = hex "ba7816bf8f01cfea414140de5dae2223b00361a396177a9cb410ff61f20015ad".
Proof. vm_compute. reflexivity. Qed.

Example sha256_empty :
  SHA256.digest []
  = hex "e3b0c44298fc1c149afbf4c8996fb92427ae41e4649b934ca495991b7852b855".
Proof. vm_compute. reflexivity. Qed.

Example pbkdf2_one_iteration :
  pbkdf2_hmac_sha256 (lit "a") (lit "s") 1
  = hex "4f5b39c97eaa4ecb0904d5f9ad05f7c02fc72ffc386f1bdd3c6f53d19944e258".
Proof. vm_compute. reflexivity. Qed.

(** FIPS 197, appendix C.3, and an HMAC of RFC 4231 (test case 2). *)
Example aes256_fips197 :
  AES.encrypt_block
    (hex "000102030405060708090a0b0c0d0e0f101112131415161718191a1b1c1d1e1f")
    (hex "00112233445566778899aabbccddeeff")
  = hex "8ea2b7ca516745bfeafc49904b496089".
Proof. vm_compute. reflexivity. Qed.

Example hmac_sha256_rfc4231 :
  hmac_sha256 (lit "Jefe") (lit "what do ya want for nothing?")
  = hex "5bdcc146bf60754e6a042426089575c75a003f089d2739839dec58b964ec3843".
Proof. vm_compute. reflexivity. Qed.

(** ** Computations: results and frames *)

Lemma bindM_ok {A B : Type} (m : M A) (k : A -> M B) (w w1 : world) (a : A) :
  m w = (Ok a, w1) -> bindM m k w = k a w1.
Proof. unfold bindM. intros ->. reflexivity. Qed.

Lemma bindM_raise {A B : Type} (m : M A) (k : A -> M B) (w w1 : world) (e : exn) :
  m w = (Raise e, w1) -> bindM m k w = (Raise e, w1).
Proof. unfold bindM. intros ->. reflexivity. Qed.

Lemma same_store_refl (w : world) : same_store w w.
Proof. repeat split. Qed.

Lemma same_store_trans (w1 w2 w3 : world) :
  same_store w1 w2 -> same_store w2 w3 -> same_store w1 w3.
Proof.
  unfold same_store. intros (a & b & c & d & e) (a' & b' & c' & d' & e').
  repeat split; congruence.
Qed.

Lemma stable_ret {A : Type} (a : A) : stable (ret a).
Proof. intro w. apply same_store_refl. Qed.

Lemma stable_raise {A : Type} (e : exn) : stable (@raise A e).
Proof. intro w. apply same_store_refl. Qed.

Lemma stable_lift {A : Type} (r : result A) : stable (lift r).
Proof. intro w. apply same_store_refl. Qed.

Lemma stable_read {A : Type} (f : world -> A) : stable (fun w => (Ok (f w), w)).
Proof. intro w. apply same_store_refl. Qed.

Lemma stable_utcnow : stable utcnow.
Proof. intro w. repeat split. Qed.

Lemma stable_token_bytes (n : nat) : stable (token_bytes n).
Proof. intro w. repeat split. Qed.

Lemma stable_bind {A B : Type} (m : M A) (k : A -> M B) :
  stable m -> (forall a, stable (k a)) -> stable (bindM m k).
Proof.
  intros Hm Hk w. unfold bindM. specialize (Hm w).
  destruct (m w) as [[a|e] w1]; simpl in *.
  - eapply same_store_trans; [exact Hm|]. apply Hk.
  - exact Hm.
Qed.

Lemma stable_try {A : Type} (m : M A) (c : exn -> bool) (h : exn -> M A) :
  stable m -> (forall e, stable (h e)) -> stable (try_catch m c h).
Proof.
  intros Hm Hh w. unfold try_catch. specialize (Hm w).
  destruct (m w) as [[a|e] w1]; simpl in *.
  - exact Hm.
  - destruct (c e); simpl; [|exact Hm].
    eapply same_store_trans; [exact Hm|]. apply Hh.
Qed.

Lemma stable_now : stable now.
Proof.
  apply stable_bind; [apply stable_utcnow|]. intros t w. apply same_store_refl.
Qed.

Lemma stable_token_hex (n : nat) : stable (token_hex n).
Proof.
  apply stable_bind; [apply stable_token_bytes|]. intro. apply stable_ret.
Qed.

Lemma stable_get_db : stable get_db.
Proof. intro w. apply same_store_refl. Qed.

Create HintDb stable.
#[export] Hint Resolve stable_ret stable_raise stable_lift stable_utcnow
  stable_now stable_token_bytes stable_token_hex stable_get_db stable_read : stable.

Ltac stable_steps :=
  repeat first
    [ apply stable_bind; [|intro]
    | apply stable_try; [|intro]
    | solve [auto with stable]
    | match goal with
      | |- stable (match ?x with _ => _ end) => destruct x
      | |- stable (if ?c then _ else _) => destruct c
      | |- stable (let '(_, _) := ?p in _) => destruct p
      end ].

Lemma stable_hash_password (password : pyval) (salt : option pystr) :
  stable (hash_password password salt).
Proof. unfold hash_password. stable_steps. Qed.

Lemma stable_verify_password (password : pyval) (pwd_hash salt : pystr) :
  stable (verify_password password pwd_hash salt).
Proof. unfold verify_password. stable_steps. Qed.

Lemma stable_jwt_decode (token key : pystr) (algorithms : list pystr) :
  stable (jwt_decode token key algorithms).
Proof. unfold jwt_decode. stable_steps. Qed.

Lemma stable_verify_token (token : pystr) : stable (verify_token token).
Proof. unfold verify_token. stable_steps. Qed.

Lemma stable_generate_token (user_id : Z) (username role : pystr) :
  stable (generate_token user_id username role).
Proof. unfold generate_token. stable_steps. Qed.

Lemma stable_director_claims (req : request) : stable (director_claims req).
Proof. unfold director_claims. stable_steps. Qed.

#[export] Hint Resolve stable_hash_password stable_verify_password
  stable_verify_token stable_generate_token stable_director_claims : stable.

(** Stepping through a computation. *)
Lemma bindM_step {A B : Type} (m : M A) (k : A -> M B) (w w1 : world) (a : A)
    (r : result B * world) :
  m w = (Ok a, w1) -> k a w1 = r -> bindM m k w = r.
Proof. intros H <-. apply bindM_ok. exact H. Qed.

Lemma try_catch_ok {A : Type} (m : M A) (c : exn -> bool) (h : exn -> M A)
    (w w1 : world) (a : A) :
  m w = (Ok a, w1) -> try_catch m c h w = (Ok a, w1).
Proof. unfold try_catch. intros ->. reflexivity. Qed.

Lemma try_catch_caught {A : Type} (m : M A) (c : exn -> bool) (h : exn -> M A)
    (w w1 : world) (e : exn) (r : result A * world) :
  m w = (Raise e, w1) -> c e = true -> h e w1 = r -> try_catch m c h w = r.
Proof. unfold try_catch. intros -> -> <-. reflexivity. Qed.

Lemma lift_eq {A : Type} (r r' : result A) (w : world) :
  r = r' -> lift r w = (r', w).
Proof. intros ->. reflexivity. Qed.
(** ** UTF-8 *)

Ltac zlia := Z.div_mod_to_equations; lia.

(** Decide the comparisons of the goal by linear arithmetic. *)
Ltac zbool :=
  repeat match goal with
         | |- context [?a <=? ?b] =>
             first [ replace (a <=? b) with true by (symmetry; apply Z.leb_le; zlia)
                   | replace (a <=? b) with false by (symmetry; apply Z.leb_gt; zlia) ]
         | |- context [?a <? ?b] =>
             first [ replace (a <? b) with true by (symmetry; apply Z.ltb_lt; zlia)
                   | replace (a <? b) with false by (symmetry; apply Z.ltb_ge; zlia) ]
         | |- context [?a =? ?b] =>
             first [ replace (a =? b) with true by (symmetry; apply Z.eqb_eq; zlia)
                   | replace (a =? b) with false by (symmetry; apply Z.eqb_neq; zlia) ]
         end.

Lemma is_scalar_range (c : Z) :
  is_scalar c = true <-> (0 <= c < 0xD800 \/ 0xE000 <= c < 0x110000).
Proof. unfold is_scalar. lia. Qed.

Lemma is_text_cons (c : Z) (s : pystr) :
  is_text (c :: s) = true <-> is_scalar c = true /\ is_text s = true.
Proof. unfold is_text. simpl. apply andb_true_iff. Qed.

Lemma utf8_encode_cp_scalar (c : Z) :
  is_scalar c = true -> exists b, utf8_encode_cp c = Ok b /\ b <> [].
Proof.
  intro H. unfold utf8_encode_cp. rewrite H. cbn [negb].
  destruct (c <? 128); [eexists; split; [reflexivity|discriminate]|].
  destruct (c <? 2048); [eexists; split; [reflexivity|discriminate]|].
  destruct (c <? 65536); eexists; split; try reflexivity; discriminate.
Qed.

Lemma str_encode_text (s : pystr) :
  is_text s = true -> exists b, str_encode s = Ok b.
Proof.
  induction s as [|c s IH]; intro H; [exists []; reflexivity|].
  apply is_text_cons in H. destruct H as [Hc Hs].
  destruct (utf8_encode_cp_scalar c Hc) as [b [Eb _]].
  destruct (IH Hs) as [bs Ebs].
  exists (b ++ bs). cbn [str_encode]. rewrite Eb, Ebs. reflexivity.
Qed.

Lemma str_encode_not_text (s : pystr) :
  is_text s = false -> str_encode s = Raise UnicodeEncodeError.
Proof.
  induction s as [|c s IH]; intro H; [discriminate|].
  cbn [str_encode]. unfold is_text in H. simpl in H.
  destruct (is_scalar c) eqn:Hc.
  - destruct (utf8_encode_cp_scalar c Hc) as [b [Eb _]]. rewrite Eb.
    cbn [bind]. rewrite (IH H). reflexivity.
  - unfold utf8_encode_cp. rewrite Hc. reflexivity.
Qed.

Lemma str_encode_app (s t : pystr) (a b : bytes) :
  str_encode s = Ok a -> str_encode t = Ok b -> str_encode (s ++ t) = Ok (a ++ b).
Proof.
  revert a. induction s as [|c s IH]; intros a Ha Hb.
  - inversion Ha. exact Hb.
  - cbn [str_encode app] in *.
    destruct (utf8_encode_cp c) as [x|e]; [|discriminate]. cbn [bind] in *.
    destruct (str_encode s) as [y|e]; [|discriminate]. cbn [bind] in *.
    inversion Ha; subst. rewrite (IH y eq_refl Hb). cbn [bind].
    rewrite app_assoc. reflexivity.
Qed.

(** Decoding undoes encoding. *)
Lemma bytes_decode_fuel_encode (s : pystr) :
  forall (b : bytes) (fuel : nat),
    str_encode s = Ok b -> (length b <= fuel)%nat ->
    bytes_decode_fuel fuel b = Ok s.
Proof.
  induction s as [|c s IH]; intros b fuel Hb Hfuel.
  - inversion Hb. destruct fuel; reflexivity.
  - cbn [str_encode] in Hb. unfold utf8_encode_cp in Hb.
    destruct (is_scalar c) eqn:Hc; [|discriminate]. cbn [negb] in Hb.
    pose proof (proj1 (is_scalar_range c) Hc) as Hr.
    destruct (str_encode s) as [bs|e] eqn:Es;
      [|destruct (c <? 128), (c <? 2048), (c <? 65536); discriminate].
    destruct (Z.ltb_spec c 128) as [H1|H1];
      [|destruct (Z.ltb_spec c 2048) as [H2|H2];
        [|destruct (Z.ltb_spec c 65536) as [H3|H3]]];
      cbn [bind app] in Hb; inversion Hb; subst b; clear Hb;
      (destruct fuel as [|fuel]; [cbn [length] in Hfuel; lia|]);
      cbn [bytes_decode_fuel]; unfold is_cont; zbool; cbn [andb];
      cbn [length] in Hfuel.
    + rewrite (IH bs fuel eq_refl) by lia. reflexivity.
    + rewrite (IH bs fuel eq_refl) by lia. cbn [bind]. do 2 f_equal. zlia.
    + replace ((224 + c / 4096 - 224) * 4096 + (128 + (c / 64) mod 64 - 128) * 64
               + (128 + c mod 64 - 128)) with c by zlia.
      rewrite Hc, (IH bs fuel eq_refl) by lia. reflexivity.
    + replace ((240 + c / 262144 - 240) * 262144
               + (128 + (c / 4096) mod 64 - 128) * 4096
               + (128 + (c / 64) mod 64 - 128) * 64 + (128 + c mod 64 - 128))
        with c by zlia.
      rewrite Hc, (IH bs fuel eq_refl) by lia. reflexivity.
Qed.

Lemma bytes_decode_encode (s : pystr) (b : bytes) :
  str_encode s = Ok b -> bytes_decode b = Ok s.
Proof. intro H. apply bytes_decode_fuel_encode; [exact H|lia]. Qed.

Lemma is_ascii_cons (c : Z) (s : pystr) :
  is_ascii (c :: s) = true <-> 0 <= c < 128 /\ is_ascii s = true.
Proof.
  unfold is_ascii. simpl. rewrite !andb_true_iff, Z.leb_le, Z.ltb_lt. tauto.
Qed.

Lemma is_ascii_app (s t : pystr) :
  is_ascii (s ++ t) = true <-> is_ascii s = true /\ is_ascii t = true.
Proof. unfold is_ascii. rewrite forallb_app. apply andb_true_iff. Qed.

Lemma str_encode_ascii (s : pystr) : is_ascii s = true -> str_encode s = Ok s.
Proof.
  induction s as [|c s IH]; intro H; [reflexivity|].
  apply is_ascii_cons in H. destruct H as [Hc Hs].
  cbn [str_encode]. unfold utf8_encode_cp, is_scalar. zbool. cbn [andb orb negb bind].
  rewrite (IH Hs). reflexivity.
Qed.

Lemma bytes_decode_ascii (b : bytes) : is_ascii b = true -> bytes_decode b = Ok b.
Proof. intro H. apply bytes_decode_encode, str_encode_ascii, H. Qed.

Lemma is_ascii_text (s : pystr) : is_ascii s = true -> is_text s = true.
Proof.
  induction s as [|c s IH]; intro H; [reflexivity|].
  apply is_ascii_cons in H. destruct H as [Hc Hs].
  apply is_text_cons. split; [|auto]. apply is_scalar_range. lia.
Qed.
(** ** Base64 *)

Lemma in_sextets (v : Z) : 0 <= v < 64 -> In v sextets.
Proof.
  intro H. unfold sextets. apply in_map_iff. exists (Z.to_nat v).
  split; [lia|]. apply in_seq. lia.
Qed.

Lemma sextets_ok : forallb sextet_ok sextets = true.
Proof. vm_compute. reflexivity. Qed.

Lemma b64_char_spec (v : Z) :
  0 <= v < 64 ->
  b64_value (b64_char v) = Some v /\ (b64_char v =? 61) = false
  /\ 0 <= b64_char v < 128.
Proof.
  intro H. pose proof (proj1 (forallb_forall _ _) sextets_ok v (in_sextets v H)) as E.
  unfold sextet_ok in E. destruct (b64_value (b64_char v)) as [v'|]; [|discriminate].
  rewrite !andb_true_iff, !negb_true_iff in E.
  destruct E as [[[[[[[[E1 E2] E3] E4] _] _] _] _] _].
  apply Z.eqb_eq in E1. subst v'. split; [reflexivity|]. split; [exact E2|]. lia.
Qed.

Lemma urlsafe_char_spec (v : Z) :
  0 <= v < 64 ->
  let u := urlsafe_of_std (b64_char v) in
  (u =? 61) = false /\ u <> 46 /\ std_of_urlsafe u = b64_char v /\ 0 <= u < 128.
Proof.
  intro H. pose proof (proj1 (forallb_forall _ _) sextets_ok v (in_sextets v H)) as E.
  unfold sextet_ok in E. destruct (b64_value (b64_char v)) as [v'|]; [|discriminate].
  rewrite !andb_true_iff, !negb_true_iff in E.
  destruct E as [[[[[[[[_ _] _] _] E5] E6] E7] E8] E9].
  cbv zeta. split; [exact E5|]. split; [apply Z.eqb_neq, E6|].
  split; [apply Z.eqb_eq, E7|]. lia.
Qed.

Lemma list_ind3 {A : Type} (P : list A -> Prop) :
  P [] -> (forall x, P [x]) -> (forall x y, P [x; y]) ->
  (forall x y z r, P r -> P (x :: y :: z :: r)) ->
  forall l, P l.
Proof.
  intros H0 H1 H2 H3.
  assert (H : forall l, P l /\ (forall x, P (x :: l)) /\ (forall x y, P (x :: y :: l))).
  { induction l as [|a l [IH0 [IH1 IH2]]]; [auto|].
    split; [apply IH1|]. split; [intro x; apply IH2|]. intros x y. apply H3, IH0. }
  intro l. apply H.
Qed.

(** One character of the alphabet, read by the decoder. *)
Lemma a2b_step (v : Z) (r : bytes) (quad_pos leftchar pads : Z) (out : bytes) :
  0 <= v < 64 ->
  a2b_base64 (b64_char v :: r) quad_pos leftchar pads out
  = if quad_pos =? 0 then a2b_base64 r 1 v 0 out
    else if quad_pos =? 1 then
      a2b_base64 r 2 (v mod 16) 0 (leftchar * 4 + v / 16 :: out)
    else if quad_pos =? 2 then
      a2b_base64 r 3 (v mod 4) 0 (leftchar * 16 + v / 4 :: out)
    else a2b_base64 r 0 0 0 (leftchar * 64 + v :: out).
Proof.
  intro H. destruct (b64_char_spec v H) as [E1 [E2 _]].
  cbn [a2b_base64]. rewrite E2, E1. reflexivity.
Qed.

Ltac a2b_next :=
  rewrite a2b_step by zlia;
  change (0 =? 0) with true; change (1 =? 0) with false;
  change (1 =? 1) with true; change (2 =? 0) with false;
  change (2 =? 1) with false; change (2 =? 2) with true;
  change (3 =? 0) with false; change (3 =? 1) with false;
  change (3 =? 2) with false; cbv iota.

Lemma a2b_encode (b : bytes) :
  all_bytes b -> forall out, a2b_base64 (b64encode b) 0 0 0 out = Ok (rev out ++ b).
Proof.
  induction b as [|x|x y|x y z r IH] using list_ind3; intros Hb out.
  - cbn. rewrite app_nil_r. reflexivity.
  - inversion Hb as [|? ? Hx _]; subst. cbn [b64encode].
    do 2 a2b_next. cbn. zbool. do 3 f_equal. zlia.
  - inversion Hb as [|? ? Hx Hb']; subst. inversion Hb' as [|? ? Hy _]; subst.
    cbn [b64encode]. do 3 a2b_next. cbn. zbool.
    rewrite <- !app_assoc. cbn [app]. do 3 f_equal; [zlia|f_equal; zlia].
  - inversion Hb as [|? ? Hx Hb']; subst. inversion Hb' as [|? ? Hy Hb'']; subst.
    inversion Hb'' as [|? ? Hz Hr]; subst.
    cbn [b64encode]. do 4 a2b_next.
    rewrite (IH Hr). cbn [rev]. rewrite <- !app_assoc. cbn [app].
    do 3 f_equal; [zlia|f_equal; [zlia|f_equal; zlia]].
Qed.

(** [base64.b64decode] undoes [base64.b64encode]. *)
Lemma b64decode_bytes_encode (b : bytes) :
  all_bytes b -> b64decode_bytes (b64encode b) = Ok b.
Proof. intro H. unfold b64decode_bytes. rewrite (a2b_encode b H). reflexivity. Qed.

Lemma b64encode_injective (a b : bytes) :
  all_bytes a -> all_bytes b -> b64encode a = b64encode b -> a = b.
Proof.
  intros Ha Hb E. pose proof (b64decode_bytes_encode a Ha) as H.
  rewrite E, (b64decode_bytes_encode b Hb) in H. congruence.
Qed.

Lemma is_ascii_in (s : pystr) (c : Z) : is_ascii s = true -> In c s -> 0 <= c < 128.
Proof.
  intros H Hc. pose proof (proj1 (forallb_forall _ _) H c Hc) as E.
  apply andb_true_iff in E. lia.
Qed.

Lemma b64_char_ascii (v : Z) : 0 <= b64_char v < 128.
Proof.
  unfold b64_char.
  destruct (Nat.lt_ge_cases (Z.to_nat v) (length b64_alphabet)) as [L|L].
  - apply (is_ascii_in b64_alphabet); [vm_compute; reflexivity|].
    apply nth_In. exact L.
  - rewrite nth_overflow by exact L. lia.
Qed.

Lemma b64encode_ascii (b : bytes) : is_ascii (b64encode b) = true.
Proof.
  induction b as [|x|x y|x y z r IH] using list_ind3; cbn [b64encode].
  - reflexivity.
  - repeat (apply is_ascii_cons; split; [first [apply b64_char_ascii|lia]|]).
    reflexivity.
  - repeat (apply is_ascii_cons; split; [first [apply b64_char_ascii|lia]|]).
    reflexivity.
  - repeat (apply is_ascii_cons; split; [first [apply b64_char_ascii|lia]|]).
    exact IH.
Qed.

Lemma b64decode_encode (b : bytes) :
  all_bytes b -> b64decode (b64encode b) = Ok b.
Proof.
  intro H. unfold b64decode. fold (is_ascii (b64encode b)).
  rewrite b64encode_ascii. apply b64decode_bytes_encode, H.
Qed.

(** ** GET /api/users *)

Lemma listing_row_has_no_credentials (u : usuario) :
  exists d, user_listing_row u = VDict d
            /\ dict_has d (lit "password_hash") = false
            /\ dict_has d (lit "salt") = false.
Proof. eexists. split; [reflexivity|]. split; reflexivity. Qed.

(** C9: every user object of a successful GET /api/users answer lacks the
    keys password_hash and salt. *)
Theorem get_users_omits_credentials (req : request) (w w' : world) (body : pyval) :
  get_users req w = (Ok (body, 200), w') ->
  exists users,
    body = VDict [(lit "success", VBool true); (lit "data", VList users)]
    /\ Forall (fun u => exists d, u = VDict d
                                  /\ dict_has d (lit "password_hash") = false
                                  /\ dict_has d (lit "salt") = false) users.
Proof.
  unfold get_users, try_catch, bindM. intro H.
  destruct (director_claims req w) as [[[p|]|e] w1]; simpl in H.
  - unfold get_db, ret in H. inversion H; subst.
    eexists. split; [reflexivity|].
    apply Forall_forall. intros x Hx. apply in_map_iff in Hx.
    destruct Hx as [u [<- _]]. apply listing_row_has_no_credentials.
  - unfold ret in H. inversion H.
  - unfold ret in H. inversion H.
Qed.

Lemma get_users_omits_credentials_witness :
  exists body w',
    get_users (with_bearer director_token (Ok VNone)) seeded_world = (Ok (body, 200), w')
    /\ exists users,
         body = VDict [(lit "success", VBool true); (lit "data", VList users)]
         /\ Forall (fun u => exists d, u = VDict d
                                       /\ dict_has d (lit "password_hash") = false
                                       /\ dict_has d (lit "salt") = false) users.
Proof.
  eexists; eexists.
  assert (E : get_users (with_bearer director_token (Ok VNone)) seeded_world
              = (Ok (?[body], 200), ?[w'])) by (vm_compute; reflexivity).
  split; [exact E|].
  exact (get_users_omits_credentials _ _ _ _ E).
Defined.

(** ** PUT and DELETE /api/users/<id> *)

Lemma map_result_total {A B : Type} (f : A -> result B) (g : A -> B) (l : list A) :
  (forall a, f a = Ok (g a)) -> map_result f l = Ok (map g l).
Proof.
  intro H. induction l as [|a l IH]; simpl; [reflexivity|].
  rewrite H, IH. reflexivity.
Qed.

Lemma bind_param_int (n : Z) : int64 n = true -> bind_param (VInt n) = Ok (SInt n).
Proof. unfold int64. simpl. intros ->. reflexivity. Qed.

Lemma update_usuario_activo (conn : database) (v id : Z) :
  int64 v = true -> int64 id = true ->
  update_usuario conn [col_activo] [VInt v] id
  = Ok (mkDatabase
          (map (fun u => if u_id u =? id then set_activo u (SInt v) else u)
               (usuarios conn))
          (sesiones conn) (logs_acceso conn)
          (seq_usuarios conn) (seq_sesiones conn) (seq_logs conn)).
Proof.
  intros Hv Hid. unfold update_usuario. cbn [app bind_all].
  rewrite (bind_param_int _ Hv), (bind_param_int _ Hid). cbn [bind last combine].
  rewrite (map_result_total _
             (fun u => if u_id u =? id then set_activo u (SInt v) else u)).
  - reflexivity.
  - intro u. cbn [integer_affinity sql_eq]. destruct (u_id u =? id); reflexivity.
Qed.

(** C1 (the failing path): an authorized PUT /api/users/1 whose body is
    {"activo": 0} is answered with success and clears the active flag of
    every row of id 1, the bootstrap director's. *)
Theorem update_user_deactivates_director (req : request) (w w1 : world) (p : dict) :
  director_claims req w = (Ok (Some p), w1) ->
  req_json req = Ok (VDict [(lit "activo", VInt 0)]) ->
  fst (update_user 1 req w) = Ok (VDict [(lit "success", VBool true)], 200)
  /\ usuarios (w_db (snd (update_user 1 req w)))
     = map (fun u => if u_id u =? 1 then set_activo u (SInt 0) else u)
           (usuarios (w_db w))
  /\ forall u, In u (usuarios (w_db (snd (update_user 1 req w)))) ->
               u_id u = 1 -> u_activo u = SInt 0.
Proof.
  intros Hauth Hbody.
  assert (Hdb : w_db w1 = w_db w).
  { pose proof (stable_director_claims req w) as H. rewrite Hauth in H. apply H. }
  assert (E : update_user 1 req w
              = (Ok (VDict [(lit "success", VBool true)], 200),
                 set_db w1 (mkDatabase
                   (map (fun u => if u_id u =? 1 then set_activo u (SInt 0) else u)
                        (usuarios (w_db w1)))
                   (sesiones (w_db w1)) (logs_acceso (w_db w1))
                   (seq_usuarios (w_db w1)) (seq_sesiones (w_db w1))
                   (seq_logs (w_db w1))))).
  { unfold update_user, try_catch.
    rewrite (bindM_ok _ _ _ _ _ Hauth). rewrite Hbody.
    unfold bindM, lift, get_db, commit, ret. cbn -[update_usuario].
    rewrite update_usuario_activo by reflexivity. reflexivity. }
  rewrite E. cbn [fst snd set_db w_db usuarios]. rewrite Hdb.
  split; [reflexivity|]. split; [reflexivity|].
  intros u Hu Hid. apply in_map_iff in Hu. destruct Hu as [v [<- _]].
  destruct (u_id v =? 1) eqn:Ev; [reflexivity|].
  simpl in Hid. apply Z.eqb_neq in Ev. contradiction.
Qed.

Lemma update_user_deactivates_director_witness :
  exists p w1,
    director_claims deactivate_director_request seeded_world = (Ok (Some p), w1)
    /\ req_json deactivate_director_request = Ok (VDict [(lit "activo", VInt 0)])
    /\ fst (update_user 1 deactivate_director_request seeded_world)
       = Ok (VDict [(lit "success", VBool true)], 200)
    /\ usuarios (w_db (snd (update_user 1 deactivate_director_request seeded_world)))
       = map (fun u => if u_id u =? 1 then set_activo u (SInt 0) else u)
             (usuarios (w_db seeded_world))
    /\ forall u,
         In u (usuarios (w_db (snd (update_user 1 deactivate_director_request
                                                 seeded_world)))) ->
         u_id u = 1 -> u_activo u = SInt 0.
Proof.
  eexists; eexists.
  assert (E : director_claims deactivate_director_request seeded_world
              = (Ok (Some ?[p]), ?[w1])) by (vm_compute; reflexivity).
  split; [exact E|]. split; [reflexivity|].
  exact (update_user_deactivates_director _ _ _ _ E eq_refl).
Defined.

(** In the seeded process the director is active before the request and
    inactive after it; the secretary is untouched. *)
Example director_flag_cleared :
  map u_activo (usuarios (w_db seeded_world)) = [SInt 1; SInt 1]
  /\ map u_activo
         (usuarios (w_db (snd (update_user 1 deactivate_director_request
                                           seeded_world))))
     = [SInt 0; SInt 1].
Proof. split; vm_compute; reflexivity. Qed.

(** The guard of [delete_user]: DELETE /api/users/1 never changes the
    store, and an authorized caller gets the 400 answer. *)
Lemma delete_user_1_keeps_store (req : request) (w : world) :
  w_db (snd (delete_user 1 req w)) = w_db w.
Proof.
  unfold delete_user, try_catch, bindM.
  pose proof (stable_director_claims req w) as H.
  destruct (director_claims req w) as [[[p|]|e] w1]; simpl in *; apply H.
Qed.

Lemma delete_user_1_refused (req : request) (w w1 : world) (p : dict) :
  director_claims req w = (Ok (Some p), w1) ->
  fst (delete_user 1 req w) = Ok (failure no_eliminar_director 400).
Proof.
  intro H. unfold delete_user, try_catch. rewrite (bindM_ok _ _ _ _ _ H).
  reflexivity.
Qed.

(** ** POST /api/auth/logout *)

Lemma database_eta (d : database) :
  mkDatabase (usuarios d) (sesiones d) (logs_acceso d)
             (seq_usuarios d) (seq_sesiones d) (seq_logs d) = d.
Proof. destruct d. reflexivity. Qed.

Lemma world_eta (w : world) : set_db w (w_db w) = w.
Proof. destruct w. reflexivity. Qed.

Lemma deactivated_twice (token : pystr) (d : database) :
  deactivated token (deactivated token d) = deactivated token d.
Proof.
  unfold deactivated. cbn [usuarios sesiones logs_acceso seq_usuarios
                           seq_sesiones seq_logs].
  f_equal. rewrite map_map. apply map_ext. intro s.
  destruct (str_eqb (s_token s) token) eqn:E; cbn [s_token set_activa]; rewrite E;
    reflexivity.
Qed.

Lemma deactivated_noop (token : pystr) (d : database) :
  (forall s, In s (sesiones d) -> s_token s = token -> s_activa s = SInt 0) ->
  deactivated token d = d.
Proof.
  intro H. unfold deactivated. rewrite <- (database_eta d) at 7. f_equal.
  rewrite <- (map_id (sesiones d)) at 2. apply map_ext_in. intros s Hs.
  destruct (str_eqb (s_token s) token) eqn:E; [|reflexivity].
  apply str_eqb_eq in E. specialize (H s Hs E).
  destruct s; cbn in *. subst. reflexivity.
Qed.

(** What logout does with a token that is text. *)
Lemma logout_text_token (req : request) (w : world) (d : dict) (token : pystr) :
  req_json req = Ok (VDict d) ->
  dict_lookup d (lit "token") = Some (VStr token) ->
  is_text token = true ->
  logout req w
  = (Ok (VDict [(lit "success", VBool true)], 200),
     match token with
     | [] => w
     | _ => set_db w (deactivated token (w_db w))
     end).
Proof.
  intros Hbody Htok Htext. unfold logout, try_catch, bindM, lift.
  rewrite Hbody. cbn [py_get]. rewrite Htok. destruct token as [|c token].
  - reflexivity.
  - cbn [truthy]. unfold get_db, commit, deactivate_sesiones, ret.
    cbn [bind_param]. rewrite Htext. reflexivity.
Qed.

(** C7, as amended: for a token that is UTF-8-encodable text, sent in a JSON
    object, logout reports success, a second logout reports success and
    changes nothing, and a logout for a token with no active session (never
    issued, or already inactive) changes nothing. *)
Theorem logout_idempotent (req : request) (w : world) (d : dict) (token : pystr) :
  req_json req = Ok (VDict d) ->
  dict_lookup d (lit "token") = Some (VStr token) ->
  is_text token = true ->
  let ok := Ok (VDict [(lit "success", VBool true)], 200) in
  let w1 := snd (logout req w) in
  fst (logout req w) = ok
  /\ fst (logout req w1) = ok
  /\ w_db (snd (logout req w1)) = w_db w1
  /\ ((forall s, In s (sesiones (w_db w)) -> s_token s = token ->
                 s_activa s = SInt 0) ->
      w_db w1 = w_db w).
Proof.
  intros Hbody Htok Htext. cbv zeta.
  rewrite !(logout_text_token req _ d token Hbody Htok Htext).
  cbn [fst snd]. split; [reflexivity|]. split; [reflexivity|].
  destruct token as [|c token]; [repeat split|].
  split.
  - cbn [set_db w_db]. apply deactivated_twice.
  - intro H. cbn [set_db w_db]. apply deactivated_noop. exact H.
Qed.

Lemma logout_idempotent_witness :
  let req := logout_request (VStr (lit "abc.def.ghi")) in
  let ok := Ok (VDict [(lit "success", VBool true)], 200) in
  let w1 := snd (logout req world_with_session) in
  (req_json req = Ok (VDict [(lit "token", VStr (lit "abc.def.ghi"))])
   /\ dict_lookup [(lit "token", VStr (lit "abc.def.ghi"))] (lit "token")
      = Some (VStr (lit "abc.def.ghi"))
   /\ is_text (lit "abc.def.ghi") = true)
  /\ fst (logout req world_with_session) = ok
  /\ fst (logout req w1) = ok
  /\ w_db (snd (logout req w1)) = w_db w1
  /\ ((forall s, In s (sesiones (w_db world_with_session)) ->
                 s_token s = lit "abc.def.ghi" -> s_activa s = SInt 0) ->
      w_db w1 = w_db world_with_session).
Proof.
  cbv zeta. split; [repeat split|].
  exact (logout_idempotent (logout_request (VStr (lit "abc.def.ghi")))
           world_with_session [(lit "token", VStr (lit "abc.def.ghi"))]
           (lit "abc.def.ghi") eq_refl eq_refl eq_refl).
Defined.

(** The first logout does close the open session. *)
Example logout_closes_session :
  map s_activa
      (sesiones (w_db (snd (logout (logout_request (VStr (lit "abc.def.ghi")))
                                   world_with_session))))
  = [SInt 0].
Proof. vm_compute. reflexivity. Qed.

(** C7 (counterexample): a logout call whose token is a string holding the
    lone surrogate U+D800 is answered 500 with success false, because SQLite
    cannot bind the string; so is a call whose body is a JSON list. *)
Lemma logout_reports_failure :
  fst (logout (logout_request (VStr [0xD800])) world_with_session)
  = Ok (VDict [(lit "success", VBool false); (lit "error", VStr error_interno)], 500)
  /\ fst (logout (mkRequest (Ok (VList [])) None None None) world_with_session)
     = Ok (VDict [(lit "success", VBool false); (lit "error", VStr error_interno)], 500).
Proof. split; vm_compute; reflexivity. Qed.

(** Whatever the request, logout leaves the users and the log alone and a
    second identical call leaves the whole store as the first left it. *)
Lemma logout_store (req : request) (w : world) :
  w_db (snd (logout req w)) = w_db w
  \/ exists token, w_db (snd (logout req w)) = deactivated token (w_db w).
Proof.
  unfold logout, try_catch, bindM, lift.
  destruct (req_json req) as [data|e]; [|left; reflexivity].
  destruct (py_get data (lit "token")) as [token|e]; [|left; reflexivity].
  destruct (truthy token); [|left; reflexivity].
  unfold get_db, commit, deactivate_sesiones, ret.
  destruct (bind_param token) as [v|e] eqn:E; [|left; reflexivity].
  cbn [bind fst snd set_db w_db is_Exception].
  destruct (text_affinity v) as [| |t] eqn:Et.
  - left. cbn [sql_eq]. rewrite <- (database_eta (w_db w)) at 7. f_equal.
    rewrite <- (map_id (sesiones (w_db w))) at 2. apply map_ext. reflexivity.
  - destruct v; discriminate.
  - right. exists t. reflexivity.
Qed.

(** ** POST /api/login *)

Lemma bind_inv {A B : Type} (m : result A) (k : A -> result B) (b : B) :
  bind m k = Ok b -> exists a, m = Ok a /\ k a = Ok b.
Proof. destruct m as [a|e]; simpl; [eauto|discriminate]. Qed.

Ltac bind_inv H :=
  repeat match type of H with
         | bind _ _ = Ok _ =>
             let a := fresh "a" in
             let Ha := fresh "Ha" in
             apply bind_inv in H; destruct H as [a [Ha H]]
         end.

Lemma insert_log_frame (conn conn' : database) (user_id : option Z)
    (username : pyval) (accion : pystr) (ip : option pystr) (fecha : pystr)
    (exitoso : Z) :
  insert_log conn user_id username accion ip fecha exitoso = Ok conn' ->
  usuarios conn' = usuarios conn /\ sesiones conn' = sesiones conn.
Proof.
  unfold insert_log. intro H. bind_inv H. inversion H. split; reflexivity.
Qed.

(** The audit never fails its caller, and writes to the log only. *)
Lemma log_access_total (user_id : option Z) (username : pyval) (accion : pystr)
    (ip : option pystr) (exitoso : bool) (w : world) :
  exists w', log_access user_id username accion ip exitoso w = (Ok tt, w')
             /\ usuarios (w_db w') = usuarios (w_db w)
             /\ sesiones (w_db w') = sesiones (w_db w).
Proof.
  unfold log_access, try_catch, bindM, get_db, now, utcnow, bindM, lift, commit, ret.
  cbn [fst snd w_db].
  destruct (insert_log _ _ _ _ _ _ _) as [conn'|e] eqn:E.
  - eexists. split; [reflexivity|]. cbn [set_db w_db].
    apply insert_log_frame in E. exact E.
  - eexists. split; [reflexivity|]. split; reflexivity.
Qed.

(** The two refusals of [login]. *)
Lemma login_unknown_user (req : request) (w : world) (d : dict)
    (username password : pyval) :
  req_json req = Ok (VDict d) ->
  dict_lookup d (lit "username") = Some username ->
  dict_lookup d (lit "password") = Some password ->
  truthy username = true -> truthy password = true ->
  select_active_user (w_db w) username = Ok None ->
  fst (login req w) = Ok (failure credenciales_invalidas 401)
  /\ usuarios (w_db (snd (login req w))) = usuarios (w_db w)
  /\ sesiones (w_db (snd (login req w))) = sesiones (w_db w).
Proof.
  intros Hbody Hu Hp Tu Tp Hsel.
  destruct (log_access_total None username (lit "login_fallido")
              (req_remote_addr req) false w) as [w' [E [Hus Hse]]].
  assert (L : login req w = (Ok (failure credenciales_invalidas 401), w')).
  { unfold login. apply try_catch_ok.
    eapply bindM_step; [apply lift_eq, Hbody|].
    eapply bindM_step; [apply lift_eq; cbn [py_get]; rewrite Hu; reflexivity|].
    eapply bindM_step; [apply lift_eq; cbn [py_get]; rewrite Hp; reflexivity|].
    rewrite Tu, Tp. cbn [negb orb].
    eapply bindM_step; [reflexivity|].
    eapply bindM_step; [apply lift_eq, Hsel|].
    eapply bindM_step; [exact E|]. reflexivity. }
  rewrite L. auto.
Qed.

Lemma login_wrong_password (req : request) (w w1 : world) (d : dict)
    (username password : pyval) (user : usuario) :
  req_json req = Ok (VDict d) ->
  dict_lookup d (lit "username") = Some username ->
  dict_lookup d (lit "password") = Some password ->
  truthy username = true -> truthy password = true ->
  select_active_user (w_db w) username = Ok (Some user) ->
  verify_password password (u_password_hash user) (u_salt user) w = (Ok false, w1) ->
  fst (login req w) = Ok (failure credenciales_invalidas 401).
Proof.
  intros Hbody Hu Hp Tu Tp Hsel Hver.
  destruct (log_access_total (Some (u_id user)) username (lit "login_fallido")
              (req_remote_addr req) false w1) as [w' [E _]].
  assert (L : login req w = (Ok (failure credenciales_invalidas 401), w')).
  { unfold login. apply try_catch_ok.
    eapply bindM_step; [apply lift_eq, Hbody|].
    eapply bindM_step; [apply lift_eq; cbn [py_get]; rewrite Hu; reflexivity|].
    eapply bindM_step; [apply lift_eq; cbn [py_get]; rewrite Hp; reflexivity|].
    rewrite Tu, Tp. cbn [negb orb].
    eapply bindM_step; [reflexivity|].
    eapply bindM_step; [apply lift_eq, Hsel|].
    eapply bindM_step; [exact Hver|]. cbn [negb].
    eapply bindM_step; [exact E|]. reflexivity. }
  rewrite L. reflexivity.
Qed.

(** When hashing the supplied password raises, the caller of a known
    username gets the answer for an internal error. *)
Lemma login_password_raises (req : request) (w w1 : world) (d : dict)
    (username password : pyval) (user : usuario) (e : exn) :
  req_json req = Ok (VDict d) ->
  dict_lookup d (lit "username") = Some username ->
  dict_lookup d (lit "password") = Some password ->
  truthy username = true -> truthy password = true ->
  select_active_user (w_db w) username = Ok (Some user) ->
  verify_password password (u_password_hash user) (u_salt user) w = (Raise e, w1) ->
  fst (login req w) = Ok (failure error_interno 500).
Proof.
  intros Hbody Hu Hp Tu Tp Hsel Hver.
  assert (L : login req w = (Ok (failure error_interno 500), w1)).
  { unfold login. eapply try_catch_caught; [|reflexivity|reflexivity].
    eapply bindM_step; [apply lift_eq, Hbody|].
    eapply bindM_step; [apply lift_eq; cbn [py_get]; rewrite Hu; reflexivity|].
    eapply bindM_step; [apply lift_eq; cbn [py_get]; rewrite Hp; reflexivity|].
    rewrite Tu, Tp. cbn [negb orb].
    eapply bindM_step; [reflexivity|].
    eapply bindM_step; [apply lift_eq, Hsel|].
    apply bindM_raise. exact Hver. }
  rewrite L. reflexivity.
Qed.

(** Both refusals are the same answer. *)
Lemma login_refusals_identical (req req' : request) (w w' w1 : world)
    (d d' : dict) (username password username' password' : pyval) (user : usuario) :
  req_json req = Ok (VDict d) ->
  dict_lookup d (lit "username") = Some username ->
  dict_lookup d (lit "password") = Some password ->
  truthy username = true -> truthy password = true ->
  select_active_user (w_db w) username = Ok None ->
  req_json req' = Ok (VDict d') ->
  dict_lookup d' (lit "username") = Some username' ->
  dict_lookup d' (lit "password") = Some password' ->
  truthy username' = true -> truthy password' = true ->
  select_active_user (w_db w') username' = Ok (Some user) ->
  verify_password password' (u_password_hash user) (u_salt user) w' = (Ok false, w1) ->
  fst (login req w) = fst (login req' w').
Proof.
  intros A1 A2 A3 A4 A5 A6 B1 B2 B3 B4 B5 B6 B7.
  rewrite (proj1 (login_unknown_user req w d username password A1 A2 A3 A4 A5 A6)).
  rewrite (login_wrong_password req' w' w1 d' username' password' user
             B1 B2 B3 B4 B5 B6 B7).
  reflexivity.
Qed.

(** C5 (the failing input): with a password that cannot be encoded, the
    lone surrogate U+D800, the caller who names the active director gets
    500 'Error interno del servidor' and the caller who names nobody gets
    401, the text of [credenciales_invalidas]. *)
Theorem login_reveals_known_username :
  fst (login (login_request (lit "DirectorEjecutivoAndres") (VStr [0xD800]))
             seeded_world)
  = Ok (failure error_interno 500)
  /\ fst (login (login_request (lit "nobody") (VStr [0xD800])) seeded_world)
     = Ok (failure credenciales_invalidas 401).
Proof. split; vm_compute; reflexivity. Qed.

(** The same with a password that is a JSON number. *)
Example login_number_password_distinguishes :
  fst (login (login_request (lit "DirectorEjecutivoAndres") (VInt 12345))
             seeded_world)
  = Ok (failure error_interno 500)
  /\ fst (login (login_request (lit "nobody") (VInt 12345)) seeded_world)
     = Ok (failure credenciales_invalidas 401).
Proof. split; vm_compute; reflexivity. Qed.

Lemma find_all_false {A : Type} (f : A -> bool) (l : list A) :
  (forall a, In a l -> f a = false) -> find f l = None.
Proof.
  induction l as [|a l IH]; intro H; simpl; [reflexivity|].
  rewrite (H a (or_introl eq_refl)). apply IH. intros b Hb. apply H. now right.
Qed.

Lemma unique_username (l : list usuario) (u v : usuario) :
  NoDup (map u_username l) -> In u l -> In v l ->
  u_username v = u_username u -> v = u.
Proof.
  induction l as [|a l IH]; simpl; intros Hnd Hu Hv E; [contradiction|].
  inversion Hnd as [|? ? Hnotin Hnd']; subst.
  destruct Hu as [->|Hu], Hv as [->|Hv]; auto.
  - exfalso. apply Hnotin. rewrite <- E. now apply in_map.
  - exfalso. apply Hnotin. rewrite E. now apply in_map.
Qed.

Lemma select_deactivated (conn : database) (u : usuario) :
  In u (usuarios conn) -> u_activo u = SInt 0 ->
  is_text (u_username u) = true ->
  NoDup (map u_username (usuarios conn)) ->
  select_active_user conn (VStr (u_username u)) = Ok None.
Proof.
  intros Hin Hact Htext Hnd. unfold select_active_user. cbn [bind_param].
  rewrite Htext. cbn [bind text_affinity]. f_equal. apply find_all_false.
  intros v Hv. cbn [sql_eq].
  destruct (str_eqb (u_username v) (u_username u)) eqn:E; [|reflexivity].
  apply str_eqb_eq in E. rewrite (unique_username _ u v Hnd Hin Hv E), Hact.
  reflexivity.
Qed.

(** C10: an account whose active flag is 0 gets 401 and the text of
    [credenciales_invalidas] whatever password is supplied with its username, and no
    session is opened.  The username is the stored one (text, not empty,
    unique in the table). *)
Theorem login_refuses_deactivated (req : request) (w : world) (d : dict)
    (u : usuario) (password : pyval) :
  req_json req = Ok (VDict d) ->
  dict_lookup d (lit "username") = Some (VStr (u_username u)) ->
  dict_lookup d (lit "password") = Some password ->
  truthy password = true ->
  In u (usuarios (w_db w)) ->
  u_activo u = SInt 0 ->
  u_username u <> [] ->
  is_text (u_username u) = true ->
  NoDup (map u_username (usuarios (w_db w))) ->
  fst (login req w) = Ok (failure credenciales_invalidas 401)
  /\ sesiones (w_db (snd (login req w))) = sesiones (w_db w).
Proof.
  intros Hbody Hu Hp Tp Hin Hact Hne Htext Hnd.
  assert (Tu : truthy (VStr (u_username u)) = true).
  { simpl. destruct (u_username u); [contradiction|reflexivity]. }
  destruct (login_unknown_user req w d _ _ Hbody Hu Hp Tu Tp
              (select_deactivated _ u Hin Hact Htext Hnd)) as [H1 [_ H3]].
  split; assumption.
Qed.

Lemma login_refuses_deactivated_witness :
  let req := login_request (lit "DirectorEjecutivoAndres") (VStr (lit "Hidalgoajhb41")) in
  fst (login req world_without_director) = Ok (failure credenciales_invalidas 401)
  /\ sesiones (w_db (snd (login req world_without_director)))
     = sesiones (w_db world_without_director).
Proof.
  refine (login_refuses_deactivated
            (login_request (lit "DirectorEjecutivoAndres") (VStr (lit "Hidalgoajhb41")))
            world_without_director
            [(lit "username", VStr (lit "DirectorEjecutivoAndres"));
             (lit "password", VStr (lit "Hidalgoajhb41"))]
            director_row (VStr (lit "Hidalgoajhb41"))
            eq_refl eq_refl eq_refl eq_refl _ eq_refl _ eq_refl _).
  - left. reflexivity.
  - discriminate.
  - repeat constructor; simpl; intuition discriminate.
Defined.
(** ** Credential hasher *)

Lemma land_255_byte (a : Z) : 0 <= Z.land a 0xFF < 256.
Proof.
  change 0xFF with (Z.ones 8). rewrite Z.land_ones by lia.
  apply Z.mod_pos_bound. lia.
Qed.

Lemma lxor_byte (a b : Z) : 0 <= a < 256 -> 0 <= b < 256 -> 0 <= Z.lxor a b < 256.
Proof.
  intros Ha Hb.
  assert (E : Z.lxor a b = Z.lxor a b mod 2 ^ 8).
  { apply Z.bits_inj'. intros i Hi.
    destruct (Z.lt_ge_cases i 8) as [L|L].
    - rewrite Z.mod_pow2_bits_low by lia. reflexivity.
    - rewrite Z.mod_pow2_bits_high by lia. rewrite Z.lxor_spec.
      rewrite <- (Z.mod_small a (2 ^ 8)), <- (Z.mod_small b (2 ^ 8)) by lia.
      rewrite !Z.mod_pow2_bits_high by lia. reflexivity. }
  rewrite E. apply Z.mod_pos_bound. lia.
Qed.

Lemma be_bytes_bytes (n : nat) (x : Z) : all_bytes (SHA256.be_bytes n x).
Proof.
  induction n as [|n IH]; cbn [SHA256.be_bytes]; constructor; [|exact IH].
  apply land_255_byte.
Qed.

Lemma digest_bytes (msg : bytes) : all_bytes (SHA256.digest msg).
Proof.
  unfold SHA256.digest. generalize (SHA256.blocks (length (SHA256.pad msg) / 64)
                                                  SHA256.H0 (SHA256.pad msg)).
  intro l. induction l as [|x l IH]; cbn [flat_map]; [constructor|].
  apply Forall_app. split; [apply be_bytes_bytes|exact IH].
Qed.

Lemma hmac_bytes (key msg : bytes) : all_bytes (hmac_sha256 key msg).
Proof. apply digest_bytes. Qed.

Lemma xor_bytes_bytes (a b : bytes) :
  all_bytes a -> all_bytes b -> all_bytes (xor_bytes a b).
Proof.
  unfold xor_bytes. revert b. induction a as [|x a IH]; intros [|y b] Ha Hb;
    cbn [combine map]; try constructor.
  - inversion Ha; inversion Hb; subst. apply lxor_byte; assumption.
  - inversion Ha; inversion Hb; subst. apply IH; assumption.
Qed.

Lemma iter_invariant {A : Type} (P : A -> Prop) (f : A -> A) (n : N) (a : A) :
  P a -> (forall x, P x -> P (f x)) -> P (N.iter n f a).
Proof.
  intros Ha Hf. induction n as [|n IH] using N.peano_ind; [exact Ha|].
  rewrite N.iter_succ. apply Hf, IH.
Qed.

Lemma iter_ext {A : Type} (f g : A -> A) (n : N) (a : A) :
  (forall x, f x = g x) -> N.iter n f a = N.iter n g a.
Proof.
  intro H. induction n as [|n IH] using N.peano_ind; [reflexivity|].
  rewrite !N.iter_succ, IH. apply H.
Qed.

Lemma pbkdf2_bytes (password salt : bytes) (iterations : Z) :
  all_bytes (pbkdf2_hmac_sha256 password salt iterations).
Proof.
  unfold pbkdf2_hmac_sha256.
  apply (iter_invariant (fun st => all_bytes (fst st) /\ all_bytes (snd st))).
  - split; apply hmac_bytes.
  - intros [prev rkey] [H1 H2]. unfold pbkdf2_step. cbn [fst snd].
    split; [apply hmac_bytes|]. apply xor_bytes_bytes; [exact H2|apply hmac_bytes].
Qed.

(** The derived key depends on the password through the HMAC key block
    only. *)
Lemma pbkdf2_key_block (p p' salt : bytes) (iterations : Z) :
  hmac_key_block p' = hmac_key_block p ->
  pbkdf2_hmac_sha256 p' salt iterations = pbkdf2_hmac_sha256 p salt iterations.
Proof.
  intro H.
  assert (E : forall msg, hmac_sha256 p' msg = hmac_sha256 p msg)
    by (intro msg; unfold hmac_sha256; rewrite H; reflexivity).
  unfold pbkdf2_hmac_sha256. rewrite E. f_equal. apply iter_ext.
  intro st. unfold pbkdf2_step. rewrite E. reflexivity.
Qed.

(** A key shorter than the block and the same key followed by a zero byte
    have the same key block. *)
Lemma hmac_key_block_nul (p : bytes) :
  (length p < 64)%nat -> hmac_key_block (p ++ [0]) = hmac_key_block p.
Proof.
  intro H. unfold hmac_key_block, block_size. rewrite length_app. cbn [length].
  replace (64 <? Z.of_nat (length p + 1)) with false by (symmetry; apply Z.ltb_ge; lia).
  replace (64 <? Z.of_nat (length p)) with false by (symmetry; apply Z.ltb_ge; lia).
  rewrite length_app. cbn [length]. rewrite <- app_assoc. f_equal.
  replace (Z.to_nat (64 - Z.of_nat (length p)))
    with (S (Z.to_nat (64 - Z.of_nat (length p + 1)))) by lia.
  reflexivity.
Qed.

Lemma Ok_inj {A : Type} (a b : A) : Ok a = Ok b -> a = b.
Proof. intro H. injection H. auto. Qed.

Lemma hash_password_encoded (password salt : pystr) (p s : bytes) (w : world) :
  str_encode password = Ok p -> str_encode salt = Ok s ->
  hash_password (VStr password) (Some salt) w
  = (Ok (b64encode (pbkdf2_hmac_sha256 p s 100000), salt), w).
Proof.
  intros Hp Hs. unfold hash_password.
  eapply bindM_step; [reflexivity|].
  eapply bindM_step; [apply lift_eq; exact Hp|].
  eapply bindM_step; [apply lift_eq; exact Hs|].
  eapply bindM_step; [apply lift_eq, bytes_decode_ascii, b64encode_ascii|].
  reflexivity.
Qed.

Lemma verify_password_encoded (password salt pwd_hash : pystr) (p s : bytes) (w : world) :
  str_encode password = Ok p -> str_encode salt = Ok s ->
  verify_password (VStr password) pwd_hash salt w
  = (Ok (str_eqb (b64encode (pbkdf2_hmac_sha256 p s 100000)) pwd_hash), w).
Proof.
  intros Hp Hs. unfold verify_password.
  eapply bindM_step; [apply (hash_password_encoded _ _ _ _ _ Hp Hs)|]. reflexivity.
Qed.

Lemma str_eqb_neq (a b : pystr) : str_eqb a b = false <-> a <> b.
Proof.
  split.
  - intros H E. apply str_eqb_eq in E. congruence.
  - intro H. destruct (str_eqb a b) eqn:E; [|reflexivity].
    apply str_eqb_eq in E. contradiction.
Qed.

(** C2, as amended: for UTF-8-encodable P, P' and S, P verifies against its
    own digest, and P' verifies against it exactly when PBKDF2 derives the
    same key for P' as for P; it is refused exactly when the keys differ. *)
Theorem verify_password_spec (P P' S : pystr) (w : world) :
  is_text P = true -> is_text P' = true -> is_text S = true ->
  exists digest,
    hash_password (VStr P) (Some S) w = (Ok (digest, S), w)
    /\ verify_password (VStr P) digest S w = (Ok true, w)
    /\ ((verify_password (VStr P') digest S w = (Ok true, w)
         /\ derived_key P' S = derived_key P S)
        \/ (verify_password (VStr P') digest S w = (Ok false, w)
            /\ derived_key P' S <> derived_key P S)).
Proof.
  intros HP HP' HS.
  destruct (str_encode_text P HP) as [p Ep].
  destruct (str_encode_text P' HP') as [p' Ep'].
  destruct (str_encode_text S HS) as [s Es].
  exists (b64encode (pbkdf2_hmac_sha256 p s 100000)).
  split; [apply (hash_password_encoded _ _ _ _ _ Ep Es)|].
  split.
  - rewrite (verify_password_encoded _ _ _ _ _ _ Ep Es), str_eqb_refl. reflexivity.
  - rewrite (verify_password_encoded _ _ _ _ _ _ Ep' Es).
    unfold derived_key. rewrite Ep, Ep', Es. cbn [bind].
    destruct (str_eqb (b64encode (pbkdf2_hmac_sha256 p' s 100000))
                      (b64encode (pbkdf2_hmac_sha256 p s 100000))) eqn:E.
    + left. split; [reflexivity|]. apply str_eqb_eq in E.
      apply b64encode_injective in E; [congruence|apply pbkdf2_bytes..].
    + right. split; [reflexivity|]. apply str_eqb_neq in E.
      intro H. apply E. apply Ok_inj in H. rewrite H. reflexivity.
Qed.

Lemma verify_password_spec_witness :
  exists digest,
    hash_password (VStr (lit "Hidalgoajhb41")) (Some (lit "00ff")) seeded_world
    = (Ok (digest, lit "00ff"), seeded_world)
    /\ verify_password (VStr (lit "Hidalgoajhb41")) digest (lit "00ff") seeded_world
       = (Ok true, seeded_world)
    /\ ((verify_password (VStr (lit "hidalgo")) digest (lit "00ff") seeded_world
         = (Ok true, seeded_world)
         /\ derived_key (lit "hidalgo") (lit "00ff")
            = derived_key (lit "Hidalgoajhb41") (lit "00ff"))
        \/ (verify_password (VStr (lit "hidalgo")) digest (lit "00ff") seeded_world
            = (Ok false, seeded_world)
            /\ derived_key (lit "hidalgo") (lit "00ff")
               <> derived_key (lit "Hidalgoajhb41") (lit "00ff"))).
Proof.
  exact (verify_password_spec (lit "Hidalgoajhb41") (lit "hidalgo") (lit "00ff")
           seeded_world eq_refl eq_refl eq_refl).
Defined.

(** C2 (counterexample): the password "a" followed by U+0000 differs from
    "a" and verifies against the digest of "a". *)
Lemma nul_padded_password_verifies :
  [97; 0] <> [97]
  /\ exists digest,
       hash_password (VStr [97]) (Some (lit "00ff")) seeded_world
       = (Ok (digest, lit "00ff"), seeded_world)
       /\ verify_password (VStr [97; 0]) digest (lit "00ff") seeded_world
          = (Ok true, seeded_world).
Proof.
  split; [discriminate|].
  exists (b64encode (pbkdf2_hmac_sha256 [97] (lit "00ff") 100000)).
  split; [apply hash_password_encoded; reflexivity|].
  rewrite (verify_password_encoded [97; 0] (lit "00ff") _ [97; 0] (lit "00ff"))
    by reflexivity.
  rewrite (pbkdf2_key_block [97] ([97] ++ [0])) by (apply hmac_key_block_nul; cbn; lia).
  rewrite str_eqb_refl. reflexivity.
Qed.

(** A password that UTF-8 cannot encode makes both functions raise. *)
Lemma hash_password_not_text (P : pystr) (salt : pystr) (w : world) :
  is_text P = false ->
  hash_password (VStr P) (Some salt) w = (Raise UnicodeEncodeError, w).
Proof.
  intro H. unfold hash_password.
  eapply bindM_step; [reflexivity|].
  apply bindM_raise. apply lift_eq. cbn [py_encode]. apply str_encode_not_text, H.
Qed.
(** ** Unpadded URL-safe Base64 *)

Lemma url_keep (v : Z) :
  0 <= v < 64 -> negb (url_char v =? 61) = true.
Proof.
  intro H. destruct (urlsafe_char_spec v H) as [E _]. unfold url_char.
  rewrite E. reflexivity.
Qed.

Lemma base64url_encode_3 (x y z : Z) (r : bytes) :
  0 <= x < 256 -> 0 <= y < 256 -> 0 <= z < 256 ->
  base64url_encode (x :: y :: z :: r)
  = url_char (x / 4) :: url_char (x mod 4 * 16 + y / 16)
    :: url_char (y mod 16 * 4 + z / 64) :: url_char (z mod 64)
    :: base64url_encode r.
Proof.
  intros Hx Hy Hz. unfold base64url_encode. cbn [b64encode map filter].
  fold (url_char (x / 4)). fold (url_char (x mod 4 * 16 + y / 16)).
  fold (url_char (y mod 16 * 4 + z / 64)). fold (url_char (z mod 64)).
  rewrite !url_keep by zlia. reflexivity.
Qed.

Lemma base64url_encode_2 (x y : Z) :
  0 <= x < 256 -> 0 <= y < 256 ->
  base64url_encode [x; y]
  = [url_char (x / 4); url_char (x mod 4 * 16 + y / 16); url_char (y mod 16 * 4)].
Proof.
  intros Hx Hy. unfold base64url_encode. cbn [b64encode map filter].
  fold (url_char (x / 4)). fold (url_char (x mod 4 * 16 + y / 16)).
  fold (url_char (y mod 16 * 4)).
  rewrite !url_keep by zlia. reflexivity.
Qed.

Lemma base64url_encode_1 (x : Z) :
  0 <= x < 256 ->
  base64url_encode [x] = [url_char (x / 4); url_char (x mod 4 * 16)].
Proof.
  intros Hx. unfold base64url_encode. cbn [b64encode map filter].
  fold (url_char (x / 4)). fold (url_char (x mod 4 * 16)).
  rewrite !url_keep by zlia. reflexivity.
Qed.

Lemma std_of_url_char (v : Z) : 0 <= v < 64 -> std_of_urlsafe (url_char v) = b64_char v.
Proof. intro H. apply (urlsafe_char_spec v H). Qed.

Lemma base64url_length (b : bytes) :
  all_bytes b ->
  exists q, 0 <= q /\ Z.of_nat (length (base64url_encode b)) = 4 * q + url_rem b.
Proof.
  induction b as [|x|x y|x y z r IH] using list_ind3; intro Hb.
  - exists 0. split; [lia|reflexivity].
  - inversion Hb; subst. rewrite base64url_encode_1 by assumption.
    exists 0. split; [lia|reflexivity].
  - inversion Hb as [|? ? Hx Hb']; subst. inversion Hb'; subst.
    rewrite base64url_encode_2 by assumption. exists 0. split; [lia|reflexivity].
  - inversion Hb as [|? ? Hx Hb']; subst. inversion Hb' as [|? ? Hy Hb'']; subst.
    inversion Hb'' as [|? ? Hz Hr]; subst.
    rewrite base64url_encode_3 by assumption.
    destruct (IH Hr) as [q [Hq E]]. exists (q + 1). split; [lia|].
    cbn [length url_rem]. lia.
Qed.

Lemma url_rem_range (b : bytes) : url_rem b = 0 \/ url_rem b = 2 \/ url_rem b = 3.
Proof. induction b as [|x|x y|x y z r IH] using list_ind3; cbn [url_rem]; auto. Qed.

Lemma a2b_url_encode (b : bytes) :
  all_bytes b ->
  forall out,
    a2b_base64 (map std_of_urlsafe
                    (base64url_encode b
                     ++ repeat 61 (Z.to_nat (if 0 <? url_rem b then 4 - url_rem b else 0))))
               0 0 0 out
    = Ok (rev out ++ b).
Proof.
  induction b as [|x|x y|x y z r IH] using list_ind3; intros Hb out.
  - cbn. rewrite app_nil_r. reflexivity.
  - inversion Hb as [|? ? Hx _]; subst. rewrite base64url_encode_1 by assumption.
    cbn [url_rem]. change (Z.to_nat (if 0 <? 2 then 4 - 2 else 0)) with 2%nat.
    cbn [app map repeat]. rewrite !std_of_url_char by zlia.
    do 2 a2b_next. cbn. zbool. do 3 f_equal. zlia.
  - inversion Hb as [|? ? Hx Hb']; subst. inversion Hb' as [|? ? Hy _]; subst.
    rewrite base64url_encode_2 by assumption.
    cbn [url_rem]. change (Z.to_nat (if 0 <? 3 then 4 - 3 else 0)) with 1%nat.
    cbn [app map repeat]. rewrite !std_of_url_char by zlia.
    do 3 a2b_next. cbn. zbool.
    rewrite <- !app_assoc. cbn [app]. do 3 f_equal; [zlia|f_equal; zlia].
  - inversion Hb as [|? ? Hx Hb']; subst. inversion Hb' as [|? ? Hy Hb'']; subst.
    inversion Hb'' as [|? ? Hz Hr]; subst.
    rewrite base64url_encode_3 by assumption.
    cbn [url_rem app map]. rewrite !std_of_url_char by zlia.
    do 4 a2b_next. rewrite (IH Hr). cbn [rev]. rewrite <- !app_assoc. cbn [app].
    do 3 f_equal; [zlia|f_equal; [zlia|f_equal; zlia]].
Qed.

(** PyJWT's decoder undoes its encoder. *)
Lemma base64url_decode_encode (b : bytes) :
  all_bytes b -> base64url_decode (base64url_encode b) = Ok b.
Proof.
  intro Hb. unfold base64url_decode, b64decode_bytes.
  destruct (base64url_length b Hb) as [q [Hq E]].
  assert (R : Z.of_nat (length (base64url_encode b)) mod 4 = url_rem b).
  { rewrite E. pose proof (url_rem_range b). zlia. }
  rewrite R. pose proof (a2b_url_encode b Hb []) as H.
  destruct (0 <? url_rem b) eqn:L.
  - exact H.
  - cbn [Z.to_nat repeat] in H. rewrite app_nil_r in H. exact H.
Qed.

Lemma url_char_plain (v : Z) :
  0 <= v < 64 -> url_char v <> 46 /\ 0 <= url_char v < 128.
Proof. intro H. destruct (urlsafe_char_spec v H) as [_ [A [_ B]]]. split; assumption. Qed.

Lemma base64url_plain (b : bytes) :
  all_bytes b -> no_dot (base64url_encode b) /\ is_ascii (base64url_encode b) = true.
Proof.
  unfold no_dot.
  induction b as [|x|x y|x y z r IH] using list_ind3; intro Hb.
  - split; [constructor|reflexivity].
  - inversion Hb as [|? ? Hx _]; subst. rewrite base64url_encode_1 by assumption.
    split.
    + repeat constructor; apply url_char_plain; zlia.
    + repeat (apply is_ascii_cons; split; [apply url_char_plain; zlia|]). reflexivity.
  - inversion Hb as [|? ? Hx Hb']; subst. inversion Hb' as [|? ? Hy _]; subst.
    rewrite base64url_encode_2 by assumption. split.
    + repeat constructor; apply url_char_plain; zlia.
    + repeat (apply is_ascii_cons; split; [apply url_char_plain; zlia|]). reflexivity.
  - inversion Hb as [|? ? Hx Hb']; subst. inversion Hb' as [|? ? Hy Hb'']; subst.
    inversion Hb'' as [|? ? Hz Hr]; subst.
    rewrite base64url_encode_3 by assumption. destruct (IH Hr) as [A B]. split.
    + repeat (constructor; [apply url_char_plain; zlia|]). exact A.
    + repeat (apply is_ascii_cons; split; [apply url_char_plain; zlia|]). exact B.
Qed.

Lemma ascii_bytes (b : bytes) : is_ascii b = true -> all_bytes b.
Proof.
  intro H. apply Forall_forall. intros c Hc.
  pose proof (is_ascii_in b c H Hc). lia.
Qed.
(** ** Decimal integers *)

Lemma scan_digits_stop (c : Z) (rest : pystr) (n : Z) :
  is_digit c = false -> scan_digits (c :: rest) n = (n, c :: rest).
Proof. intro H. cbn [scan_digits]. rewrite H. reflexivity. Qed.

Lemma scan_digits_fuel (f : nat) :
  forall (m : Z) (acc rest : pystr),
    0 <= m < 10 ^ (Z.of_nat f + 1) ->
    scan_digits (digits_fuel f m acc ++ rest) 0 = scan_digits (acc ++ rest) m.
Proof.
  induction f as [|f IH]; intros m acc rest Hm.
  - change (10 ^ (Z.of_nat 0 + 1)) with 10 in Hm.
    cbn [digits_fuel app scan_digits]. unfold is_digit. zbool. cbn [andb].
    f_equal. lia.
  - cbn [digits_fuel]. destruct (Z.ltb_spec m 10) as [L|L].
    + cbn [app scan_digits]. unfold is_digit. zbool. cbn [andb]. f_equal. lia.
    + rewrite Nat2Z.inj_succ, Z.add_succ_l, Z.pow_succ_r in Hm by lia.
      rewrite IH by zlia.
      cbn [app scan_digits]. unfold is_digit. zbool. cbn [andb]. f_equal. zlia.
Qed.

Lemma digits_fuel_head (f : nat) :
  forall (m : Z) (acc : pystr),
    1 <= m < 10 ^ (Z.of_nat f + 1) ->
    exists d t, 49 <= d <= 57 /\ digits_fuel f m acc = d :: t.
Proof.
  induction f as [|f IH]; intros m acc Hm.
  - change (10 ^ (Z.of_nat 0 + 1)) with 10 in Hm.
    exists (48 + m), acc. split; [lia|reflexivity].
  - cbn [digits_fuel]. destruct (Z.ltb_spec m 10) as [L|L].
    + exists (48 + m), acc. split; [lia|reflexivity].
    + rewrite Nat2Z.inj_succ, Z.add_succ_l, Z.pow_succ_r in Hm by lia.
      apply IH. zlia.
Qed.

Lemma digits_fuel_ascii (f : nat) :
  forall (m : Z) (acc : pystr),
    0 <= m < 10 ^ (Z.of_nat f + 1) -> is_ascii acc = true ->
    is_ascii (digits_fuel f m acc) = true.
Proof.
  induction f as [|f IH]; intros m acc Hm Hacc.
  - change (10 ^ (Z.of_nat 0 + 1)) with 10 in Hm.
    cbn [digits_fuel]. apply is_ascii_cons. split; [lia|exact Hacc].
  - cbn [digits_fuel]. destruct (Z.ltb_spec m 10) as [L|L].
    + apply is_ascii_cons. split; [lia|exact Hacc].
    + rewrite Nat2Z.inj_succ, Z.add_succ_l, Z.pow_succ_r in Hm by lia.
      apply IH; [zlia|]. apply is_ascii_cons. split; [zlia|exact Hacc].
Qed.

Lemma digits_bound (m : Z) :
  0 <= m -> 0 <= m < 10 ^ (Z.of_nat (Z.to_nat (Z.log2 m)) + 1).
Proof.
  intro H. split; [exact H|]. rewrite Z2Nat.id by apply Z.log2_nonneg.
  destruct (Z.eq_dec m 0) as [->|N]; [reflexivity|].
  destruct (Z.log2_spec m) as [_ U]; [lia|].
  apply Z.lt_le_trans with (1 := U). rewrite <- Z.add_1_r.
  apply Z.pow_le_mono_l. lia.
Qed.

Lemma decimal_ascii (n : Z) : is_ascii (decimal n) = true.
Proof.
  unfold decimal, digits. destruct (Z.ltb_spec n 0).
  - apply is_ascii_cons. split; [lia|].
    apply digits_fuel_ascii; [apply digits_bound; lia|reflexivity].
  - apply digits_fuel_ascii; [apply digits_bound; lia|reflexivity].
Qed.

Lemma decimal_head (n : Z) :
  exists h t, decimal n = h :: t /\ (h = 45 \/ 48 <= h <= 57).
Proof.
  unfold decimal, digits. destruct (Z.ltb_spec n 0) as [L|L].
  - eexists; eexists. split; [reflexivity|]. left. reflexivity.
  - destruct (Z.eq_dec n 0) as [->|N].
    + exists 48, []. split; [reflexivity|]. right. lia.
    + destruct (digits_fuel_head (Z.to_nat (Z.log2 n)) n []) as [d [t [Hd E]]].
      { pose proof (digits_bound n L). lia. }
      exists d, t. split; [exact E|]. right. lia.
Qed.

Lemma scan_natural_digits (m c : Z) (rest : pystr) :
  0 <= m -> ends_number c ->
  scan_natural (digits m ++ c :: rest) = Some (m, c :: rest).
Proof.
  intros Hm Hc. unfold scan_natural. destruct (Z.eq_dec m 0) as [->|N].
  - reflexivity.
  - unfold digits.
    destruct (digits_fuel_head (Z.to_nat (Z.log2 m)) m []) as [d [t [Hd E]]].
    { pose proof (digits_bound m Hm). lia. }
    rewrite scan_digits_fuel by (apply digits_bound; exact Hm).
    rewrite E. cbn [app]. unfold is_digit at 1. zbool. cbn [andb app].
    rewrite scan_digits_stop; [reflexivity|].
    unfold is_digit. destruct Hc; subst; reflexivity.
Qed.

(** Reading back a printed integer. *)
Lemma scan_number_decimal (n c : Z) (rest : pystr) :
  ends_number c -> scan_number (decimal n ++ c :: rest) = Some (n, c :: rest).
Proof.
  intro Hc. unfold scan_number, decimal. destruct (Z.ltb_spec n 0) as [L|L].
  - cbn [app]. change (45 =? 45) with true. cbv iota.
    rewrite (scan_natural_digits (- n) c rest) by (try lia; exact Hc).
    rewrite Z.opp_involutive. destruct Hc; subst; reflexivity.
  - pose proof (scan_natural_digits n c rest L Hc) as H.
    destruct (decimal_head n) as [h [t [E Hh]]].
    unfold decimal in E. destruct (Z.ltb_spec n 0); [lia|].
    rewrite E in *. cbn [app] in *.
    replace (h =? 45) with false.
    + rewrite H. destruct Hc; subst; reflexivity.
    + symmetry. apply Z.eqb_neq. intros ->. unfold digits in E.
      destruct (Z.eq_dec n 0) as [->|N]; [discriminate|].
      destruct (digits_fuel_head (Z.to_nat (Z.log2 n)) n []) as [d [t' [Hd E']]].
      { pose proof (digits_bound n L). lia. }
      rewrite E' in E. inversion E. lia.
Qed.

Lemma scan_once_number (f : nat) (n c : Z) (rest : pystr) :
  ends_number c ->
  scan_once (S f) (decimal n ++ c :: rest) = Some (VInt n, c :: rest).
Proof.
  intro Hc. pose proof (scan_number_decimal n c rest Hc) as H.
  destruct (decimal_head n) as [h [t [E Hh]]]. rewrite E in *. cbn [app] in *.
  cbn [scan_once]. zbool. rewrite H. reflexivity.
Qed.

Lemma skip_ws_decimal (n : Z) (rest : pystr) :
  skip_ws (decimal n ++ rest) = decimal n ++ rest.
Proof.
  destruct (decimal_head n) as [h [t [E Hh]]]. rewrite E. cbn [app skip_ws].
  unfold is_ws. zbool. reflexivity.
Qed.
(** ** JSON strings *)

Lemma hex_value_digit (v : Z) : 0 <= v < 16 -> hex_value (hex_digit v) = Some v.
Proof.
  intro H. unfold hex_value, hex_digit.
  destruct (Z.ltb_spec v 10); zbool; cbn [andb]; f_equal; lia.
Qed.

Lemma hex4_escape (u : Z) :
  0 <= u < 65536 ->
  hex4 (hex_digit (u / 4096)) (hex_digit (u / 256 mod 16))
       (hex_digit (u / 16 mod 16)) (hex_digit (u mod 16)) = Some u.
Proof.
  intro H. unfold hex4. rewrite !hex_value_digit by zlia. f_equal. zlia.
Qed.

Lemma hex_digit_ascii (v : Z) : 0 <= v < 16 -> 0 <= hex_digit v < 128.
Proof. intro H. unfold hex_digit. destruct (v <? 10); lia. Qed.

Lemma u_escape_ascii (u : Z) : 0 <= u < 65536 -> is_ascii (u_escape u) = true.
Proof.
  intro H. unfold u_escape.
  repeat (apply is_ascii_cons; split; [first [lia | apply hex_digit_ascii; zlia]|]).
  reflexivity.
Qed.

(** An escape of four hex digits that is no first half of a pair. *)
Lemma scan_string_u (u h1 h2 h3 h4 : Z) (r acc : pystr) :
  hex4 h1 h2 h3 h4 = Some u -> is_high_surrogate u = false ->
  scan_string (92 :: 117 :: h1 :: h2 :: h3 :: h4 :: r) acc = scan_string r (u :: acc).
Proof.
  intros H S. cbn [scan_string].
  change (92 =? 34) with false. change (92 =? 92) with true.
  change (117 =? 117) with true. cbv iota. rewrite H, S. cbn [andb].
  destruct r as [|b [|u' [|g1 [|g2 [|g3 [|g4 r4]]]]]]; reflexivity.
Qed.

(** The two escapes of a code point above U+FFFF. *)
Lemma scan_string_pair (u u2 h1 h2 h3 h4 g1 g2 g3 g4 : Z) (r acc : pystr) :
  hex4 h1 h2 h3 h4 = Some u -> is_high_surrogate u = true ->
  hex4 g1 g2 g3 g4 = Some u2 -> is_low_surrogate u2 = true ->
  scan_string (92 :: 117 :: h1 :: h2 :: h3 :: h4
               :: 92 :: 117 :: g1 :: g2 :: g3 :: g4 :: r) acc
  = scan_string r (0x10000 + (u - 0xD800) * 1024 + (u2 - 0xDC00) :: acc).
Proof.
  intros H S H2 S2.
  remember (92 :: 117 :: g1 :: g2 :: g3 :: g4 :: r) as r2 eqn:E.
  cbn [scan_string].
  change (92 =? 34) with false. change (92 =? 92) with true.
  change (117 =? 117) with true. cbv iota. rewrite H. subst r2. cbv iota.
  rewrite S. change (92 =? 92) with true. change (117 =? 117) with true.
  cbn [andb]. cbv iota. rewrite H2, S2. reflexivity.
Qed.

(** One code point of a string, as [json.dumps] writes it, read back. *)
Lemma scan_string_escape (c : Z) (r acc : pystr) :
  is_scalar c = true ->
  scan_string (json_escape_cp c ++ r) acc = scan_string r (c :: acc).
Proof.
  intro H. apply is_scalar_range in H. unfold json_escape_cp.
  destruct (Z.eqb_spec c 34) as [->|N1]; [reflexivity|].
  destruct (Z.eqb_spec c 92) as [->|N2]; [reflexivity|].
  destruct (Z.eqb_spec c 10) as [->|N3]; [reflexivity|].
  destruct (Z.eqb_spec c 13) as [->|N4]; [reflexivity|].
  destruct (Z.eqb_spec c 9) as [->|N5]; [reflexivity|].
  destruct (Z.eqb_spec c 8) as [->|N6]; [reflexivity|].
  destruct (Z.eqb_spec c 12) as [->|N7]; [reflexivity|].
  destruct (andb (32 <=? c) (c <=? 126)) eqn:P.
  - apply andb_true_iff in P. destruct P as [P1 P2].
    apply Z.leb_le in P1. apply Z.leb_le in P2.
    cbn [app scan_string]. zbool. reflexivity.
  - destruct (Z.ltb_spec c 0x10000) as [L|L].
    + unfold u_escape. cbn [app]. apply scan_string_u.
      * apply hex4_escape. lia.
      * unfold is_high_surrogate.
        apply andb_false_iff. destruct H as [H|H];
          [left; apply Z.leb_gt; lia | right; apply Z.leb_gt; lia].
    + unfold u_escape. cbn [app].
      rewrite (scan_string_pair (0xD800 + (c - 0x10000) / 1024)
                                (0xDC00 + (c - 0x10000) mod 1024)).
      * f_equal. f_equal. zlia.
      * apply hex4_escape. zlia.
      * unfold is_high_surrogate. apply andb_true_iff.
        split; apply Z.leb_le; zlia.
      * apply hex4_escape. zlia.
      * unfold is_low_surrogate. apply andb_true_iff.
        split; apply Z.leb_le; zlia.
Qed.

Lemma scan_string_body (s : pystr) :
  is_text s = true ->
  forall (rest acc : pystr),
    scan_string (flat_map json_escape_cp s ++ 34 :: rest) acc
    = Some (rev acc ++ s, rest).
Proof.
  induction s as [|c s IH]; intros T rest acc.
  - cbn [flat_map app scan_string]. change (34 =? 34) with true. cbv iota.
    rewrite app_nil_r. reflexivity.
  - apply is_text_cons in T. destruct T as [Tc Ts].
    cbn [flat_map]. rewrite <- app_assoc, scan_string_escape by exact Tc.
    rewrite (IH Ts). cbn [rev]. rewrite <- app_assoc. reflexivity.
Qed.

Lemma json_escape_ascii (c : Z) :
  is_scalar c = true -> is_ascii (json_escape_cp c) = true.
Proof.
  intro H. apply is_scalar_range in H. unfold json_escape_cp.
  repeat match goal with
         | |- context [if ?x =? ?y then _ else _] =>
             destruct (Z.eqb_spec x y); [reflexivity|]
         end.
  destruct (andb (32 <=? c) (c <=? 126)) eqn:P.
  - apply andb_true_iff in P. destruct P as [P1 P2].
    apply Z.leb_le in P1. apply Z.leb_le in P2.
    apply is_ascii_cons. split; [lia|reflexivity].
  - destruct (Z.ltb_spec c 0x10000) as [L|L].
    + apply u_escape_ascii. lia.
    + apply is_ascii_app. split; apply u_escape_ascii; zlia.
Qed.

Lemma json_quote_ascii (s : pystr) : is_text s = true -> is_ascii (json_quote s) = true.
Proof.
  intro T. unfold json_quote. apply is_ascii_cons. split; [lia|].
  apply is_ascii_app. split; [|reflexivity].
  induction s as [|c s IH]; [reflexivity|].
  apply is_text_cons in T. destruct T as [Tc Ts].
  cbn [flat_map]. apply is_ascii_app. split; [apply json_escape_ascii, Tc|apply IH, Ts].
Qed.
(** ** JSON objects of a token *)

Lemma skip_ws_keep (c : Z) (r : pystr) : is_ws c = false -> skip_ws (c :: r) = c :: r.
Proof. intro H. cbn [skip_ws]. rewrite H. reflexivity. Qed.

Lemma scan_once_string (f : nat) (v rest : pystr) :
  is_text v = true ->
  scan_once (S f) (34 :: flat_map json_escape_cp v ++ 34 :: rest) = Some (VStr v, rest).
Proof.
  intro T.
  transitivity (match scan_string (flat_map json_escape_cp v ++ 34 :: rest) [] with
                | Some (str, r') => Some (VStr str, r')
                | None => None
                end); [reflexivity|].
  rewrite scan_string_body by exact T. reflexivity.
Qed.

(** One step of [scan_members]: the key, the colon, the value and what
    follows it. *)
Lemma scan_members_step (f : nat) (k : pystr) (v : pyval) (text r3 : pystr)
    (acc : dict) (c2 : Z) :
  is_text k = true ->
  skip_ws text = text ->
  scan_once f text = Some (v, c2 :: r3) ->
  is_ws c2 = false ->
  scan_members (S f) (flat_map json_escape_cp k ++ 34 :: 58 :: text) acc
  = if c2 =? 125 then Some (VDict (dict_set acc k v), r3)
    else if c2 =? 44 then
      match skip_ws r3 with
      | c3 :: r4 =>
          if c3 =? 34 then scan_members f r4 (dict_set acc k v) else None
      | [] => None
      end
    else None.
Proof.
  intros T W V C.
  transitivity
    (match scan_string (flat_map json_escape_cp k ++ 34 :: 58 :: text) [] with
     | None => None
     | Some (key, r) =>
         match skip_ws r with
         | c :: r1 =>
             if c =? 58 then
               match scan_once f (skip_ws r1) with
               | None => None
               | Some (v, r2) =>
                   match skip_ws r2 with
                   | c2 :: r3 =>
                       if c2 =? 125 then Some (VDict (dict_set acc key v), r3)
                       else if c2 =? 44 then
                         match skip_ws r3 with
                         | c3 :: r4 =>
                             if c3 =? 34 then scan_members f r4 (dict_set acc key v)
                             else None
                         | [] => None
                         end
                       else None
                   | [] => None
                   end
               end
             else None
         | [] => None
         end
     end); [reflexivity|].
  rewrite scan_string_body by exact T. cbn [rev app].
  rewrite (skip_ws_keep 58) by reflexivity. change (58 =? 58) with true. cbv iota.
  rewrite W, V, (skip_ws_keep c2) by exact C. reflexivity.
Qed.

Lemma scan_members_int (f : nat) (k : pystr) (n : Z) (rest : pystr) (acc : dict) :
  is_text k = true ->
  scan_members (S (S f))
    (flat_map json_escape_cp k ++ 34 :: 58 :: decimal n ++ 44 :: 34 :: rest) acc
  = scan_members (S f) rest (dict_set acc k (VInt n)).
Proof.
  intro T.
  rewrite (scan_members_step (S f) k (VInt n) _ (34 :: rest) acc 44 T).
  - change (44 =? 125) with false. change (44 =? 44) with true. cbv iota.
    rewrite (skip_ws_keep 34) by reflexivity. reflexivity.
  - apply skip_ws_decimal.
  - apply scan_once_number. left. reflexivity.
  - reflexivity.
Qed.

Lemma scan_members_int_end (f : nat) (k : pystr) (n : Z) (rest : pystr) (acc : dict) :
  is_text k = true ->
  scan_members (S (S f))
    (flat_map json_escape_cp k ++ 34 :: 58 :: decimal n ++ 125 :: rest) acc
  = Some (VDict (dict_set acc k (VInt n)), rest).
Proof.
  intro T.
  rewrite (scan_members_step (S f) k (VInt n) _ rest acc 125 T).
  - reflexivity.
  - apply skip_ws_decimal.
  - apply scan_once_number. right. reflexivity.
  - reflexivity.
Qed.

Lemma scan_members_str (f : nat) (k v rest : pystr) (acc : dict) :
  is_text k = true -> is_text v = true ->
  scan_members (S (S f))
    (flat_map json_escape_cp k ++ 34 :: 58 :: 34 :: flat_map json_escape_cp v
     ++ 34 :: 44 :: 34 :: rest) acc
  = scan_members (S f) rest (dict_set acc k (VStr v)).
Proof.
  intros T Tv.
  rewrite (scan_members_step (S f) k (VStr v) _ (34 :: rest) acc 44 T).
  - change (44 =? 125) with false. change (44 =? 44) with true. cbv iota.
    rewrite (skip_ws_keep 34) by reflexivity. reflexivity.
  - apply skip_ws_keep. reflexivity.
  - apply scan_once_string. exact Tv.
  - reflexivity.
Qed.

Lemma json_dumps_claims (user_id : Z) (username role : pystr) (exp : Z) :
  json_dumps (VDict (token_claims user_id username role exp))
  = claims_text user_id username role exp.
Proof.
  unfold token_claims, claims_text. cbn [json_dumps]. unfold json_quote.
  repeat (rewrite <- ?app_assoc; cbn [app]). reflexivity.
Qed.

Lemma json_dumps_claims_ascii (user_id : Z) (username role : pystr) (exp : Z) :
  is_text username = true -> is_text role = true ->
  is_ascii (json_dumps (VDict (token_claims user_id username role exp))) = true.
Proof.
  intros Tu Tr. unfold token_claims. cbn [json_dumps].
  repeat first
    [ apply decimal_ascii
    | apply json_quote_ascii; first [exact Tu | exact Tr | reflexivity]
    | apply is_ascii_app; split
    | apply is_ascii_cons; split; [lia|]
    | reflexivity ].
Qed.

Lemma json_loads_claims (user_id : Z) (username role : pystr) (exp : Z) :
  is_text username = true -> is_text role = true ->
  json_loads_str (json_dumps (VDict (token_claims user_id username role exp)))
  = Some (VDict (token_claims user_id username role exp)).
Proof.
  intros Tu Tr. rewrite json_dumps_claims. unfold json_loads_str.
  assert (L : exists f, length (claims_text user_id username role exp)
                        = S (S (S (S (S f))))).
  { unfold claims_text. cbn [length]. rewrite length_app. cbn [length].
    rewrite length_app. cbn [length].
    destruct (decimal_head user_id) as (h & t & E & _). rewrite E. cbn [length].
    eexists. rewrite !Nat.add_succ_r. reflexivity. }
  destruct L as [f L]. rewrite L.
  unfold claims_text. rewrite (skip_ws_keep 123) by reflexivity.
  transitivity
    (match scan_members (S (S (S (S (S f)))))
             (flat_map json_escape_cp (lit "user_id") ++ 34 :: 58
              :: decimal user_id ++ 44 :: 34
              :: flat_map json_escape_cp (lit "username") ++ 34 :: 58
              :: 34 :: flat_map json_escape_cp username ++ 34 :: 44 :: 34
              :: flat_map json_escape_cp (lit "role") ++ 34 :: 58
              :: 34 :: flat_map json_escape_cp role ++ 34 :: 44 :: 34
              :: flat_map json_escape_cp (lit "exp") ++ 34 :: 58
              :: decimal exp ++ [125]) [] with
     | Some (v, r) => match skip_ws r with [] => Some v | _ => None end
     | None => None
     end); [reflexivity|].
  rewrite scan_members_int by reflexivity.
  rewrite scan_members_str by (reflexivity || exact Tu).
  rewrite scan_members_str by (reflexivity || exact Tr).
  rewrite scan_members_int_end by reflexivity.
  reflexivity.
Qed.
(** ** Token service *)

Lemma rsplit_dot_none (b : bytes) : no_dot b -> rsplit_dot b = None.
Proof.
  induction 1 as [|c b Hc _ IH]; [reflexivity|].
  cbn [rsplit_dot]. rewrite IH. destruct (Z.eqb_spec c 46); [contradiction|reflexivity].
Qed.

Lemma rsplit_dot_app (a b : bytes) :
  no_dot b -> rsplit_dot (a ++ 46 :: b) = Some (a, b).
Proof.
  intro H. induction a as [|c a IH]; cbn [app rsplit_dot].
  - rewrite (rsplit_dot_none b H). reflexivity.
  - rewrite IH. reflexivity.
Qed.

Lemma split_dot_app (a b : bytes) :
  no_dot a -> split_dot (a ++ 46 :: b) = Some (a, b).
Proof.
  induction 1 as [|c a Hc _ IH]; cbn [app split_dot].
  - reflexivity.
  - destruct (Z.eqb_spec c 46); [contradiction|]. rewrite IH. reflexivity.
Qed.

Lemma header_text_ascii : is_ascii header_text = true.
Proof. vm_compute. reflexivity. Qed.

Lemma header_text_loads : json_loads header_text = Some (VDict jwt_header).
Proof. vm_compute. reflexivity. Qed.

Lemma signing_input_ascii (payload : dict) :
  is_ascii (json_dumps (VDict payload)) = true ->
  is_ascii (signing_input payload) = true.
Proof.
  intro H. unfold signing_input. apply is_ascii_app. split.
  - apply base64url_plain, ascii_bytes, header_text_ascii.
  - apply is_ascii_cons. split; [lia|]. apply base64url_plain, ascii_bytes, H.
Qed.

Lemma signed_token_ascii (payload : dict) (k : bytes) :
  is_ascii (json_dumps (VDict payload)) = true ->
  is_ascii (signed_token payload k) = true.
Proof.
  intro H. unfold signed_token. apply is_ascii_app. split.
  - apply signing_input_ascii, H.
  - apply is_ascii_cons. split; [lia|]. apply base64url_plain, hmac_bytes.
Qed.

Lemma jwt_encode_signed (payload : dict) (key : pystr) (k : bytes) :
  is_ascii (json_dumps (VDict payload)) = true -> str_encode key = Ok k ->
  jwt_encode payload key = Ok (signed_token payload k).
Proof.
  intros H K. unfold jwt_encode. fold header_text.
  rewrite (str_encode_ascii header_text header_text_ascii). cbn [bind].
  rewrite (str_encode_ascii _ H). cbn [bind]. rewrite K. cbn [bind].
  apply bytes_decode_ascii. apply (signed_token_ascii payload k H).
Qed.

Lemma jws_load_signed (payload : dict) (signature : bytes) :
  is_ascii (json_dumps (VDict payload)) = true -> all_bytes signature ->
  jws_load (signing_input payload ++ 46 :: base64url_encode signature)
  = Ok (mkJws (json_dumps (VDict payload)) (signing_input payload) jwt_header signature).
Proof.
  intros H S. unfold jws_load.
  rewrite str_encode_ascii.
  2:{ apply is_ascii_app. split; [apply signing_input_ascii, H|].
      apply is_ascii_cons. split; [lia|]. apply base64url_plain, S. }
  cbn [bind]. rewrite rsplit_dot_app by (apply base64url_plain, S).
  unfold signing_input at 1.
  rewrite split_dot_app by (apply base64url_plain, ascii_bytes, header_text_ascii).
  rewrite base64url_decode_encode by (apply ascii_bytes, header_text_ascii).
  cbn [or_raise bind]. rewrite header_text_loads. cbn [as_dict bind].
  rewrite base64url_decode_encode by (apply ascii_bytes, H).
  cbn [or_raise bind].
  rewrite base64url_decode_encode by exact S.
  reflexivity.
Qed.

Lemma verify_signature_signed (payload_text si : bytes) (key : pystr) (k : bytes) :
  str_encode key = Ok k ->
  jws_verify_signature (mkJws payload_text si jwt_header (hmac_sha256 k si)) key [HS256]
  = Ok tt.
Proof.
  intro K. unfold jws_verify_signature.
  cbn [jws_header jws_signature jws_signing_input].
  change (dict_lookup jwt_header (lit "alg")) with (Some (VStr HS256)). cbv iota.
  change (truthy (VStr HS256)) with true.
  cbn [existsb negb orb]. rewrite str_eqb_refl. cbn [orb negb].
  rewrite K. cbn [bind]. rewrite str_eqb_refl. reflexivity.
Qed.

Lemma validate_token_claims (user_id : Z) (username role : pystr) (exp now : Z) :
  validate_claims (token_claims user_id username role exp) now
  = if exp * second <=? now then Raise jwt_ExpiredSignatureError else Ok tt.
Proof.
  unfold validate_claims.
  change (dict_lookup (token_claims user_id username role exp) (lit "iat")) with (@None pyval).
  change (dict_lookup (token_claims user_id username role exp) (lit "nbf")) with (@None pyval).
  change (dict_lookup (token_claims user_id username role exp) (lit "exp"))
    with (Some (VInt exp)).
  change (dict_lookup (token_claims user_id username role exp) (lit "aud")) with (@None pyval).
  cbn [bind int_claim]. destruct (exp * second <=? now); reflexivity.
Qed.

(** [verify_token] in terms of [jwt.decode]: the two handlers together
    catch the errors PyJWT raises for a token it rejects. *)
Lemma verify_token_decode (token : pystr) (w : world) :
  verify_token token w
  = match jwt_decode token (JWT_SECRET w) [HS256] w with
    | (Ok payload, w') => (Ok (Some payload), w')
    | (Raise e, w') => if is_InvalidTokenError e then (Ok None, w') else (Raise e, w')
    end.
Proof.
  unfold verify_token, try_catch, bindM, ret. cbv beta.
  destruct (jwt_decode token (JWT_SECRET w) [HS256] w) as [[payload|e] w'];
    [reflexivity|]. destruct e; reflexivity.
Qed.

(** The steps of [jwt.decode] after the token has been taken apart. *)
Lemma jwt_decode_loaded (token key : pystr) (algorithms : list pystr) (t : jws)
    (w : world) :
  jws_load token = Ok t ->
  jwt_decode token key algorithms w
  = match dict_lookup (jws_header t) (lit "b64") with
    | Some (VBool false) => (Raise jwt_DecodeError, w)
    | _ =>
        match jws_verify_signature t key algorithms with
        | Raise e => (Raise e, w)
        | Ok _ =>
            match as_dict jwt_DecodeError (json_loads (jws_payload t)) with
            | Raise e => (Raise e, w)
            | Ok payload =>
                match validate_claims payload (w_clock w (w_ticks w)) with
                | Raise e => (Raise e, tick w)
                | Ok _ => (Ok payload, tick w)
                end
            end
        end
    end.
Proof.
  intro L. unfold jwt_decode, bindM, lift, ret. rewrite L.
  destruct (dict_lookup (jws_header t) (lit "b64")) as [[|[|]| | | |]|];
    try reflexivity;
    (destruct (jws_verify_signature t key algorithms) as [[]|e]; [|reflexivity];
     destruct (as_dict jwt_DecodeError (json_loads (jws_payload t))) as [payload|e];
     [|reflexivity];
     unfold tick, utcnow; cbn [snd];
     destruct (validate_claims payload (w_clock w (w_ticks w))) as [[]|e];
     reflexivity).
Qed.

Lemma jwt_decode_not_loaded (token key : pystr) (algorithms : list pystr) (e : exn)
    (w : world) :
  jws_load token = Raise e -> jwt_decode token key algorithms w = (Raise e, w).
Proof. intro L. unfold jwt_decode, bindM, lift. rewrite L. reflexivity. Qed.

(** A token the service signed, verified under the same secret. *)
Lemma verify_signed_token (user_id : Z) (username role : pystr) (exp : Z)
    (k : bytes) (w : world) :
  is_text username = true -> is_text role = true ->
  str_encode (JWT_SECRET w) = Ok k ->
  verify_token (signed_token (token_claims user_id username role exp) k) w
  = if exp * second <=? w_clock w (w_ticks w) then (Ok None, tick w)
    else (Ok (Some (token_claims user_id username role exp)), tick w).
Proof.
  intros Tu Tr K.
  pose proof (json_dumps_claims_ascii user_id username role exp Tu Tr) as A.
  rewrite verify_token_decode. unfold signed_token.
  rewrite (jwt_decode_loaded _ _ _ _ w (jws_load_signed _ _ A (hmac_bytes _ _))).
  cbn [jws_header jws_payload].
  change (dict_lookup jwt_header (lit "b64")) with (@None pyval). cbv iota.
  rewrite (verify_signature_signed _ _ _ k K).
  unfold json_loads. rewrite (bytes_decode_ascii _ A).
  rewrite (json_loads_claims user_id username role exp Tu Tr). cbn [as_dict].
  rewrite validate_token_claims.
  destruct (exp * second <=? w_clock w (w_ticks w)); reflexivity.
Qed.

Lemma generate_token_signed (user_id : Z) (username role : pystr) (k : bytes)
    (w : world) :
  is_text username = true -> is_text role = true ->
  str_encode (JWT_SECRET w) = Ok k ->
  generate_token user_id username role w
  = (Ok (signed_token
           (token_claims user_id username role
                         (timegm (w_clock w (w_ticks w) + hours 24))) k),
     tick w).
Proof.
  intros Tu Tr K. unfold generate_token, bindM, utcnow, lift, tick. cbn [snd JWT_SECRET].
  fold (token_claims user_id username role (timegm (w_clock w (w_ticks w) + hours 24))).
  rewrite (jwt_encode_signed _ _ k (json_dumps_claims_ascii _ _ _ _ Tu Tr) K).
  reflexivity.
Qed.

(** C4: a token [generate_token] issues for a user id, a username and a
    role (text, as the columns of [usuarios] hold it) under the process
    secret carries exactly these three claims and [exp], the clock reading
    of the issue plus 24 hours in whole seconds.  In every later state of
    the same process, [verify_token] returns these claims as long as the
    clock reading it makes is before [exp], and [None] from the instant
    [exp] on. *)
Theorem token_lifetime (user_id : Z) (username role : pystr) (w : world) :
  is_text username = true -> is_text role = true ->
  is_text (JWT_SECRET w) = true ->
  let issued := w_clock w (w_ticks w) in
  let exp := timegm (issued + hours 24) in
  let claims := [(lit "user_id", VInt user_id); (lit "username", VStr username);
                 (lit "role", VStr role); (lit "exp", VInt exp)] in
  issued + hours 24 - second < exp * second <= issued + hours 24
  /\ exists token,
       generate_token user_id username role w = (Ok token, tick w)
       /\ forall w' : world,
            JWT_SECRET w' = JWT_SECRET w ->
            let now := w_clock w' (w_ticks w') in
            (now < exp * second ->
             verify_token token w' = (Ok (Some claims), tick w'))
            /\ (exp * second <= now ->
                verify_token token w' = (Ok None, tick w')).
Proof.
  intros Tu Tr Tk issued exp claims.
  destruct (str_encode_text _ Tk) as [k K].
  split.
  - unfold exp, timegm, second. zlia.
  - eexists. split; [apply (generate_token_signed _ _ _ k w Tu Tr K)|].
    intros w' S now. rewrite <- S in K.
    fold issued. fold exp.
    rewrite (verify_signed_token user_id username role exp k w' Tu Tr K).
    fold now. split; intro H.
    + replace (exp * second <=? now) with false by (symmetry; apply Z.leb_gt; lia).
      reflexivity.
    + replace (exp * second <=? now) with true by (symmetry; apply Z.leb_le; lia).
      reflexivity.
Qed.

Lemma token_lifetime_witness :
  exists token,
    generate_token 1 (lit "DirectorEjecutivoAndres") (lit "director") seeded_world
    = (Ok token, tick seeded_world)
    /\ verify_token token (tick seeded_world)
       = (Ok (Some [(lit "user_id", VInt 1); (lit "username", VStr (lit "DirectorEjecutivoAndres"));
                    (lit "role", VStr (lit "director")); (lit "exp", VInt 1704189599)]),
          tick (tick seeded_world)).
Proof.
  destruct (token_lifetime 1 (lit "DirectorEjecutivoAndres") (lit "director") seeded_world
                           eq_refl eq_refl eq_refl) as [_ [token [G V]]].
  exists token. split; [exact G|].
  destruct (V (tick seeded_world) eq_refl) as [V1 _].
  apply V1. vm_compute. reflexivity.
Defined.

(** ** Tokens [verify_token] rejects *)








(** ** The session a login opens *)

Lemma login_accepted (req : request) (w w1 w2 : world) (d : dict)
    (username password : pyval) (user : usuario) (r : response) :
  req_json req = Ok (VDict d) ->
  dict_lookup d (lit "username") = Some username ->
  dict_lookup d (lit "password") = Some password ->
  truthy username = true -> truthy password = true ->
  select_active_user (w_db w) username = Ok (Some user) ->
  verify_password password (u_password_hash user) (u_salt user) w = (Ok true, w1) ->
  open_session req (w_db w) username user w1 = (Ok r, w2) ->
  login req w = (Ok r, w2).
Proof.
  intros Hbody Hu Hp Tu Tp Hsel Hver Hopen.
  unfold login. apply try_catch_ok.
  eapply bindM_step; [apply lift_eq, Hbody|].
  eapply bindM_step; [apply lift_eq; cbn [py_get]; rewrite Hu; reflexivity|].
  eapply bindM_step; [apply lift_eq; cbn [py_get]; rewrite Hp; reflexivity|].
  rewrite Tu, Tp. cbn [negb orb].
  eapply bindM_step; [reflexivity|].
  eapply bindM_step; [apply lift_eq, Hsel|].
  eapply bindM_step; [exact Hver|]. cbn [negb].
  exact Hopen.
Qed.

Lemma director_password_verifies (w : world) :
  verify_password (VStr (lit "Hidalgoajhb41")) director_hash (lit "00ff") w
  = (Ok true, w).
Proof.
  rewrite (verify_password_encoded (lit "Hidalgoajhb41") (lit "00ff") director_hash
             (lit "Hidalgoajhb41") (lit "00ff") w eq_refl eq_refl).
  unfold director_hash. rewrite str_eqb_refl. reflexivity.
Qed.

Lemma login_at_turn_of_second (h : pystr) :
  (forall w, verify_password (VStr (lit "Hidalgoajhb41")) h (lit "00ff") w = (Ok true, w)) ->
  exists body w',
    login director_login (world_at_turn_of_second h) = (Ok (body, 200), w')
    /\ map (fun s => (s_fecha_inicio s, s_fecha_expiracion s)) (sesiones (w_db w'))
       = [(lit "2024-01-01 09:59:59", lit "2024-01-02 10:00:00")].
Proof.
  intro V.
  assert (E : exists body w',
             open_session director_login (w_db (world_at_turn_of_second h))
                          (VStr (lit "DirectorEjecutivoAndres")) (director_with h)
                          (world_at_turn_of_second h) = (Ok (body, 200), w')
             /\ map (fun s => (s_fecha_inicio s, s_fecha_expiracion s))
                    (sesiones (w_db w'))
                = [(lit "2024-01-01 09:59:59", lit "2024-01-02 10:00:00")]).
  { eexists. eexists.
    assert (E : open_session director_login (w_db (world_at_turn_of_second h))
                             (VStr (lit "DirectorEjecutivoAndres")) (director_with h)
                             (world_at_turn_of_second h)
                = (Ok (?[body], 200), ?[w'])) by (vm_compute; reflexivity).
    split; [exact E|]. vm_compute. reflexivity. }
  destruct E as (body & w' & E & S). exists body, w'. split; [|exact S].
  apply (login_accepted director_login (world_at_turn_of_second h)
           (world_at_turn_of_second h) w'
           [(lit "username", VStr (lit "DirectorEjecutivoAndres"));
            (lit "password", VStr (lit "Hidalgoajhb41"))]
           (VStr (lit "DirectorEjecutivoAndres")) (VStr (lit "Hidalgoajhb41"))
           (director_with h) (body, 200));
    [reflexivity | reflexivity | reflexivity | reflexivity | reflexivity
    | vm_compute; reflexivity | apply V | exact E].
Qed.

(** C8 (the failing input): the director logs in while the clock passes
    10:00:00.  The issue date is read at 09:59:59.999900 and the expiry is
    computed from a second reading, at 10:00:00.000050: the row stores the
    issue 2024-01-01 09:59:59 and the expiry 2024-01-02 10:00:00, one second
    more than the issue plus 24 hours. *)
Theorem login_session_expiry_drifts :
  exists body w',
    login director_login (world_at_turn_of_second director_hash)
    = (Ok (body, 200), w')
    /\ map (fun s => (s_fecha_inicio s, s_fecha_expiracion s)) (sesiones (w_db w'))
       = [(lit "2024-01-01 09:59:59", lit "2024-01-02 10:00:00")]
    /\ strftime (1704103199999900 + hours 24) = lit "2024-01-02 09:59:59".
Proof.
  destruct (login_at_turn_of_second director_hash director_password_verifies)
    as (body & w' & L & S).
  exists body, w'. split; [exact L|]. split; [exact S|]. vm_compute. reflexivity.
Qed.
(** ** The byte field of AES *)

Lemma lxor_interchange (a b c d : Z) :
  Z.lxor (Z.lxor a b) (Z.lxor c d) = Z.lxor (Z.lxor a c) (Z.lxor b d).
Proof. apply Z.bits_inj'. intros n _. rewrite !Z.lxor_spec. btauto. Qed.

Lemma xor3_lxor (p q r s p' q' r' s' : Z) :
  AES.xor3 (Z.lxor p p') (Z.lxor q q') (Z.lxor r r') (Z.lxor s s')
  = Z.lxor (AES.xor3 p q r s) (AES.xor3 p' q' r' s').
Proof.
  unfold AES.xor3. apply Z.bits_inj'. intros n _. rewrite !Z.lxor_spec. btauto.
Qed.

Lemma xor3_byte (p q r s : Z) :
  0 <= p < 256 -> 0 <= q < 256 -> 0 <= r < 256 -> 0 <= s < 256 ->
  0 <= AES.xor3 p q r s < 256.
Proof. intros. unfold AES.xor3. repeat apply lxor_byte; assumption. Qed.

Lemma in_all_bytes (x : Z) : 0 <= x < 256 -> In x AES.all_bytes.
Proof.
  intro H. unfold AES.all_bytes. apply in_map_iff. exists (Z.to_nat x).
  split; [lia|]. apply in_seq. lia.
Qed.

(** A property of one byte, or of two, decided by trying them all. *)
Lemma every_byte (p : Z -> bool) :
  forallb p AES.all_bytes = true -> forall x, 0 <= x < 256 -> p x = true.
Proof.
  intros H x Hx. rewrite forallb_forall in H. apply H, in_all_bytes, Hx.
Qed.

Lemma every_two_bytes (p : Z -> Z -> bool) :
  forallb (fun x => forallb (p x) AES.all_bytes) AES.all_bytes = true ->
  forall x y, 0 <= x < 256 -> 0 <= y < 256 -> p x y = true.
Proof.
  intros H x y Hx Hy.
  apply (every_byte (p x)); [|exact Hy].
  apply (every_byte (fun x => forallb (p x) AES.all_bytes) H x Hx).
Qed.

Lemma xtime_byte (x : Z) : 0 <= x < 256 -> 0 <= AES.xtime x < 256.
Proof.
  intro H. unfold AES.xtime. destruct (Z.ltb_spec x 128); [lia|].
  apply lxor_byte; lia.
Qed.

Lemma xtime_lxor (x y : Z) :
  0 <= x < 256 -> 0 <= y < 256 ->
  AES.xtime (Z.lxor x y) = Z.lxor (AES.xtime x) (AES.xtime y).
Proof.
  intros Hx Hy. apply Z.eqb_eq.
  apply (every_two_bytes
           (fun x y => AES.xtime (Z.lxor x y) =? Z.lxor (AES.xtime x) (AES.xtime y)));
    [vm_compute; reflexivity | exact Hx | exact Hy].
Qed.

Lemma gmul_bits_byte (n : nat) :
  forall a b, 0 <= b < 256 -> 0 <= AES.gmul_bits n a b < 256.
Proof.
  induction n as [|n IH]; intros a b Hb; cbn [AES.gmul_bits]; [lia|].
  apply lxor_byte; [destruct (Z.odd a); lia|]. apply IH, xtime_byte, Hb.
Qed.

Lemma gmul_bits_lxor (n : nat) :
  forall a x y, 0 <= x < 256 -> 0 <= y < 256 ->
    AES.gmul_bits n a (Z.lxor x y)
    = Z.lxor (AES.gmul_bits n a x) (AES.gmul_bits n a y).
Proof.
  induction n as [|n IH]; intros a x y Hx Hy; cbn [AES.gmul_bits]; [reflexivity|].
  rewrite xtime_lxor, IH by (try apply xtime_byte; assumption).
  destruct (Z.odd a).
  - apply lxor_interchange.
  - rewrite !Z.lxor_0_l. reflexivity.
Qed.

Lemma gmul_byte (a b : Z) : 0 <= b < 256 -> 0 <= AES.gmul a b < 256.
Proof. apply gmul_bits_byte. Qed.

Lemma gmul_lxor (a x y : Z) :
  0 <= x < 256 -> 0 <= y < 256 ->
  AES.gmul a (Z.lxor x y) = Z.lxor (AES.gmul a x) (AES.gmul a y).
Proof. apply gmul_bits_lxor. Qed.

(** ** MixColumns and its inverse *)

Lemma mix_column_lxor (a b c d a' b' c' d' : Z) :
  0 <= a < 256 -> 0 <= b < 256 -> 0 <= c < 256 -> 0 <= d < 256 ->
  0 <= a' < 256 -> 0 <= b' < 256 -> 0 <= c' < 256 -> 0 <= d' < 256 ->
  AES.mix_column (Z.lxor a a') (Z.lxor b b') (Z.lxor c c') (Z.lxor d d')
  = xor_bytes (AES.mix_column a b c d) (AES.mix_column a' b' c' d').
Proof.
  intros. unfold AES.mix_column, xor_bytes. cbn [combine map fst snd].
  rewrite !gmul_lxor by assumption. rewrite <- !xor3_lxor. reflexivity.
Qed.

Lemma inv_mix_column_lxor (a b c d a' b' c' d' : Z) :
  0 <= a < 256 -> 0 <= b < 256 -> 0 <= c < 256 -> 0 <= d < 256 ->
  0 <= a' < 256 -> 0 <= b' < 256 -> 0 <= c' < 256 -> 0 <= d' < 256 ->
  AES.inv_mix_column (Z.lxor a a') (Z.lxor b b') (Z.lxor c c') (Z.lxor d d')
  = xor_bytes (AES.inv_mix_column a b c d) (AES.inv_mix_column a' b' c' d').
Proof.
  intros. unfold AES.inv_mix_column, xor_bytes. cbn [combine map fst snd].
  rewrite !gmul_lxor by assumption. rewrite <- !xor3_lxor. reflexivity.
Qed.

Lemma mixed_back_lxor (a b c d a' b' c' d' : Z) :
  0 <= a < 256 -> 0 <= b < 256 -> 0 <= c < 256 -> 0 <= d < 256 ->
  0 <= a' < 256 -> 0 <= b' < 256 -> 0 <= c' < 256 -> 0 <= d' < 256 ->
  mixed_back (Z.lxor a a') (Z.lxor b b') (Z.lxor c c') (Z.lxor d d')
  = xor_bytes (mixed_back a b c d) (mixed_back a' b' c' d').
Proof.
  intros. unfold mixed_back.
  rewrite mix_column_lxor by assumption.
  unfold AES.mix_column, xor_bytes at 1. cbn [combine map fst snd].
  apply inv_mix_column_lxor;
    apply xor3_byte; try apply gmul_byte; assumption.
Qed.

Lemma mixed_back_basis (x : Z) :
  0 <= x < 256 ->
  mixed_back x 0 0 0 = [x; 0; 0; 0] /\ mixed_back 0 x 0 0 = [0; x; 0; 0]
  /\ mixed_back 0 0 x 0 = [0; 0; x; 0] /\ mixed_back 0 0 0 x = [0; 0; 0; x].
Proof.
  intro H.
  pose proof (every_byte
    (fun x => str_eqb (mixed_back x 0 0 0) [x; 0; 0; 0]
              && str_eqb (mixed_back 0 x 0 0) [0; x; 0; 0]
              && str_eqb (mixed_back 0 0 x 0) [0; 0; x; 0]
              && str_eqb (mixed_back 0 0 0 x) [0; 0; 0; x])) as E.
  specialize (E ltac:(vm_compute; reflexivity) x H). cbv beta in E.
  apply andb_true_iff in E. destruct E as [E E4].
  apply andb_true_iff in E. destruct E as [E E3].
  apply andb_true_iff in E. destruct E as [E1 E2].
  repeat split; apply str_eqb_eq; assumption.
Qed.

Lemma mixed_back_id (a b c d : Z) :
  0 <= a < 256 -> 0 <= b < 256 -> 0 <= c < 256 -> 0 <= d < 256 ->
  mixed_back a b c d = [a; b; c; d].
Proof.
  intros Ha Hb Hc Hd.
  assert (Z0 : 0 <= 0 < 256) by lia.
  destruct (mixed_back_basis a Ha) as [Ea _].
  destruct (mixed_back_basis b Hb) as [_ [Eb _]].
  destruct (mixed_back_basis c Hc) as [_ [_ [Ec _]]].
  destruct (mixed_back_basis d Hd) as [_ [_ [_ Ed]]].
  transitivity (xor_bytes (mixed_back a 0 0 0)
                  (xor_bytes (mixed_back 0 b 0 0)
                     (xor_bytes (mixed_back 0 0 c 0) (mixed_back 0 0 0 d)))).
  - rewrite <- (mixed_back_lxor 0 0 c 0 0 0 0 d) by assumption.
    rewrite <- (mixed_back_lxor 0 b 0 0) by (try apply lxor_byte; assumption).
    rewrite <- (mixed_back_lxor a 0 0 0) by (repeat apply lxor_byte; assumption).
    rewrite !Z.lxor_0_l, !Z.lxor_0_r. reflexivity.
  - rewrite Ea, Eb, Ec, Ed. unfold xor_bytes. cbn [combine map fst snd].
    rewrite !Z.lxor_0_l, !Z.lxor_0_r. reflexivity.
Qed.

(** ** The AES state *)

Lemma table_entry_byte (t : list Z) (i : nat) :
  forallb is_byte t = true -> 0 <= nth i t 0 < 256.
Proof.
  intro H. destruct (nth_in_or_default i t 0) as [I|E]; [|rewrite E; lia].
  rewrite forallb_forall in H. specialize (H _ I). unfold is_byte in H.
  apply andb_true_iff in H. destruct H as [H1 H2].
  apply Z.leb_le in H1. apply Z.ltb_lt in H2. lia.
Qed.

Lemma sub_byte_byte (x : Z) : 0 <= AES.sub_byte x < 256.
Proof. apply table_entry_byte. vm_compute. reflexivity. Qed.

Lemma inv_sub_byte_byte (x : Z) : 0 <= AES.inv_sub_byte x < 256.
Proof. apply table_entry_byte. vm_compute. reflexivity. Qed.

Lemma inv_sub_byte_sub_byte (x : Z) :
  0 <= x < 256 -> AES.inv_sub_byte (AES.sub_byte x) = x.
Proof.
  intro H. apply Z.eqb_eq.
  apply (every_byte (fun x => AES.inv_sub_byte (AES.sub_byte x) =? x));
    [vm_compute; reflexivity | exact H].
Qed.

Lemma sub_bytes_bytes (s : bytes) : all_bytes (AES.sub_bytes s).
Proof.
  unfold AES.sub_bytes. induction s as [|x s IH]; cbn [map]; constructor;
    [apply sub_byte_byte | exact IH].
Qed.

Lemma inv_sub_bytes_sub_bytes (s : bytes) :
  all_bytes s -> AES.inv_sub_bytes (AES.sub_bytes s) = s.
Proof.
  unfold AES.inv_sub_bytes, AES.sub_bytes.
  induction 1 as [|x s Hx _ IH]; cbn [map]; [reflexivity|].
  rewrite inv_sub_byte_sub_byte by exact Hx. rewrite IH. reflexivity.
Qed.

(** A list of sixteen elements, taken apart. *)
Ltac sixteen s H :=
  do 16 (destruct s as [|? s]; [discriminate H|]);
  destruct s; [|discriminate H].

Ltac each_byte :=
  repeat match goal with
         | H : Forall _ (_ :: _) |- _ => inversion H; clear H; subst
         end.

Lemma inv_shift_rows_shift_rows (s : bytes) :
  length s = 16%nat -> AES.inv_shift_rows (AES.shift_rows s) = s.
Proof. intro H. sixteen s H. reflexivity. Qed.

Lemma shift_rows_block (s : bytes) : is_block s -> is_block (AES.shift_rows s).
Proof.
  intros [H B]. sixteen s H. split; [reflexivity|].
  cbn [AES.shift_rows]. unfold all_bytes in *. each_byte.
  repeat (apply Forall_cons; [assumption|]). apply Forall_nil.
Qed.

Lemma sub_bytes_block (s : bytes) : length s = 16%nat -> is_block (AES.sub_bytes s).
Proof.
  intro H. split; [|apply sub_bytes_bytes]. unfold AES.sub_bytes.
  rewrite length_map. exact H.
Qed.

Lemma xor_bytes_length (a b : bytes) :
  length a = length b -> length (xor_bytes a b) = length a.
Proof.
  intro H. unfold xor_bytes. rewrite length_map, length_combine, <- H.
  apply Nat.min_id.
Qed.

Lemma xor_bytes_cancel (a b : bytes) :
  length a = length b -> xor_bytes (xor_bytes a b) b = a.
Proof.
  unfold xor_bytes. revert b. induction a as [|x a IH]; intros [|y b] H;
    try discriminate; cbn [combine map fst snd]; [reflexivity|].
  rewrite IH by (injection H; auto).
  rewrite Z.lxor_assoc, Z.lxor_nilpotent, Z.lxor_0_r. reflexivity.
Qed.

Lemma add_round_key_block (s k : bytes) :
  is_block s -> is_block k -> is_block (AES.add_round_key s k).
Proof.
  intros [Ls Bs] [Lk Bk]. unfold AES.add_round_key. split.
  - rewrite xor_bytes_length; congruence.
  - apply xor_bytes_bytes; assumption.
Qed.

Lemma add_round_key_cancel (s k : bytes) :
  is_block s -> is_block k -> AES.add_round_key (AES.add_round_key s k) k = s.
Proof.
  intros [Ls _] [Lk _]. apply xor_bytes_cancel. congruence.
Qed.

Lemma mix_column_bytes (a b c d : Z) :
  0 <= a < 256 -> 0 <= b < 256 -> 0 <= c < 256 -> 0 <= d < 256 ->
  all_bytes (AES.mix_column a b c d).
Proof.
  intros. unfold AES.mix_column.
  repeat (apply Forall_cons;
          [apply xor3_byte; try apply gmul_byte; assumption|]).
  apply Forall_nil.
Qed.

Lemma inv_mix_column_mix_column (a b c d : Z) (r : bytes) :
  0 <= a < 256 -> 0 <= b < 256 -> 0 <= c < 256 -> 0 <= d < 256 ->
  AES.inv_mix_columns (AES.mix_column a b c d ++ r)
  = [a; b; c; d] ++ AES.inv_mix_columns r.
Proof.
  intros Ha Hb Hc Hd. rewrite <- (mixed_back_id a b c d Ha Hb Hc Hd).
  reflexivity.
Qed.

Lemma mix_columns_block (s : bytes) : is_block s -> is_block (AES.mix_columns s).
Proof.
  intros [H B]. sixteen s H. unfold all_bytes in B. each_byte.
  split; [reflexivity|]. unfold AES.mix_columns. cbn [AES.columns].
  repeat (apply Forall_app; split; [apply mix_column_bytes; assumption|]).
  constructor.
Qed.

Lemma inv_mix_columns_mix_columns (s : bytes) :
  is_block s -> AES.inv_mix_columns (AES.mix_columns s) = s.
Proof.
  intros [H B]. sixteen s H. unfold all_bytes in B. each_byte.
  unfold AES.mix_columns. cbn [AES.columns].
  rewrite !inv_mix_column_mix_column by assumption. reflexivity.
Qed.

(** ** The cipher and its inverse *)

Lemma half_round_block (s : bytes) : is_block s -> is_block (half_round s).
Proof. intros [H _]. apply shift_rows_block, sub_bytes_block, H. Qed.

Lemma half_round_back (s : bytes) :
  is_block s -> AES.inv_sub_bytes (AES.inv_shift_rows (half_round s)) = s.
Proof.
  intros [H B]. unfold half_round.
  rewrite inv_shift_rows_shift_rows by (apply sub_bytes_block, H).
  apply inv_sub_bytes_sub_bytes, B.
Qed.

Lemma encrypt_round_block (s k : bytes) :
  is_block s -> is_block k -> is_block (AES.encrypt_round s k).
Proof.
  intros Hs Hk. unfold AES.encrypt_round.
  apply add_round_key_block; [|exact Hk].
  apply mix_columns_block, half_round_block, Hs.
Qed.

Lemma decrypt_round_encrypt_round (s k : bytes) :
  is_block s -> is_block k ->
  AES.decrypt_round (half_round (AES.encrypt_round s k)) k = half_round s.
Proof.
  intros Hs Hk. unfold AES.decrypt_round.
  rewrite half_round_back by (apply encrypt_round_block; assumption).
  unfold AES.encrypt_round. fold (half_round s).
  rewrite add_round_key_cancel
    by (try apply mix_columns_block, half_round_block; assumption).
  apply inv_mix_columns_mix_columns, half_round_block, Hs.
Qed.

Lemma fold_encrypt_block (ks : list bytes) :
  Forall is_block ks ->
  forall s, is_block s -> is_block (fold_left AES.encrypt_round ks s).
Proof.
  induction 1 as [|k ks Hk _ IH]; intros s Hs; cbn [fold_left]; [exact Hs|].
  apply IH, encrypt_round_block; assumption.
Qed.

Lemma fold_decrypt_encrypt (ks : list bytes) :
  Forall is_block ks ->
  forall s, is_block s ->
    fold_left AES.decrypt_round (rev ks)
              (half_round (fold_left AES.encrypt_round ks s))
    = half_round s.
Proof.
  induction 1 as [|k ks Hk _ IH]; intros s Hs; cbn [fold_left rev]; [reflexivity|].
  rewrite fold_left_app. cbn [fold_left].
  rewrite IH by (apply encrypt_round_block; assumption).
  apply decrypt_round_encrypt_round; assumption.
Qed.

Lemma Forall_removelast {A : Type} (P : A -> Prop) (l : list A) :
  Forall P l -> Forall P (removelast l).
Proof.
  induction 1 as [|x l Hx Hl IH]; [constructor|].
  cbn [removelast]. destruct l; [constructor|]. constructor; assumption.
Qed.

Lemma Forall_last {A : Type} (P : A -> Prop) (l : list A) (d : A) :
  Forall P l -> l <> [] -> P (last l d).
Proof.
  induction 1 as [|x l Hx Hl IH]; intro N; [contradiction|].
  cbn [last]. destruct l; [exact Hx|]. apply IH. discriminate.
Qed.

Lemma encrypt_with_block (ks : list bytes) (b : bytes) :
  Forall is_block ks -> (2 <= length ks)%nat -> is_block b ->
  is_block (AES.encrypt_with ks b).
Proof.
  intros K L B. destruct ks as [|k0 rest]; [cbn in L; lia|].
  inversion K as [|? ? K0 Kr]; subst. cbn [AES.encrypt_with].
  assert (N : rest <> []) by (destruct rest; [cbn in L; lia|discriminate]).
  apply add_round_key_block; [|apply Forall_last; assumption].
  apply half_round_block, fold_encrypt_block;
    [apply Forall_removelast, Kr | apply add_round_key_block; assumption].
Qed.

Lemma decrypt_with_encrypt_with (ks : list bytes) (b : bytes) :
  Forall is_block ks -> (2 <= length ks)%nat -> is_block b ->
  AES.decrypt_with ks (AES.encrypt_with ks b) = b.
Proof.
  intros K L B. destruct ks as [|k0 rest]; [cbn in L; lia|].
  inversion K as [|? ? K0 Kr]; subst. cbn [AES.encrypt_with AES.decrypt_with].
  assert (N : rest <> []) by (destruct rest; [cbn in L; lia|discriminate]).
  pose proof (Forall_last _ rest [] Kr N) as Kl.
  pose proof (Forall_removelast _ rest Kr) as Km.
  pose proof (add_round_key_block b k0 B K0) as B0.
  fold (half_round (fold_left AES.encrypt_round (removelast rest)
                              (AES.add_round_key b k0))).
  rewrite add_round_key_cancel
    by (try apply half_round_block, fold_encrypt_block; assumption).
  rewrite fold_decrypt_encrypt by assumption.
  rewrite half_round_back by assumption.
  apply add_round_key_cancel; assumption.
Qed.

(** ** The key schedule *)

Lemma is_word_xor (a b : bytes) : is_word a -> is_word b -> is_word (xor_bytes a b).
Proof.
  intros [La Ba] [Lb Bb]. split.
  - rewrite xor_bytes_length; congruence.
  - apply xor_bytes_bytes; assumption.
Qed.

Lemma sub_word_word (w : bytes) : length w = 4%nat -> is_word (AES.sub_word w).
Proof.
  intro H. unfold AES.sub_word. split; [rewrite length_map; exact H|].
  apply sub_bytes_bytes.
Qed.

Lemma rot_word_length (w : bytes) : length w = 4%nat -> length (AES.rot_word w) = 4%nat.
Proof.
  destruct w as [|a r]; [discriminate|]. cbn [AES.rot_word length].
  rewrite length_app. cbn [length]. lia.
Qed.

Lemma rcon_word (i : nat) : is_word [nth i AES.rcon 0; 0; 0; 0].
Proof.
  split; [reflexivity|].
  apply Forall_cons; [apply table_entry_byte; reflexivity|].
  repeat (apply Forall_cons; [lia|]). apply Forall_nil.
Qed.

Lemma nth_word (ws : list bytes) (i : nat) :
  Forall is_word ws -> (i < length ws)%nat -> is_word (nth i ws []).
Proof.
  intros F L. rewrite Forall_forall in F. apply F, nth_In, L.
Qed.

Lemma expand_words (n : nat) :
  forall (i : Z) (ws : list bytes),
    Forall is_word ws -> (8 <= length ws)%nat ->
    Forall is_word (AES.expand n i ws)
    /\ length (AES.expand n i ws) = (n + length ws)%nat.
Proof.
  induction n as [|n IH]; intros i ws F L; cbn [AES.expand]; [split; [exact F|reflexivity]|].
  pose proof (nth_word ws 0 F ltac:(lia)) as P.
  pose proof (nth_word ws 7 F ltac:(lia)) as Q.
  match goal with
  | |- context [AES.expand n (i + 1) (?x :: ws)] =>
      assert (X : is_word x); [|destruct (IH (i + 1) (x :: ws)) as [F' L']]
  end.
  - apply is_word_xor; [exact Q|].
    destruct (i mod 8 =? 0).
    + apply is_word_xor; [|apply rcon_word].
      apply sub_word_word, rot_word_length, P.
    + destruct (i mod 8 =? 4); [apply sub_word_word, P | exact P].
  - apply Forall_cons; assumption.
  - cbn [length]. lia.
  - split; [exact F'|]. rewrite L'. cbn [length]. lia.
Qed.

Lemma group4_blocks (n : nat) :
  forall ws : list bytes,
    length ws = (4 * n)%nat -> Forall is_word ws ->
    Forall is_block (AES.group4 ws) /\ length (AES.group4 ws) = n.
Proof.
  induction n as [|n IH]; intros ws L F.
  - destruct ws; [split; [constructor|reflexivity]|discriminate].
  - destruct ws as [|a [|b [|c [|d r]]]]; try (cbn in L; lia).
    inversion F as [|? ? [La Ba] F1]; subst.
    inversion F1 as [|? ? [Lb Bb] F2]; subst.
    inversion F2 as [|? ? [Lc Bc] F3]; subst.
    inversion F3 as [|? ? [Ld Bd] F4]; subst.
    destruct (IH r) as [Fr Lr]; [cbn [length] in L; lia | exact F4 |].
    cbn [AES.group4 length]. split; [|rewrite Lr; reflexivity].
    apply Forall_cons; [|exact Fr]. split.
    + rewrite !length_app. lia.
    + repeat (apply Forall_app; split; [assumption|]). assumption.
Qed.

Lemma key_words_words (key : bytes) :
  length key = 32%nat -> all_bytes key ->
  Forall is_word (AES.key_words key) /\ length (AES.key_words key) = 8%nat.
Proof.
  intros L B.
  do 32 (destruct key as [|? key]; [discriminate L|]).
  destruct key; [|discriminate L].
  unfold all_bytes in B. each_byte. split; [|reflexivity].
  cbn [AES.key_words firstn skipn].
  repeat (apply Forall_cons;
          [split; [reflexivity|];
           repeat (apply Forall_cons; [assumption|]); apply Forall_nil|]).
  apply Forall_nil.
Qed.

Lemma round_keys_blocks (key : bytes) :
  length key = 32%nat -> all_bytes key ->
  Forall is_block (AES.round_keys key) /\ length (AES.round_keys key) = 15%nat.
Proof.
  intros L B. destruct (key_words_words key L B) as [F8 L8].
  destruct (expand_words 52 8 (rev (AES.key_words key))) as [F60 L60].
  - apply Forall_rev, F8.
  - rewrite length_rev, L8. lia.
  - unfold AES.round_keys. apply (group4_blocks 15).
    + rewrite length_rev, L60, length_rev, L8. reflexivity.
    + apply Forall_rev, F60.
Qed.

Lemma encrypt_block_block (key b : bytes) :
  length key = 32%nat -> all_bytes key -> is_block b ->
  is_block (AES.encrypt_block key b).
Proof.
  intros L B Hb. destruct (round_keys_blocks key L B) as [F N].
  apply encrypt_with_block; [exact F | lia | exact Hb].
Qed.

Lemma decrypt_block_encrypt_block (key b : bytes) :
  length key = 32%nat -> all_bytes key -> is_block b ->
  AES.decrypt_block key (AES.encrypt_block key b) = b.
Proof.
  intros L B Hb. destruct (round_keys_blocks key L B) as [F N].
  apply decrypt_with_encrypt_with; [exact F | lia | exact Hb].
Qed.

(** ** CBC *)

Lemma firstn_length_app {A : Type} (l r : list A) (n : nat) :
  length l = n -> firstn n (l ++ r) = l.
Proof.
  intros <-. induction l as [|x l IH]; cbn [length firstn app]; [destruct r|];
    congruence.
Qed.

Lemma skipn_length_app {A : Type} (l r : list A) (n : nat) :
  length l = n -> skipn n (l ++ r) = r.
Proof. intros <-. induction l as [|x l IH]; cbn [length skipn app]; congruence. Qed.

Lemma all_bytes_firstn (n : nat) (b : bytes) : all_bytes b -> all_bytes (firstn n b).
Proof.
  intro H. rewrite <- (firstn_skipn n b) in H. apply Forall_app in H. apply H.
Qed.

Lemma all_bytes_skipn (n : nat) (b : bytes) : all_bytes b -> all_bytes (skipn n b).
Proof.
  intro H. rewrite <- (firstn_skipn n b) in H. apply Forall_app in H. apply H.
Qed.

Section CBC.

Variable key : bytes.
Hypothesis key_length : length key = 32%nat.
Hypothesis key_bytes : all_bytes key.

Lemma cbc_round_trip (n : nat) :
  forall prev data : bytes,
    is_block prev -> all_bytes data -> length data = (16 * n)%nat ->
    length (cbc_encrypt_go n key prev data) = (16 * n)%nat
    /\ all_bytes (cbc_encrypt_go n key prev data)
    /\ cbc_decrypt_go n key prev (cbc_encrypt_go n key prev data) = data.
Proof.
  induction n as [|n IH]; intros prev data P B L.
  - destruct data; [|discriminate]. repeat split. constructor.
  - cbn [cbc_encrypt_go].
    assert (X : is_block (xor_bytes (firstn 16 data) prev)).
    { destruct P as [Lp Bp]. split.
      - rewrite xor_bytes_length; rewrite length_firstn; lia.
      - apply xor_bytes_bytes; [apply all_bytes_firstn, B | exact Bp]. }
    pose proof (encrypt_block_block key _ key_length key_bytes X) as C.
    remember (AES.encrypt_block key (xor_bytes (firstn 16 data) prev)) as c eqn:Ec.
    destruct (IH c (skipn 16 data) C) as [L' [B' D']].
    { apply all_bytes_skipn, B. }
    { rewrite length_skipn. lia. }
    destruct C as [Lc Bc]. split; [|split].
    + rewrite length_app, L', Lc. lia.
    + apply Forall_app. split; assumption.
    + cbn [cbc_decrypt_go].
      rewrite (firstn_length_app c _ 16 Lc), (skipn_length_app c _ 16 Lc), D'.
      rewrite Ec.
      rewrite (decrypt_block_encrypt_block key _ key_length key_bytes X).
      rewrite xor_bytes_cancel by (destruct P as [Lp _]; rewrite length_firstn; lia).
      apply firstn_skipn.
Qed.

End CBC.

(** ** PKCS#7 *)

Lemma last_repeat {A : Type} (d : list A) (x y : A) (k : nat) :
  last (d ++ repeat x (S k)) y = x.
Proof.
  induction d as [|a d IH].
  - induction k as [|k IHk]; [reflexivity|]. cbn [repeat app last] in *. exact IHk.
  - cbn [app]. destruct (d ++ repeat x (S k)) eqn:E.
    + destruct d; discriminate.
    + cbn [last]. exact IH.
Qed.

Lemma forallb_repeat (x : Z) (k : nat) : forallb (Z.eqb x) (repeat x k) = true.
Proof. induction k; cbn [repeat forallb]; [reflexivity|]. rewrite Z.eqb_refl. exact IHk. Qed.

Lemma pkcs7_pad_length (data : bytes) :
  exists n : nat, length (pkcs7_pad data) = (16 * n)%nat.
Proof.
  unfold pkcs7_pad. rewrite length_app, repeat_length.
  exists (Z.to_nat ((Z.of_nat (length data) + (16 - Z.of_nat (length data) mod 16)) / 16)).
  zlia.
Qed.

Lemma pkcs7_pad_bytes (data : bytes) : all_bytes data -> all_bytes (pkcs7_pad data).
Proof.
  intro B. unfold pkcs7_pad. apply Forall_app. split; [exact B|].
  apply Forall_forall. intros x Hx. apply repeat_spec in Hx. subst x. zlia.
Qed.

Lemma pkcs7_unpad_pad (data : bytes) : pkcs7_unpad (pkcs7_pad data) = Ok data.
Proof.
  unfold pkcs7_pad.
  remember (16 - Z.of_nat (length data) mod 16) as n eqn:Hn.
  assert (N : 1 <= n <= 16) by zlia.
  unfold pkcs7_unpad.
  destruct (Z.to_nat n) as [|k] eqn:E; [lia|].
  rewrite last_repeat, E, length_app, repeat_length.
  replace (Z.of_nat (length data + S k) =? 0) with false
    by (symmetry; apply Z.eqb_neq; lia).
  replace (Z.of_nat (length data + S k) mod 16 =? 0) with true
    by (symmetry; apply Z.eqb_eq; zlia).
  replace (1 <=? n) with true by (symmetry; apply Z.leb_le; lia).
  replace (n <=? 16) with true by (symmetry; apply Z.leb_le; lia).
  cbn [negb orb andb].
  replace (length data + S k - S k)%nat with (length data) by lia.
  rewrite skipn_length_app, firstn_length_app, forallb_repeat by reflexivity.
  reflexivity.
Qed.

(** ** The cipher helper *)

Lemma utf8_encode_cp_bytes (c : Z) (b : bytes) :
  utf8_encode_cp c = Ok b -> all_bytes b.
Proof.
  unfold utf8_encode_cp. destruct (is_scalar c) eqn:S; [|discriminate].
  apply is_scalar_range in S. cbn [negb].
  destruct (Z.ltb_spec c 0x80);
    [|destruct (Z.ltb_spec c 0x800); [|destruct (Z.ltb_spec c 0x10000)]];
    intro E; apply Ok_inj in E; subst b;
    repeat (apply Forall_cons; [zlia|]); apply Forall_nil.
Qed.

Lemma str_encode_bytes (s : pystr) :
  forall b, str_encode s = Ok b -> all_bytes b.
Proof.
  induction s as [|c s IH]; intros b H; cbn [str_encode] in H.
  - apply Ok_inj in H. subst b. constructor.
  - destruct (utf8_encode_cp c) as [x|] eqn:X; [|discriminate]. cbn [bind] in H.
    destruct (str_encode s) as [y|]; [|discriminate]. cbn [bind] in H.
    apply Ok_inj in H. subst b. apply Forall_app. split.
    + apply (utf8_encode_cp_bytes c), X.
    + apply IH. reflexivity.
Qed.

Lemma token_bytes_block (w : world) :
  exists iv, token_bytes 16 w = (Ok iv, snd (token_bytes 16 w)) /\ is_block iv.
Proof.
  eexists. split; [reflexivity|]. split.
  - rewrite length_map, length_seq. reflexivity.
  - apply Forall_forall. intros x Hx. apply in_map_iff in Hx.
    destruct Hx as [i [<- _]]. apply Z.mod_pos_bound. lia.
Qed.

Lemma forallb_is_byte (b : bytes) : forallb is_byte b = true -> all_bytes b.
Proof.
  intro H. apply Forall_forall. intros x Hx. rewrite forallb_forall in H.
  specialize (H x Hx). unfold is_byte in H. apply andb_true_iff in H.
  destruct H as [H1 H2]. apply Z.leb_le in H1. apply Z.ltb_lt in H2. lia.
Qed.

Lemma cipher_aes_cbc_ok (key iv : bytes) :
  length key = 32%nat -> length iv = 16%nat -> cipher_aes_cbc key iv = Ok tt.
Proof. intros K I. unfold cipher_aes_cbc. rewrite K, I. reflexivity. Qed.

(** C6, for text UTF-8 can encode: under a key of 32 bytes, as the module
    draws it, [encrypt_data] returns a ciphertext, and [decrypt_data]
    returns the plaintext for it in every state of the process with that
    key. *)
Theorem decrypt_encrypt_data (T : pystr) (w : world) :
  is_text T = true ->
  length (AES_KEY w) = 32%nat -> all_bytes (AES_KEY w) ->
  exists c w1,
    encrypt_data T w = (Ok c, w1)
    /\ AES_KEY w1 = AES_KEY w
    /\ forall w2, AES_KEY w2 = AES_KEY w -> decrypt_data c w2 = (Ok T, w2).
Proof.
  intros HT KL KB.
  destruct (str_encode_text T HT) as [d D].
  destruct (token_bytes_block w) as [iv [I IB]].
  destruct (pkcs7_pad_length d) as [n N].
  pose proof (pkcs7_pad_bytes d (str_encode_bytes T d D)) as PB.
  destruct (cbc_round_trip (AES_KEY w) KL KB n iv (pkcs7_pad d) IB PB N)
    as [EL [EB ED]].
  assert (Q : (length (pkcs7_pad d) / 16)%nat = n).
  { rewrite N, Nat.mul_comm. apply Nat.div_mul. discriminate. }
  remember (cbc_encrypt_go n (AES_KEY w) iv (pkcs7_pad d)) as enc eqn:Eenc.
  assert (AB : all_bytes (iv ++ enc)).
  { apply Forall_app. split; [apply IB | exact EB]. }
  exists (b64encode (iv ++ enc)), (snd (token_bytes 16 w)).
  split; [|split; [reflexivity|]].
  - unfold encrypt_data. apply try_catch_ok.
    eapply bindM_step; [exact I|].
    eapply bindM_step; [reflexivity|].
    eapply bindM_step;
      [apply lift_eq, cipher_aes_cbc_ok; [exact KL | apply IB]|].
    eapply bindM_step; [apply lift_eq, D|].
    apply lift_eq. unfold cbc_encrypt. rewrite Q.
    change (AES_KEY (snd (token_bytes 16 w))) with (AES_KEY w).
    rewrite <- Eenc. apply bytes_decode_ascii, b64encode_ascii.
  - intros w2 K2. unfold decrypt_data. apply try_catch_ok.
    eapply bindM_step; [apply lift_eq, b64decode_encode, AB|].
    eapply bindM_step; [reflexivity|]. cbv beta. rewrite K2.
    destruct IB as [IL _].
    rewrite (firstn_length_app iv enc 16 IL), (skipn_length_app iv enc 16 IL).
    eapply bindM_step; [apply lift_eq, cipher_aes_cbc_ok; assumption|].
    eapply bindM_step.
    { apply lift_eq. rewrite EL.
      replace (Z.of_nat (16 * n) mod 16 =? 0) with true
        by (symmetry; apply Z.eqb_eq; zlia).
      reflexivity. }
    unfold cbc_decrypt. rewrite EL.
    replace (16 * n / 16)%nat with n
      by (rewrite Nat.mul_comm; symmetry; apply Nat.div_mul; discriminate).
    rewrite ED.
    eapply bindM_step; [apply lift_eq, pkcs7_unpad_pad|].
    apply lift_eq, bytes_decode_encode, D.
Qed.

Lemma decrypt_encrypt_data_witness :
  exists c w1,
    encrypt_data (lit "secreto") seeded_world = (Ok c, w1)
    /\ AES_KEY w1 = AES_KEY seeded_world
    /\ forall w2, AES_KEY w2 = AES_KEY seeded_world ->
                  decrypt_data c w2 = (Ok (lit "secreto"), w2).
Proof.
  apply (decrypt_encrypt_data (lit "secreto") seeded_world eq_refl eq_refl).
  apply forallb_is_byte. vm_compute. reflexivity.
Defined.

(** C6 (counterexample): a plaintext that holds a lone surrogate is not
    encrypted: [data.encode()] raises and [encrypt_data] raises it again. *)
Lemma encrypt_data_raises :
  fst (encrypt_data [0xD800] seeded_world) = Raise UnicodeEncodeError.
Proof. vm_compute. reflexivity. Qed.
(** * Further properties of the routes *)

(** ** The authorization of the /api/users routes *)

Lemma get_users_unauthorized (req : request) (w w1 : world) :
  director_claims req w = (Ok None, w1) ->
  get_users req w = (Ok (failure no_autorizado 403), w1).
Proof.
  intro H. unfold get_users. apply try_catch_ok.
  eapply bindM_step; [exact H|]. reflexivity.
Qed.

Lemma create_user_unauthorized (req : request) (w w1 : world) :
  director_claims req w = (Ok None, w1) ->
  create_user req w = (Ok (failure no_autorizado 403), w1).
Proof.
  intro H. unfold create_user. apply try_catch_ok, try_catch_ok.
  eapply bindM_step; [exact H|]. reflexivity.
Qed.

Lemma update_user_unauthorized (user_id : Z) (req : request) (w w1 : world) :
  director_claims req w = (Ok None, w1) ->
  update_user user_id req w = (Ok (failure no_autorizado 403), w1).
Proof.
  intro H. unfold update_user. apply try_catch_ok.
  eapply bindM_step; [exact H|]. reflexivity.
Qed.

Lemma delete_user_unauthorized (user_id : Z) (req : request) (w w1 : world) :
  director_claims req w = (Ok None, w1) ->
  delete_user user_id req w = (Ok (failure no_autorizado 403), w1).
Proof.
  intro H. unfold delete_user. apply try_catch_ok.
  eapply bindM_step; [exact H|]. reflexivity.
Qed.

Lemma director_claims_refused (req : request) (w w1 : world) :
  verify_token (bearer_token req) w = (Ok None, w1) ->
  director_claims req w = (Ok None, w1).
Proof.
  intro H. unfold director_claims. fold (bearer_token req).
  eapply bindM_step; [exact H|]. reflexivity.
Qed.

Lemma director_claims_role (req : request) (w w1 : world) (p : dict) (role : pystr) :
  verify_token (bearer_token req) w = (Ok (Some p), w1) ->
  dict_lookup p (lit "role") = Some (VStr role) ->
  director_claims req w
  = (Ok (if str_eqb role (lit "director") then Some p else None), w1).
Proof.
  intros H R. unfold director_claims. fold (bearer_token req).
  eapply bindM_step; [exact H|].
  destruct p as [|kv p]; [discriminate R|].
  eapply bindM_step; [apply lift_eq; cbn [py_item]; rewrite R; reflexivity|].
  cbv beta iota. destruct (str_eqb role (lit "director")); reflexivity.
Qed.

Lemma verify_token_empty (w : world) : verify_token [] w = (Ok None, w).
Proof.
  rewrite verify_token_decode.
  rewrite (jwt_decode_not_loaded [] _ _ jwt_DecodeError w eq_refl). reflexivity.
Qed.

(** X1: without an Authorization header, every /api/users route answers 403
    'No autorizado' and leaves the whole process as it was. *)
Theorem management_needs_authorization (req : request) (user_id : Z) (w : world) :
  req_authorization req = None ->
  get_users req w = (Ok (failure no_autorizado 403), w)
  /\ create_user req w = (Ok (failure no_autorizado 403), w)
  /\ update_user user_id req w = (Ok (failure no_autorizado 403), w)
  /\ delete_user user_id req w = (Ok (failure no_autorizado 403), w).
Proof.
  intro H.
  assert (D : director_claims req w = (Ok None, w)).
  { apply director_claims_refused. unfold bearer_token. rewrite H.
    apply verify_token_empty. }
  repeat split.
  - apply get_users_unauthorized, D.
  - apply create_user_unauthorized, D.
  - apply update_user_unauthorized, D.
  - apply delete_user_unauthorized, D.
Qed.

Lemma management_needs_authorization_witness :
  let req := mkRequest (Ok (VDict [(lit "activo", VInt 0)])) None None None in
  get_users req seeded_world = (Ok (failure no_autorizado 403), seeded_world)
  /\ create_user req seeded_world = (Ok (failure no_autorizado 403), seeded_world)
  /\ update_user 2 req seeded_world = (Ok (failure no_autorizado 403), seeded_world)
  /\ delete_user 2 req seeded_world = (Ok (failure no_autorizado 403), seeded_world).
Proof.
  exact (management_needs_authorization
           (mkRequest (Ok (VDict [(lit "activo", VInt 0)])) None None None)
           2 seeded_world eq_refl).
Defined.

(** ** The bearer token of a request *)

Lemma starts_with_bearer (s : pystr) :
  starts_with (lit "Bearer ") s = true -> In 32 s.
Proof.
  destruct s as [|c0 [|c1 [|c2 [|c3 [|c4 [|c5 [|c6 s]]]]]]];
    cbn [starts_with lit]; intro H;
    repeat (apply andb_true_iff in H; let H1 := fresh in destruct H as [H1 H]);
    try discriminate.
  match goal with
  | E : (_ =? c6) = true |- _ => apply Z.eqb_eq in E; cbn in E; subst c6
  end.
  cbn [In]. tauto.
Qed.

Lemma replace_bearer_absent (t : pystr) :
  ~ In 32 t -> replace_go (lit "Bearer ") [] t O = t.
Proof.
  induction t as [|c t IH]; intro N; [reflexivity|].
  cbn [replace_go].
  destruct (starts_with (lit "Bearer ") (c :: t)) eqn:E.
  - exfalso. apply N, starts_with_bearer, E.
  - rewrite IH; [reflexivity|]. intro I. apply N. right. exact I.
Qed.

Lemma replace_bearer (t : pystr) :
  ~ In 32 t -> str_replace (lit "Bearer " ++ t) (lit "Bearer ") [] = t.
Proof.
  intro N. unfold str_replace.
  change (lit "Bearer " ++ t)
    with (66 :: 101 :: 97 :: 114 :: 101 :: 114 :: 32 :: t).
  cbn [replace_go].
  change (starts_with (lit "Bearer ")
            (66 :: 101 :: 97 :: 114 :: 101 :: 114 :: 32 :: t)) with true.
  cbv iota. change (length (lit "Bearer ") - 1)%nat with 6%nat.
  cbn [replace_go app]. apply replace_bearer_absent, N.
Qed.

Lemma base64url_chars (P : Z -> Prop) (b : bytes) :
  (forall v, 0 <= v < 64 -> P (url_char v)) ->
  all_bytes b -> Forall P (base64url_encode b).
Proof.
  intro HP.
  induction b as [|x|x y|x y z r IH] using list_ind3; intro Hb.
  - constructor.
  - inversion Hb as [|? ? Hx _]; subst. rewrite base64url_encode_1 by assumption.
    repeat (apply Forall_cons; [apply HP; zlia|]). constructor.
  - inversion Hb as [|? ? Hx Hb']; subst. inversion Hb' as [|? ? Hy _]; subst.
    rewrite base64url_encode_2 by assumption.
    repeat (apply Forall_cons; [apply HP; zlia|]). constructor.
  - inversion Hb as [|? ? Hx Hb']; subst. inversion Hb' as [|? ? Hy Hb'']; subst.
    inversion Hb'' as [|? ? Hz Hr]; subst.
    rewrite base64url_encode_3 by assumption.
    repeat (apply Forall_cons; [apply HP; zlia|]). apply IH, Hr.
Qed.

Lemma url_char_no_space (v : Z) : 0 <= v < 64 -> url_char v <> 32.
Proof.
  intro H. apply Z.eqb_neq.
  assert (A : forallb (fun v => negb (url_char v =? 32)) sextets = true)
    by (vm_compute; reflexivity).
  rewrite forallb_forall in A. specialize (A v (in_sextets v H)).
  apply negb_true_iff in A. exact A.
Qed.

Lemma signed_token_no_space (payload : dict) (k : bytes) :
  is_ascii (json_dumps (VDict payload)) = true ->
  ~ In 32 (signed_token payload k).
Proof.
  intros A I. unfold signed_token, signing_input in I.
  assert (F : forall b, all_bytes b -> ~ In 32 (base64url_encode b)).
  { intros b Hb J.
    pose proof (base64url_chars (fun c => c <> 32) b url_char_no_space Hb) as G.
    rewrite Forall_forall in G. apply (G 32 J). reflexivity. }
  repeat (apply in_app_or in I; destruct I as [I|I];
          [|destruct I as [I|I]; [discriminate I|]]);
    revert I; apply F.
  - apply ascii_bytes, header_text_ascii.
  - apply ascii_bytes, A.
  - apply hmac_bytes.
Qed.
(** ** Tokens presented to the /api/users routes *)

(** What the routes make of a token [generate_token] issued, sent back as
    [Bearer <token>] to a process with the same secret. *)
Lemma director_claims_issued (user_id : Z) (username role token : pystr)
    (w w1 w' : world) (req : request) :
  is_text username = true -> is_text role = true ->
  is_text (JWT_SECRET w) = true ->
  generate_token user_id username role w = (Ok token, w1) ->
  req_authorization req = Some (lit "Bearer " ++ token) ->
  JWT_SECRET w' = JWT_SECRET w ->
  let exp := timegm (w_clock w (w_ticks w) + hours 24) in
  director_claims req w'
  = (Ok (if exp * second <=? w_clock w' (w_ticks w') then None
         else if str_eqb role (lit "director")
              then Some (token_claims user_id username role exp)
              else None),
     tick w').
Proof.
  intros Tu Tr Tk G A S exp.
  destruct (str_encode_text _ Tk) as [k K].
  pose proof (generate_token_signed user_id username role k w Tu Tr K) as G'.
  fold exp in G'.
  assert (E : token = signed_token (token_claims user_id username role exp) k)
    by congruence.
  subst token.
  assert (B : bearer_token req
              = signed_token (token_claims user_id username role exp) k).
  { unfold bearer_token. rewrite A. apply replace_bearer, signed_token_no_space.
    apply json_dumps_claims_ascii; assumption. }
  rewrite <- S in K.
  pose proof (verify_signed_token user_id username role exp k w' Tu Tr K) as V.
  rewrite <- B in V.
  destruct (exp * second <=? w_clock w' (w_ticks w')).
  - apply director_claims_refused, V.
  - apply (director_claims_role req w' (tick w') _ role V). reflexivity.
Qed.

(** X2: a token issued to a user whose role is not 'director' opens none of
    the /api/users routes: each answers 403 'No autorizado', before the
    token expires and after, and the database stays as it is. *)
Theorem management_refuses_other_roles (user_id id : Z)
    (username role token : pystr) (w w1 w' : world) (req : request) :
  is_text username = true -> is_text role = true ->
  is_text (JWT_SECRET w) = true ->
  role <> lit "director" ->
  generate_token user_id username role w = (Ok token, w1) ->
  req_authorization req = Some (lit "Bearer " ++ token) ->
  JWT_SECRET w' = JWT_SECRET w ->
  get_users req w' = (Ok (failure no_autorizado 403), tick w')
  /\ create_user req w' = (Ok (failure no_autorizado 403), tick w')
  /\ update_user id req w' = (Ok (failure no_autorizado 403), tick w')
  /\ delete_user id req w' = (Ok (failure no_autorizado 403), tick w')
  /\ w_db (tick w') = w_db w'.
Proof.
  intros Tu Tr Tk N G A S.
  pose proof (director_claims_issued user_id username role token w w1 w' req
                Tu Tr Tk G A S) as D.
  cbv zeta in D. apply str_eqb_neq in N. rewrite N in D.
  assert (D' : director_claims req w' = (Ok None, tick w')).
  { rewrite D. destruct (_ <=? _); reflexivity. }
  repeat split.
  - apply get_users_unauthorized, D'.
  - apply create_user_unauthorized, D'.
  - apply update_user_unauthorized, D'.
  - apply delete_user_unauthorized, D'.
Qed.

Lemma management_refuses_other_roles_witness :
  exists token,
    generate_token 2 (lit "Secretariosajhb1a") (lit "secretario") seeded_world
    = (Ok token, tick seeded_world)
    /\ let req := mkRequest (Ok (VDict [(lit "activo", VInt 0)]))
                            (Some (lit "Bearer " ++ token)) None None in
       delete_user 2 req (tick seeded_world)
       = (Ok (failure no_autorizado 403), tick (tick seeded_world)).
Proof.
  destruct (str_encode_text (JWT_SECRET seeded_world) eq_refl) as [k K].
  pose proof (generate_token_signed 2 (lit "Secretariosajhb1a") (lit "secretario") k
                seeded_world eq_refl eq_refl K) as G.
  eexists. split; [exact G|]. cbv zeta.
  refine (proj1 (proj2 (proj2 (proj2
    (management_refuses_other_roles 2 2 (lit "Secretariosajhb1a") (lit "secretario")
       _ seeded_world (tick seeded_world) (tick seeded_world)
       (mkRequest (Ok (VDict [(lit "activo", VInt 0)]))
                  (Some (lit "Bearer " ++ _)) None None)
       eq_refl eq_refl eq_refl _ G eq_refl eq_refl))))).
  discriminate.
Defined.

(** ** GET /api/users *)

Lemma str_ltb_asym (a : pystr) :
  forall b, str_ltb a b = true -> str_ltb b a = false.
Proof.
  induction a as [|x a IH]; intros [|y b] H; cbn [str_ltb] in *;
    try reflexivity; try discriminate.
  apply orb_true_iff in H. apply orb_false_iff.
  destruct H as [H|H].
  - apply Z.ltb_lt in H. split; [apply Z.ltb_ge; lia|].
    apply andb_false_iff. left. apply Z.eqb_neq. lia.
  - apply andb_true_iff in H. destruct H as [E L]. apply Z.eqb_eq in E. subst y.
    split; [apply Z.ltb_irrefl|]. apply andb_false_iff. right. apply IH, L.
Qed.

Lemma insert_desc_perm (u : usuario) (l : list usuario) :
  Permutation (insert_desc u l) (u :: l).
Proof.
  induction l as [|v l IH]; cbn [insert_desc]; [apply Permutation_refl|].
  destruct (str_ltb (u_fecha_creacion v) (u_fecha_creacion u)).
  - apply Permutation_refl.
  - apply Permutation_trans with (v :: u :: l);
      [apply perm_skip, IH | apply perm_swap].
Qed.

Lemma insert_desc_head (u v : usuario) (l : list usuario) :
  HdRel newest_first v l -> newest_first v u ->
  HdRel newest_first v (insert_desc u l).
Proof.
  intros H R. destruct l as [|x l]; cbn [insert_desc]; [constructor; exact R|].
  destruct (str_ltb (u_fecha_creacion x) (u_fecha_creacion u));
    constructor; [exact R|]. inversion H; assumption.
Qed.

Lemma insert_desc_sorted (u : usuario) (l : list usuario) :
  Sorted newest_first l -> Sorted newest_first (insert_desc u l).
Proof.
  induction 1 as [|v l S IH H]; cbn [insert_desc].
  - constructor; constructor.
  - destruct (str_ltb (u_fecha_creacion v) (u_fecha_creacion u)) eqn:E.
    + constructor; [constructor; assumption|]. constructor.
      apply str_ltb_asym, E.
    + constructor; [exact IH|]. apply insert_desc_head; assumption.
Qed.

Lemma order_by_fecha_creacion_desc_spec (rows : list usuario) :
  Permutation (order_by_fecha_creacion_desc rows) rows
  /\ Sorted newest_first (order_by_fecha_creacion_desc rows).
Proof.
  unfold order_by_fecha_creacion_desc.
  assert (G : forall acc,
             Sorted newest_first acc ->
             Permutation (fold_left (fun sorted u => insert_desc u sorted) rows acc)
                         (acc ++ rows)
             /\ Sorted newest_first
                       (fold_left (fun sorted u => insert_desc u sorted) rows acc)).
  { induction rows as [|u rows IH]; intros acc S; cbn [fold_left].
    - rewrite app_nil_r. split; [apply Permutation_refl | exact S].
    - destruct (IH (insert_desc u acc) (insert_desc_sorted u acc S)) as [P S'].
      split; [|exact S'].
      apply Permutation_trans with (insert_desc u acc ++ rows); [exact P|].
      apply Permutation_trans with ((u :: acc) ++ rows).
      + apply Permutation_app_tail, insert_desc_perm.
      + cbn [app]. apply Permutation_middle. }
  destruct (G [] (Sorted_nil _)) as [P S]. split; assumption.
Qed.

(** X3: a token issued to a user whose role is 'director' authorizes the
    requests that carry it as long as the clock reading of the check is
    before the token's expiry; from the expiry on every /api/users route
    answers 403. *)
Theorem director_token_authorizes (user_id id : Z) (username token : pystr)
    (w w1 w' : world) (req : request) :
  is_text username = true -> is_text (JWT_SECRET w) = true ->
  generate_token user_id username (lit "director") w = (Ok token, w1) ->
  req_authorization req = Some (lit "Bearer " ++ token) ->
  JWT_SECRET w' = JWT_SECRET w ->
  let exp := timegm (w_clock w (w_ticks w) + hours 24) in
  (w_clock w' (w_ticks w') < exp * second -> authorized req w')
  /\ (exp * second <= w_clock w' (w_ticks w') ->
      get_users req w' = (Ok (failure no_autorizado 403), tick w')
      /\ create_user req w' = (Ok (failure no_autorizado 403), tick w')
      /\ update_user id req w' = (Ok (failure no_autorizado 403), tick w')
      /\ delete_user id req w' = (Ok (failure no_autorizado 403), tick w')).
Proof.
  intros Tu Tk G A S exp.
  pose proof (director_claims_issued user_id username (lit "director") token
                w w1 w' req Tu eq_refl Tk G A S) as D.
  cbv zeta in D. fold exp in D. split; intro L.
  - replace (exp * second <=? w_clock w' (w_ticks w')) with false in D
      by (symmetry; apply Z.leb_gt; lia).
    eexists. exact D.
  - replace (exp * second <=? w_clock w' (w_ticks w')) with true in D
      by (symmetry; apply Z.leb_le; lia).
    repeat split.
    + apply get_users_unauthorized, D.
    + apply create_user_unauthorized, D.
    + apply update_user_unauthorized, D.
    + apply delete_user_unauthorized, D.
Qed.

Lemma director_token_authorizes_witness :
  authorized deactivate_director_request (tick seeded_world).
Proof.
  pose proof (generate_token_signed 1 (lit "DirectorEjecutivoAndres") (lit "director")
                (JWT_SECRET seeded_world) seeded_world eq_refl eq_refl
                (str_encode_ascii (JWT_SECRET seeded_world) eq_refl)) as G.
  refine (proj1 (director_token_authorizes 1 1 (lit "DirectorEjecutivoAndres") _
                   seeded_world (tick seeded_world) (tick seeded_world)
                   deactivate_director_request eq_refl eq_refl G _ eq_refl) _).
  - vm_compute. reflexivity.
  - vm_compute. reflexivity.
Defined.

(** X4: to an authorized caller GET /api/users lists every row of
    [usuarios] exactly once, deactivated accounts included, the newest
    creation date first, and changes nothing in the database. *)
Theorem get_users_lists_every_user (req : request) (w : world) :
  authorized req w ->
  exists rows,
    get_users req w
    = (Ok (VDict [(lit "success", VBool true);
                  (lit "data", VList (map user_listing_row rows))], 200), tick w)
    /\ Permutation rows (usuarios (w_db w))
    /\ Sorted newest_first rows.
Proof.
  intros [p H].
  exists (order_by_fecha_creacion_desc (usuarios (w_db w))).
  destruct (order_by_fecha_creacion_desc_spec (usuarios (w_db w))) as [P S].
  repeat split; try assumption.
  unfold get_users. apply try_catch_ok.
  eapply bindM_step; [exact H|]. reflexivity.
Qed.

Lemma seeded_request_authorized : authorized deactivate_director_request seeded_world.
Proof. eexists. vm_compute. reflexivity. Qed.

Lemma get_users_lists_every_user_witness :
  exists rows,
    get_users deactivate_director_request seeded_world
    = (Ok (VDict [(lit "success", VBool true);
                  (lit "data", VList (map user_listing_row rows))], 200),
       tick seeded_world)
    /\ Permutation rows (usuarios (w_db seeded_world))
    /\ Sorted newest_first rows.
Proof.
  exact (get_users_lists_every_user deactivate_director_request seeded_world
           seeded_request_authorized).
Defined.
(** ** DELETE /api/users/<id> *)

Lemma delete_user_authorized (id : Z) (req : request) (w : world) :
  authorized req w -> id <> 1 -> int64 id = true ->
  delete_user id req w
  = (Ok (VDict [(lit "success", VBool true)], 200),
     set_db (tick w)
       (mkDatabase
          (map (fun u => if u_id u =? id then set_activo u (SInt 0) else u)
               (usuarios (w_db w)))
          (sesiones (w_db w)) (logs_acceso (w_db w))
          (seq_usuarios (w_db w)) (seq_sesiones (w_db w)) (seq_logs (w_db w)))).
Proof.
  intros [p H] N I.
  unfold delete_user. apply try_catch_ok.
  eapply bindM_step; [exact H|].
  replace (id =? 1) with false by (symmetry; apply Z.eqb_neq; exact N).
  eapply bindM_step; [reflexivity|].
  eapply bindM_step;
    [apply lift_eq; unfold deactivate_usuario;
     apply update_usuario_activo; [reflexivity | exact I]|].
  eapply bindM_step; reflexivity.
Qed.



(** X6: DELETE /api/users/1 never answers 200 and never changes the
    database, whatever the request; the caller who is authorized gets 400
    'No se puede eliminar al director'. *)
Theorem delete_user_spares_director (req : request) (w : world) :
  w_db (snd (delete_user 1 req w)) = w_db w
  /\ (forall body, fst (delete_user 1 req w) <> Ok (body, 200))
  /\ (authorized req w ->
      delete_user 1 req w = (Ok (failure no_eliminar_director 400), tick w)).
Proof.
  split; [apply delete_user_1_keeps_store|]. split.
  - intro body. unfold delete_user, try_catch, bindM.
    destruct (director_claims req w) as [[[p|]|e] w1]; cbn; discriminate.
  - intros [p H]. unfold delete_user. apply try_catch_ok.
    eapply bindM_step; [exact H|]. reflexivity.
Qed.

Lemma set_activo_usernames (id : Z) (v : sqlval) (l : list usuario) :
  map u_username (map (fun u => if u_id u =? id then set_activo u v else u) l)
  = map u_username l.
Proof.
  rewrite map_map. apply map_ext. intro u. destruct (u_id u =? id); reflexivity.
Qed.

(** X7: once an authorized DELETE has gone through for a user, a login with
    that user's name is refused with 401 whatever the password, the right
    one included, and opens no session. *)
Theorem deleted_user_cannot_login (req attempt : request) (w : world) (d : dict)
    (u : usuario) (password : pyval) :
  authorized req w -> u_id u <> 1 -> int64 (u_id u) = true ->
  In u (usuarios (w_db w)) ->
  u_username u <> [] -> is_text (u_username u) = true ->
  NoDup (map u_username (usuarios (w_db w))) ->
  req_json attempt = Ok (VDict d) ->
  dict_lookup d (lit "username") = Some (VStr (u_username u)) ->
  dict_lookup d (lit "password") = Some password ->
  truthy password = true ->
  let w' := snd (delete_user (u_id u) req w) in
  fst (login attempt w') = Ok (failure credenciales_invalidas 401)
  /\ sesiones (w_db (snd (login attempt w'))) = sesiones (w_db w).
Proof.
  intros A N I Hin Hne Htext Hnd Hbody Hu Hp Tp w'.
  unfold w'. rewrite (delete_user_authorized (u_id u) req w A N I).
  cbn [snd].
  assert (Tu : truthy (VStr (u_username u)) = true).
  { cbn [truthy]. destruct (u_username u); [contradiction|reflexivity]. }
  match goal with
  | |- context [login attempt ?x] =>
      destruct (login_unknown_user attempt x d _ _ Hbody Hu Hp Tu Tp) as [H1 [_ H3]]
  end.
  - change (u_username u) with (u_username (set_activo u (SInt 0))).
    apply select_deactivated.
    + cbn [set_db w_db usuarios].
      apply in_map_iff. exists u. rewrite Z.eqb_refl. split; [reflexivity|exact Hin].
    + reflexivity.
    + exact Htext.
    + cbn [set_db w_db usuarios]. rewrite set_activo_usernames. exact Hnd.
  - split; [exact H1|]. rewrite H3. reflexivity.
Qed.

Lemma deleted_user_cannot_login_witness :
  let attempt := login_request (lit "Secretariosajhb1a") (VStr (lit "Secretosajhb42")) in
  let w' := snd (delete_user 2 deactivate_director_request seeded_world) in
  fst (login attempt w') = Ok (failure credenciales_invalidas 401)
  /\ sesiones (w_db (snd (login attempt w'))) = sesiones (w_db seeded_world).
Proof.
  refine (deleted_user_cannot_login deactivate_director_request
            (login_request (lit "Secretariosajhb1a") (VStr (lit "Secretosajhb42")))
            seeded_world
            [(lit "username", VStr (lit "Secretariosajhb1a"));
             (lit "password", VStr (lit "Secretosajhb42"))]
            (nth 1 (usuarios seeded_db) director_row)
            (VStr (lit "Secretosajhb42"))
            seeded_request_authorized _ eq_refl _ _ eq_refl _
            eq_refl eq_refl eq_refl eq_refl).
  - discriminate.
  - right. left. reflexivity.
  - discriminate.
  - repeat constructor; simpl; intuition discriminate.
Defined.

(** ** Tokens and the database *)

Lemma db_blind_ret {A : Type} (a : A) : db_blind (ret a).
Proof. intros w d. reflexivity. Qed.

Lemma db_blind_lift {A : Type} (r : result A) : db_blind (lift r).
Proof. intros w d. reflexivity. Qed.

Lemma db_blind_utcnow : db_blind utcnow.
Proof. intros w d. reflexivity. Qed.

Lemma db_blind_secret : db_blind (fun w => (Ok (JWT_SECRET w), w)).
Proof. intros w d. reflexivity. Qed.

Lemma db_blind_bind {A B : Type} (m : M A) (k : A -> M B) :
  db_blind m -> (forall a, db_blind (k a)) -> db_blind (bindM m k).
Proof.
  intros Hm Hk w d. unfold bindM. rewrite Hm.
  destruct (m w) as [[a|e] w1]; cbn [fst snd]; [apply Hk | reflexivity].
Qed.

Lemma db_blind_try {A : Type} (m : M A) (c : exn -> bool) (h : exn -> M A) :
  db_blind m -> (forall e, db_blind (h e)) -> db_blind (try_catch m c h).
Proof.
  intros Hm Hh w d. unfold try_catch. rewrite Hm.
  destruct (m w) as [[a|e] w1]; cbn [fst snd]; [reflexivity|].
  destruct (c e); [apply Hh | reflexivity].
Qed.

Lemma db_blind_verify_token (token : pystr) : db_blind (verify_token token).
Proof.
  unfold verify_token, jwt_decode.
  repeat first
    [ apply db_blind_try; [|intro]
    | apply db_blind_bind; [|intro]
    | apply db_blind_ret | apply db_blind_lift | apply db_blind_utcnow
    | apply db_blind_secret ].
Qed.

Lemma logout_store_only (req : request) (w : world) :
  exists d, snd (logout req w) = set_db w d.
Proof.
  unfold logout, try_catch, bindM, lift.
  destruct (req_json req) as [data|e];
    [|exists (w_db w); symmetry; apply world_eta].
  destruct (py_get data (lit "token")) as [token|e];
    [|exists (w_db w); symmetry; apply world_eta].
  destruct (truthy token); [|exists (w_db w); symmetry; apply world_eta].
  unfold get_db, commit, ret.
  destruct (deactivate_sesiones (w_db w) token) as [conn|e];
    [exists conn; reflexivity | exists (w_db w); symmetry; apply world_eta].
Qed.

(** X8: logout revokes nothing: after any logout request, the token of the
    closed session included, [verify_token] gives for every token the
    answer it gave before. *)
Theorem logout_keeps_tokens_valid (req : request) (token : pystr) (w : world) :
  fst (verify_token token (snd (logout req w))) = fst (verify_token token w).
Proof.
  destruct (logout_store_only req w) as [d ->].
  rewrite db_blind_verify_token. reflexivity.
Qed.
(** ** Passwords hashed under a fresh salt *)




Lemma entropy_bytes (w : world) (n : nat) :
  all_bytes (map (fun i => w_entropy w (w_drawn w + i)%nat mod 256) (seq 0 n)).
Proof.
  apply Forall_forall. intros x Hx. apply in_map_iff in Hx.
  destruct Hx as [i [<- _]]. zlia.
Qed.







(** ** PUT /api/users/<id> *)

Lemma bind_all_last (params : list pyval) (p : pyval) (vs : list sqlval) :
  bind_all (params ++ [p]) = Ok vs ->
  exists v, bind_param p = Ok v /\ last vs SNull = v.
Proof.
  revert vs. induction params as [|q params IH]; intros vs H; cbn [app bind_all] in H.
  - bind_inv H. inversion Ha0; subst. inversion H; subst.
    exists a. split; [assumption|reflexivity].
  - bind_inv H. inversion H; subst.
    destruct (IH _ Ha0) as [v [Hv L]]. exists v. split; [exact Hv|].
    destruct a0 as [|x r]; [|exact L].
    destruct params; cbn [app bind_all] in Ha0; bind_inv Ha0; discriminate.
Qed.

Lemma map_result_inv {A B : Type} (f : A -> result B) (l : list A) (l' : list B) :
  map_result f l = Ok l' -> Forall2 (fun a b => f a = Ok b) l l'.
Proof.
  revert l'. induction l as [|a l IH]; intros l' H; cbn [map_result] in H.
  - inversion H. constructor.
  - bind_inv H. inversion H; subst. constructor; [assumption|]. apply IH. assumption.
Qed.

Lemma assign_identity (u u' : usuario) (c : column) (v : sqlval) :
  assign u c v = Ok u' -> identity u' = identity u.
Proof.
  destruct c; cbn [assign]; intro H; bind_inv H; inversion H; reflexivity.
Qed.

Lemma assign_all_identity (sets : list (column * sqlval)) :
  forall u u', assign_all u sets = Ok u' -> identity u' = identity u.
Proof.
  induction sets as [|[c v] sets IH]; intros u u' H; cbn [assign_all] in H.
  - inversion H. reflexivity.
  - bind_inv H. rewrite (IH _ _ H). apply (assign_identity _ _ _ _ Ha).
Qed.

(** What [UPDATE usuarios SET ... WHERE id = ?] can do to the table. *)
Lemma update_usuario_frame (conn conn' : database) (updates : list column)
    (params : list pyval) (id : Z) :
  update_usuario conn updates params id = Ok conn' ->
  Forall2 (fun u u' => identity u' = identity u /\ (u_id u <> id -> u' = u))
          (usuarios conn) (usuarios conn')
  /\ sesiones conn' = sesiones conn
  /\ logs_acceso conn' = logs_acceso conn.
Proof.
  unfold update_usuario. intro H. bind_inv H. inversion H; subst.
  cbn [usuarios sesiones logs_acceso]. split; [|split; reflexivity].
  destruct (bind_all_last _ _ _ Ha) as [v [Hv L]].
  cbn [bind_param] in Hv.
  destruct ((- 2 ^ 63 <=? id) && (id <? 2 ^ 63)); [|discriminate].
  apply Ok_inj in Hv. subst v. rewrite L in Ha0. cbn [integer_affinity sql_eq] in Ha0.
  apply map_result_inv in Ha0.
  eapply Forall2_impl; [|exact Ha0]. cbv beta. intros u u' E.
  destruct (u_id u =? id) eqn:I.
  - split; [apply (assign_all_identity _ _ _ E)|].
    apply Z.eqb_eq in I. intro N. contradiction.
  - inversion E. split; [reflexivity|]. reflexivity.
Qed.

Lemma frame_refl (l : list usuario) (id : Z) :
  Forall2 (fun u u' => identity u' = identity u /\ (u_id u <> id -> u' = u)) l l.
Proof. induction l; constructor; [split; reflexivity | assumption]. Qed.

Lemma stable_store {A : Type} (m : M A) (w : world) :
  stable m -> w_db (snd (m w)) = w_db w.
Proof. intro H. apply H. Qed.

(** The database after PUT: as before, or as one UPDATE left it. *)
Lemma update_user_store (id : Z) (req : request) (w w' : world) (r : result response) :
  update_user id req w = (r, w') ->
  w_db w' = w_db w
  \/ exists updates params, update_usuario (w_db w) updates params id = Ok (w_db w').
Proof.
  unfold update_user, try_catch, bindM at 1.
  pose proof (stable_store (director_claims req) w (stable_director_claims req)) as S.
  destruct (director_claims req w) as [[[p|]|e] w1]; cbn [snd] in S;
    [|intro H; inversion H; subst; left; exact S
     |intro H; inversion H; subst; left; exact S].
  unfold bindM at 1, lift at 1.
  destruct (req_json req) as [data|e]; [|intro H; inversion H; subst; left; exact S].
  unfold bindM at 1, get_db.
  repeat (unfold bindM at 1, lift at 1;
          match goal with
          | |- context [match collect ?d ?k ?c ?a with _ => _ end] =>
              destruct (collect d k c a) as [?acc|?e];
              [|intro H; inversion H; subst; left; exact S]
          end).
  unfold bindM at 1, lift at 1.
  destruct (py_in (lit "password") data) as [has_password|e];
    [|intro H; inversion H; subst; left; exact S].
  unfold bindM at 1.
  match goal with
  | |- context [match ?m w1 with _ => _ end] =>
      assert (S2 : w_db (snd (m w1)) = w_db w1);
      [|destruct (m w1) as [[sets|e] w2]; cbn [snd] in S2;
        [|intro H; inversion H; subst; left; congruence]]
  end.
  { apply stable_store. destruct has_password; stable_steps. }
  unfold bindM at 1.
  destruct (fst sets) as [|c cols] eqn:F.
  - intro H. inversion H; subst. left. congruence.
  - unfold bindM at 1, lift.
    destruct (update_usuario (w_db w1) (c :: cols) (snd sets) id) as [conn|e] eqn:U.
    + intro H. inversion H; subst. right. exists (c :: cols), (snd sets).
      rewrite <- S, U. reflexivity.
    + intro H. inversion H; subst. left. congruence.
Qed.

(** X10: whatever the request, PUT /api/users/<id> neither adds nor removes
    a row, leaves every row of another id exactly as it was, and never
    changes the id, the username, the creation date or the creator of a
    row; the sessions and the audit log stay as they were. *)
Theorem update_user_keeps_identity (id : Z) (req : request) (w : world) :
  let w' := snd (update_user id req w) in
  Forall2 (fun u u' => identity u' = identity u /\ (u_id u <> id -> u' = u))
          (usuarios (w_db w)) (usuarios (w_db w'))
  /\ sesiones (w_db w') = sesiones (w_db w)
  /\ logs_acceso (w_db w') = logs_acceso (w_db w).
Proof.
  cbv zeta. destruct (update_user id req w) as [r w'] eqn:H. cbn [snd].
  destruct (update_user_store id req w w' r H) as [E|[updates [params E]]].
  - rewrite E. split; [apply frame_refl|]. split; reflexivity.
  - apply (update_usuario_frame _ _ _ _ _ E).
Qed.





(** ** Dates as text *)

Lemma civil_from_days_range (dt : Z) :
  datetime_range dt ->
  let '(y, m, d) := civil_from_days (dt / second / 86400) in
  1970 <= y <= 9999 /\ 1 <= m <= 12 /\ 1 <= d <= 31.
Proof.
  unfold datetime_range. intro H. unfold civil_from_days, second in *. cbv zeta.
  destruct ((5 * _ + 2) / 153 <? 10) eqn:E1;
    [apply Z.ltb_lt in E1 | apply Z.ltb_ge in E1];
  match goal with |- context [?a <=? 2] => destruct (a <=? 2) eqn:E2;
    [apply Z.leb_le in E2 | apply Z.leb_gt in E2] end.
  all: zlia.
Qed.

Lemma two_digits_ascii (n : Z) : 0 <= n < 100 -> is_ascii (two_digits n) = true.
Proof. intro H. unfold two_digits. cbn [is_ascii forallb]. zbool. reflexivity. Qed.

Lemma four_digits_ascii (n : Z) : 0 <= n < 10000 -> is_ascii (four_digits n) = true.
Proof. intro H. unfold four_digits. cbn [is_ascii forallb]. zbool. reflexivity. Qed.

Lemma strftime_ascii (dt : Z) : datetime_range dt -> is_ascii (strftime dt) = true.
Proof.
  intro H. pose proof (civil_from_days_range dt H) as C. unfold strftime.
  destruct (civil_from_days (dt / second / 86400)) as [[y m] d].
  destruct C as [Hy [Hm Hd]].
  rewrite !is_ascii_app, four_digits_ascii, !two_digits_ascii by zlia.
  repeat split.
Qed.

Lemma strftime_text (dt : Z) : datetime_range dt -> is_text (strftime dt) = true.
Proof. intro H. apply is_ascii_text, strftime_ascii, H. Qed.

(** ** PUT after DELETE *)

(** The process after an authorized PUT whose body is {"activo": v}. *)
Lemma update_user_activo (id v : Z) (req : request) (w : world) :
  authorized req w -> int64 id = true -> int64 v = true ->
  req_json req = Ok (VDict [(lit "activo", VInt v)]) ->
  update_user id req w
  = (Ok (VDict [(lit "success", VBool true)], 200),
     set_db (tick w)
       (mkDatabase
          (map (fun u => if u_id u =? id then set_activo u (SInt v) else u)
               (usuarios (w_db w)))
          (sesiones (w_db w)) (logs_acceso (w_db w))
          (seq_usuarios (w_db w)) (seq_sesiones (w_db w)) (seq_logs (w_db w)))).
Proof.
  intros [claims A] I V B.
  unfold update_user. apply try_catch_ok.
  eapply bindM_step; [exact A|].
  eapply bindM_step; [apply lift_eq, B|].
  eapply bindM_step; [reflexivity|].
  do 5 (eapply bindM_step; [apply lift_eq; reflexivity|]).
  eapply bindM_step; [apply lift_eq; reflexivity|].
  cbv iota.
  eapply bindM_step; [reflexivity|].
  cbn [fst snd app].
  eapply bindM_step.
  { eapply bindM_step; [apply lift_eq, update_usuario_activo; assumption|].
    reflexivity. }
  reflexivity.
Qed.

Lemma set_activo_back (id : Z) (l : list usuario) :
  (forall u, In u l -> u_id u = id -> u_activo u = SInt 1) ->
  map (fun u => if u_id u =? id then set_activo u (SInt 1) else u)
      (map (fun u => if u_id u =? id then set_activo u (SInt 0) else u) l)
  = l.
Proof.
  intro H. rewrite map_map. rewrite <- (map_id l) at 2. apply map_ext_in.
  intros u Hu. destruct (u_id u =? id) eqn:E; cbn [u_id set_activo]; rewrite E;
    [|reflexivity].
  apply Z.eqb_eq in E. specialize (H u Hu E). destruct u. cbn in *. subst.
  reflexivity.
Qed.

(** X12: the soft delete can be undone: after an authorized DELETE of an
    account that was active, an authorized PUT with the body {"activo": 1}
    for the same id answers success and leaves the table of users exactly as
    it was before the DELETE. *)
Theorem update_user_restores_deleted (id : Z) (req req' : request) (w : world) :
  authorized req w -> id <> 1 -> int64 id = true ->
  (forall u, In u (usuarios (w_db w)) -> u_id u = id -> u_activo u = SInt 1) ->
  let w1 := snd (delete_user id req w) in
  authorized req' w1 ->
  req_json req' = Ok (VDict [(lit "activo", VInt 1)]) ->
  fst (update_user id req' w1) = Ok (VDict [(lit "success", VBool true)], 200)
  /\ usuarios (w_db (snd (update_user id req' w1))) = usuarios (w_db w).
Proof.
  intros A N I Act w1 A' B. unfold w1 in *.
  rewrite (delete_user_authorized id req w A N I) in *. cbn [snd] in *.
  rewrite (update_user_activo id 1 req' _ A' I eq_refl B).
  cbn [fst snd set_db w_db usuarios]. split; [reflexivity|].
  apply set_activo_back, Act.
Qed.

Lemma restore_request_authorized :
  authorized (with_bearer director_token (Ok (VDict [(lit "activo", VInt 1)])))
             (snd (delete_user 2 deactivate_director_request seeded_world)).
Proof. eexists. vm_compute. reflexivity. Qed.

Lemma update_user_restores_deleted_witness :
  let w1 := snd (delete_user 2 deactivate_director_request seeded_world) in
  let req' := with_bearer director_token (Ok (VDict [(lit "activo", VInt 1)])) in
  fst (update_user 2 req' w1) = Ok (VDict [(lit "success", VBool true)], 200)
  /\ usuarios (w_db (snd (update_user 2 req' w1))) = usuarios (w_db seeded_world).
Proof.
  refine (update_user_restores_deleted 2 deactivate_director_request
            (with_bearer director_token (Ok (VDict [(lit "activo", VInt 1)])))
            seeded_world seeded_request_authorized _ eq_refl _
            restore_request_authorized eq_refl).
  - discriminate.
  - intros u [<-|[<-|[]]] E; [discriminate E | reflexivity].
Defined.
(** ** POST /api/users *)


Lemma existsb_username (l : list usuario) (username : pystr) :
  existsb (fun u => str_eqb (u_username u) username) l = false
  <-> forall u, In u l -> u_username u <> username.
Proof.
  split.
  - intros H u Hu E.
    assert (X : existsb (fun u => str_eqb (u_username u) username) l = true).
    { apply existsb_exists. exists u. split; [exact Hu|]. apply str_eqb_eq, E. }
    congruence.
  - intro H. destruct (existsb _ l) eqn:E; [|reflexivity].
    apply existsb_exists in E. destruct E as [u [Hu E]]. apply str_eqb_eq in E.
    exfalso. apply (H u Hu E).
Qed.



Lemma now_reads (w : world) : now w = (Ok (local_time w), tick w).
Proof. reflexivity. Qed.










(** ** What POST /api/users can do to the tables *)

Lemma next_rowid_above (ids : list Z) (seq : Z) :
  forall i, In i ids -> i < next_rowid ids seq.
Proof.
  unfold next_rowid. induction ids as [|j ids IH]; intros i Hi; [contradiction|].
  cbn [fold_right]. destruct Hi as [->|Hi]; [lia|]. specialize (IH i Hi). lia.
Qed.

(** A successful INSERT INTO usuarios appends one row. *)
Lemma insert_usuario_frame (conn conn' : database)
    (username : pyval) (pwd_hash salt : pystr)
    (nombre_completo email role permisos : pyval) (fecha : pystr)
    (creado_por : pyval) (id : Z) :
  insert_usuario conn username pwd_hash salt nombre_completo email role permisos
                 fecha creado_por = Ok (conn', id) ->
  exists row,
    usuarios conn' = usuarios conn ++ [row]
    /\ u_id row = id
    /\ id = next_user_id conn
    /\ u_activo row = SInt 1
    /\ u_ultimo_acceso row = None
    /\ (forall u, In u (usuarios conn) -> u_username u <> u_username row)
    /\ sesiones conn' = sesiones conn
    /\ logs_acceso conn' = logs_acceso conn.
Proof.
  unfold insert_usuario. intro H. bind_inv H.
  destruct (existsb _ (usuarios conn)) eqn:E; [discriminate|].
  inversion H; subst. eexists. split; [reflexivity|].
  cbn [u_id u_activo u_ultimo_acceso u_username sesiones logs_acceso].
  repeat split. apply existsb_username, E.
Qed.

(** The database after POST /api/users: as before, the answer not being
    200, or as one INSERT left it, the answer being 200 with the row's id. *)
Lemma create_user_store (req : request) (w w' : world) (r : result response) :
  create_user req w = (r, w') ->
  (w_db w' = w_db w /\ forall body, r <> Ok (body, 200))
  \/ exists username pwd_hash salt nombre_completo email role permisos fecha
            creado_por id,
       insert_usuario (w_db w) username pwd_hash salt nombre_completo email role
                      permisos fecha creado_por = Ok (w_db w', id)
       /\ r = Ok (VDict [(lit "success", VBool true); (lit "id", VInt id)], 200).
Proof.
  unfold create_user, try_catch, bindM at 1.
  pose proof (stable_store (director_claims req) w (stable_director_claims req)) as S.
  assert (Out : forall (e : exn) (w1 : world),
             w_db w1 = w_db w ->
             (if match e with sqlite3_IntegrityError => true | _ => false end
              then ret (failure el_usuario_ya_existe 400) w1
              else if is_Exception e then ret (failure (str_of_exn e) 500) w1
                   else (Raise e, w1)) = (r, w') ->
             (w_db w' = w_db w /\ forall body, r <> Ok (body, 200))
             \/ exists username pwd_hash salt nombre_completo email role permisos
                       fecha creado_por id,
                  insert_usuario (w_db w) username pwd_hash salt nombre_completo
                                 email role permisos fecha creado_por
                  = Ok (w_db w', id)
                  /\ r = Ok (VDict [(lit "success", VBool true); (lit "id", VInt id)],
                             200)).
  { intros e w1 E H. left. destruct e; inversion H; subst;
      (split; [exact E | intros body X; discriminate X]). }
  destruct (director_claims req w) as [[[p|]|e] w1]; cbn [snd] in S.
  2: { intro H. inversion H; subst. left.
       split; [exact S | intros body X; discriminate X]. }
  2: { intro H. apply (Out e w1 S). destruct e; exact H. }
  unfold bindM at 1, lift at 1.
  destruct (req_json req) as [data|e].
  2: { intro H. apply (Out e w1 S). destruct e; exact H. }
  repeat (unfold bindM at 1, lift at 1;
          match goal with
          | |- context [match py_get ?d ?k with _ => _ end] =>
              let e := fresh "e" in
              destruct (py_get d k) as [?v|e];
              [|intro H; apply (Out e w1 S); destruct e; exact H]
          end).
  destruct (negb (forallb truthy [v; v0; v1; v3; v4])).
  { intro H. inversion H; subst. left.
    split; [exact S | intros body X; discriminate X]. }
  unfold bindM at 1.
  pose proof (stable_store (hash_password v0 None) w1 (stable_hash_password _ _)) as S2.
  destruct (hash_password v0 None w1) as [[[pwd_hash salt]|e] w2]; cbn [snd] in S2.
  2: { intro H. apply (Out e w2); [congruence|]. destruct e; exact H. }
  unfold bindM at 1, get_db.
  unfold bindM at 1.
  pose proof (stable_store now w2 stable_now) as S3.
  destruct (now w2) as [[t|e] w3]; cbn [snd] in S3.
  2: { intro H. apply (Out e w3); [congruence|]. destruct e; exact H. }
  unfold bindM at 1, lift at 1.
  destruct (py_item (VDict p) (lit "user_id")) as [creado_por|e].
  2: { intro H. apply (Out e w3); [congruence|]. destruct e; exact H. }
  unfold bindM at 1, lift at 1.
  destruct (insert_usuario (w_db w2) v pwd_hash salt v1 v2 v3 v4 (strftime t)
                           creado_por) as [[conn id]|e] eqn:I.
  2: { intro H. apply (Out e w3); [congruence|]. destruct e; exact H. }
  intro H. inversion H; subst. right.
  exists v, pwd_hash, salt, v1, v2, v3, v4, (strftime t), creado_por, id.
  split; [|reflexivity]. cbn [set_db w_db]. rewrite <- S, <- S2. exact I.
Qed.

(** X15: whatever the request, POST /api/users changes no row that exists
    and touches neither the sessions nor the audit log.  Either the answer
    is not 200 and the users are as before, or it is 200 and exactly one row
    has been appended: active, never logged in, with the id the answer
    gives, an id above every id in the table, and a username no other row
    has. *)
Theorem create_user_appends_one_row (req : request) (w : world) :
  let r := fst (create_user req w) in
  let w' := snd (create_user req w) in
  sesiones (w_db w') = sesiones (w_db w)
  /\ logs_acceso (w_db w') = logs_acceso (w_db w)
  /\ ((usuarios (w_db w') = usuarios (w_db w) /\ forall body, r <> Ok (body, 200))
      \/ exists row,
           usuarios (w_db w') = usuarios (w_db w) ++ [row]
           /\ r = Ok (VDict [(lit "success", VBool true); (lit "id", VInt (u_id row))],
                      200)
           /\ u_activo row = SInt 1
           /\ u_ultimo_acceso row = None
           /\ forall u, In u (usuarios (w_db w)) ->
                        u_id u < u_id row /\ u_username u <> u_username row).
Proof.
  cbv zeta. destruct (create_user req w) as [r w'] eqn:H. cbn [fst snd].
  destruct (create_user_store req w w' r H)
    as [[E N]|(un & ph & sa & nc & em & ro & pe & fe & cp & id & I & R)].
  - rewrite E. split; [reflexivity|]. split; [reflexivity|]. left.
    split; [reflexivity | exact N].
  - destruct (insert_usuario_frame _ _ _ _ _ _ _ _ _ _ _ _ I)
      as (row & U & Hid & Hnext & Hact & Hlast & Hfresh & Hs & Hl).
    split; [exact Hs|]. split; [exact Hl|]. right. exists row.
    rewrite Hid. repeat split; try assumption.
    + rewrite Hnext. apply next_rowid_above, in_map. assumption.
    + apply Hfresh. assumption.
Qed.
(** ** A login that succeeds *)

Lemma select_active (conn : database) (u : usuario) :
  In u (usuarios conn) -> u_activo u = SInt 1 ->
  is_text (u_username u) = true ->
  NoDup (map u_username (usuarios conn)) ->
  select_active_user conn (VStr (u_username u)) = Ok (Some u).
Proof.
  intros Hin Hact Htext Hnd. unfold select_active_user. cbn [bind_param].
  rewrite Htext. cbn [bind text_affinity]. f_equal.
  destruct (find _ (usuarios conn)) as [v|] eqn:F.
  - apply find_some in F. destruct F as [Hv E]. cbn [sql_eq] in E.
    apply andb_true_iff in E. destruct E as [E _]. apply str_eqb_eq in E.
    rewrite (unique_username _ u v Hnd Hin Hv E). reflexivity.
  - exfalso. apply (find_none _ _ F) in Hin. cbn [sql_eq] in Hin.
    rewrite str_eqb_refl, Hact in Hin. discriminate Hin.
Qed.

Lemma bind_param_opt (o : option pystr) :
  opt_is_text o = true ->
  exists v, bind_param (of_opt o) = Ok v /\ opt_text v = o.
Proof.
  destruct o as [s|]; cbn [opt_is_text of_opt bind_param]; intro H.
  - rewrite H. exists (SText s). split; reflexivity.
  - exists SNull. split; reflexivity.
Qed.

Lemma update_ultimo_acceso_text (conn : database) (fecha : pystr) (id : Z) :
  is_text fecha = true -> int64 id = true ->
  update_ultimo_acceso conn fecha id
  = Ok (mkDatabase
          (map (fun v => if u_id v =? id then set_ultimo_acceso v fecha else v)
               (usuarios conn))
          (sesiones conn) (logs_acceso conn)
          (seq_usuarios conn) (seq_sesiones conn) (seq_logs conn)).
Proof.
  intros T I. unfold update_ultimo_acceso. cbn [bind_param]. rewrite T.
  fold (bind_param (VInt id)). rewrite (bind_param_int _ I). reflexivity.
Qed.

Lemma insert_sesion_text (conn : database) (user_id : Z) (token : pystr)
    (ip ua : option pystr) (inicio expiracion : pystr) :
  int64 user_id = true -> is_text token = true ->
  opt_is_text ip = true -> opt_is_text ua = true ->
  is_text inicio = true -> is_text expiracion = true ->
  insert_sesion conn user_id token ip ua inicio expiracion
  = Ok (mkDatabase
          (usuarios conn)
          (sesiones conn
           ++ [mkSesion (next_session_id conn) user_id token ip ua inicio expiracion
                        (SInt 1)])
          (logs_acceso conn)
          (seq_usuarios conn) (next_session_id conn) (seq_logs conn)).
Proof.
  intros I T Hip Hua Ti Te. unfold insert_sesion.
  rewrite (bind_param_int _ I).
  destruct (bind_param_opt ip Hip) as [vip [-> <-]].
  destruct (bind_param_opt ua Hua) as [vua [-> <-]].
  cbn [bind_param]. rewrite T, Ti, Te. reflexivity.
Qed.

(** X16: a login with the name of an active account and a password that
    verifies against its stored hash answers 200 with the token
    [generate_token] issues for the account's id, username and role, and
    with the account's public fields.  It appends one session, active, for
    that token and account, carrying the client's address and User-Agent,
    and stamps the account's last access; no other column of a user
    changes. *)
Theorem login_opens_session (req : request) (w : world) (d : dict) (u : usuario)
    (password : pyval) :
  req_json req = Ok (VDict d) ->
  dict_lookup d (lit "username") = Some (VStr (u_username u)) ->
  dict_lookup d (lit "password") = Some password ->
  In u (usuarios (w_db w)) -> u_activo u = SInt 1 -> given (u_username u) ->
  truthy password = true ->
  verify_password password (u_password_hash u) (u_salt u) w = (Ok true, w) ->
  login_ready req w u ->
  exists token w',
    generate_token (u_id u) (u_username u) (u_role u) w = (Ok token, tick w)
    /\ login req w
       = (Ok (VDict [(lit "success", VBool true);
                     (lit "token", VStr token);
                     (lit "user",
                      VDict [(lit "id", VInt (u_id u));
                             (lit "username", VStr (u_username u));
                             (lit "nombre_completo", VStr (u_nombre_completo u));
                             (lit "role", VStr (u_role u));
                             (lit "permisos", VStr (u_permisos u))])], 200), w')
    /\ sesiones (w_db w')
       = sesiones (w_db w)
         ++ [mkSesion (next_session_id (w_db w)) (u_id u) token
                      (req_remote_addr req) (req_user_agent req)
                      (strftime (local_time (tick w)))
                      (strftime (local_time (tick (tick w)) + hours 24))
                      (SInt 1)]
    /\ usuarios (w_db w')
       = map (fun v => if u_id v =? u_id u
                       then set_ultimo_acceso v (strftime (local_time (tick w)))
                       else v)
             (usuarios (w_db w)).
Proof.
  intros Hbody Hu Hp Hin Hact [Tu Nu] Tp V (Hnd & Tr & Tk & I & Hip & Hua & D1 & D2).
  destruct (str_encode_text _ Tk) as [k K].
  pose proof (generate_token_signed (u_id u) (u_username u) (u_role u) k w Tu Tr K) as G.
  set (token := signed_token _ k) in G.
  assert (Tt : is_text token = true).
  { apply is_ascii_text, signed_token_ascii, json_dumps_claims_ascii; assumption. }
  set (conn := mkDatabase
                 (usuarios
                    (mkDatabase
                       (map (fun v => if u_id v =? u_id u
                                      then set_ultimo_acceso v
                                             (strftime (local_time (tick w)))
                                      else v) (usuarios (w_db w)))
                       (sesiones (w_db w)) (logs_acceso (w_db w))
                       (seq_usuarios (w_db w)) (seq_sesiones (w_db w))
                       (seq_logs (w_db w))))
                 (sesiones (w_db w)
                  ++ [mkSesion (next_session_id (w_db w)) (u_id u) token
                               (req_remote_addr req) (req_user_agent req)
                               (strftime (local_time (tick w)))
                               (strftime (local_time (tick (tick w)) + hours 24))
                               (SInt 1)])
                 (logs_acceso (w_db w))
                 (seq_usuarios (w_db w)) (next_session_id (w_db w))
                 (seq_logs (w_db w))).
  destruct (log_access_total (Some (u_id u)) (VStr (u_username u))
              (lit "login_exitoso") (req_remote_addr req) true
              (set_db (tick (tick (tick w))) conn)) as [w' [L [Lu Ls]]].
  exists token, w'. split; [exact G|]. split; [|split].
  - apply (login_accepted req w w w' d (VStr (u_username u)) password u _
             Hbody Hu Hp).
    + cbn [truthy]. destruct (u_username u); [contradiction|reflexivity].
    + exact Tp.
    + apply select_active; assumption.
    + exact V.
    + unfold open_session.
      eapply bindM_step; [exact G|].
      eapply bindM_step; [apply now_reads|]. cbv zeta.
      eapply bindM_step;
        [apply lift_eq, update_ultimo_acceso_text; [apply strftime_text, D1 | exact I]|].
      eapply bindM_step; [apply now_reads|]. cbv zeta.
      eapply bindM_step;
        [apply lift_eq, insert_sesion_text;
         [exact I | exact Tt | exact Hip | exact Hua
         | apply strftime_text, D1 | apply strftime_text, D2]|].
      eapply bindM_step; [reflexivity|].
      eapply bindM_step; [exact L|]. reflexivity.
  - rewrite Ls. reflexivity.
  - rewrite Lu. reflexivity.
Qed.

Lemma director_login_ready (h : pystr) :
  login_ready director_login (world_at_turn_of_second h) (director_with h).
Proof.
  unfold login_ready. repeat split; try reflexivity.
  - cbn [world_at_turn_of_second w_db usuarios map director_with u_username].
    constructor; [intros []|constructor].
  - cbv. discriminate.
  - cbv. discriminate.
Qed.

Lemma login_opens_session_witness :
  exists token w',
    generate_token 1 (lit "DirectorEjecutivoAndres") (lit "director")
                   (world_at_turn_of_second director_hash)
    = (Ok token, tick (world_at_turn_of_second director_hash))
    /\ login director_login (world_at_turn_of_second director_hash)
       = (Ok (VDict [(lit "success", VBool true);
                     (lit "token", VStr token);
                     (lit "user",
                      VDict [(lit "id", VInt 1);
                             (lit "username", VStr (lit "DirectorEjecutivoAndres"));
                             (lit "nombre_completo", VStr (lit "Director Ejecutivo"));
                             (lit "role", VStr (lit "director"));
                             (lit "permisos", VStr (lit "all"))])], 200), w')
    /\ sesiones (w_db w')
       = [mkSesion 1 1 token (Some (lit "127.0.0.1")) (Some (lit "curl/8.5.0"))
                   (lit "2024-01-01 09:59:59") (lit "2024-01-02 10:00:00") (SInt 1)]
    /\ usuarios (w_db w')
       = [set_ultimo_acceso (director_with director_hash)
                            (lit "2024-01-01 09:59:59")].
Proof.
  refine (login_opens_session director_login (world_at_turn_of_second director_hash)
            [(lit "username", VStr (lit "DirectorEjecutivoAndres"));
             (lit "password", VStr (lit "Hidalgoajhb41"))]
            (director_with director_hash) (VStr (lit "Hidalgoajhb41"))
            eq_refl eq_refl eq_refl (or_introl eq_refl) eq_refl _ eq_refl
            (director_password_verifies _) (director_login_ready _)).
  split; [reflexivity | discriminate].
Defined.
(** ** The audit log *)


(** ** Start-up *)

Lemma has_username_existsb (d : database) (username : pystr) :
  has_username d username
  <-> existsb (fun u => str_eqb (u_username u) username) (usuarios d) = true.
Proof.
  unfold has_username. rewrite existsb_exists. split; intros [u [Hu E]]; exists u;
    (split; [exact Hu|]); apply str_eqb_eq; exact E.
Qed.

Lemma seed_present (conn : database)
    (username password nombre_completo email role permisos fecha : pystr) (w : world) :
  has_username conn username ->
  seed conn username password nombre_completo email role permisos fecha w
  = (Ok conn, w).
Proof.
  intro H. apply has_username_existsb in H. unfold seed. rewrite H. reflexivity.
Qed.





(** X19: on a database that has both start-up usernames, [init_db] changes
    nothing: it does not reset a password that was changed, nor reactivate
    an account that was deactivated, and it draws no salt. *)
Theorem init_db_keeps_accounts (w : world) :
  has_username (w_db w) director_username ->
  has_username (w_db w) secretario_username ->
  init_db w = (Ok tt, tick w).
Proof.
  intros Hd Hs. unfold init_db.
  eapply bindM_step; [reflexivity|].
  eapply bindM_step; [apply now_reads|]. cbv zeta.
  eapply bindM_step; [apply seed_present, Hd|].
  eapply bindM_step; [apply seed_present, Hs|].
  unfold commit. change (w_db w) with (w_db (tick w)). rewrite world_eta. reflexivity.
Qed.

Lemma init_db_keeps_accounts_witness :
  init_db world_without_director = (Ok tt, tick world_without_director).
Proof.
  apply init_db_keeps_accounts.
  - exists director_row. split; [left|]; reflexivity.
  - eexists. split; [right; left|]; reflexivity.
Defined.
(** ** POST or GET /api/verify *)

Lemma str_split_plain (sep : Z) (t : pystr) :
  ~ In sep t -> str_split sep t = [t].
Proof.
  induction t as [|c t IH]; intro N; [reflexivity|].
  cbn [str_split].
  replace (c =? sep) with false
    by (symmetry; apply Z.eqb_neq; intro E; apply N; left; exact E).
  rewrite IH; [reflexivity|]. intro I. apply N. right. exact I.
Qed.

Lemma split_bearer (t : pystr) :
  ~ In 32 t -> nth 1 (str_split 32 (lit "Bearer " ++ t)) [] = t.
Proof.
  intro N.
  change (lit "Bearer " ++ t) with (66 :: 101 :: 97 :: 114 :: 101 :: 114 :: 32 :: t).
  cbn [str_split Z.eqb Pos.eqb]. rewrite (str_split_plain 32 t N). reflexivity.
Qed.

Lemma signed_token_truthy (payload : dict) (k : bytes) :
  truthy (VStr (signed_token payload k)) = true.
Proof.
  unfold signed_token. cbn [truthy].
  destruct (signing_input payload); reflexivity.
Qed.

(** X20: /api/verify takes a token [generate_token] issued from the header
    'Authorization: Bearer <token>', whatever the body is, or, without that
    header, from the JSON body {"token": <token>}.  Before the token's
    expiry it answers 200 with the claims issued; from the expiry on, 401. *)
Theorem verify_accepts_issued_token (user_id : Z) (username role token : pystr)
    (w w1 w' : world) (req : request) :
  is_text username = true -> is_text role = true ->
  is_text (JWT_SECRET w) = true ->
  generate_token user_id username role w = (Ok token, w1) ->
  (req_authorization req = Some (lit "Bearer " ++ token)
   \/ (req_authorization req = None
       /\ req_json req = Ok (VDict [(lit "token", VStr token)]))) ->
  JWT_SECRET w' = JWT_SECRET w ->
  let exp := timegm (w_clock w (w_ticks w) + hours 24) in
  verify req w'
  = (Ok (if exp * second <=? w_clock w' (w_ticks w')
         then invalid token_invalido_o_expirado 401
         else (VDict [(lit "valid", VBool true);
                      (lit "user", VDict (token_claims user_id username role exp))],
               200)),
     tick w').
Proof.
  intros Tu Tr Tk G A S exp.
  destruct (str_encode_text _ Tk) as [k K].
  pose proof (generate_token_signed user_id username role k w Tu Tr K) as G'.
  fold exp in G'.
  assert (E : token = signed_token (token_claims user_id username role exp) k)
    by congruence.
  subst token.
  rewrite <- S in K.
  pose proof (verify_signed_token user_id username role exp k w' Tu Tr K) as V.
  assert (T : (token <<- ret (VStr (signed_token
                                      (token_claims user_id username role exp) k)) ;;
               if negb (truthy token) then ret (invalid token_no_proporcionado 400)
               else
                 payload <<- verify_token_value token ;;
                 match payload with
                 | None | Some [] => ret (invalid token_invalido_o_expirado 401)
                 | Some p =>
                     ret (VDict [(lit "valid", VBool true); (lit "user", VDict p)],
                          200)
                 end) w'
              = (Ok (if exp * second <=? w_clock w' (w_ticks w')
                     then invalid token_invalido_o_expirado 401
                     else (VDict [(lit "valid", VBool true);
                                  (lit "user",
                                   VDict (token_claims user_id username role exp))],
                           200)),
                 tick w')).
  { eapply bindM_step; [reflexivity|].
    rewrite signed_token_truthy. cbn [negb].
    cbn [verify_token_value].
    destruct (exp * second <=? w_clock w' (w_ticks w'));
      (eapply bindM_step; [exact V|]); reflexivity. }
  unfold verify. apply try_catch_ok.
  destruct A as [A|[A B]]; rewrite A.
  - change (lit "Bearer " ++ signed_token (token_claims user_id username role exp) k)
      with (66 :: (101 :: 97 :: 114 :: 101 :: 114 :: 32
                   :: signed_token (token_claims user_id username role exp) k)).
    cbv iota.
    change (starts_with (lit "Bearer ")
              (66 :: 101 :: 97 :: 114 :: 101 :: 114 :: 32
               :: signed_token (token_claims user_id username role exp) k))
      with true.
    cbv iota.
    change (66 :: 101 :: 97 :: 114 :: 101 :: 114 :: 32
            :: signed_token (token_claims user_id username role exp) k)
      with (lit "Bearer " ++ signed_token (token_claims user_id username role exp) k).
    rewrite split_bearer; [exact T|].
    apply signed_token_no_space, json_dumps_claims_ascii; assumption.
  - rewrite B. exact T.
Qed.

Lemma verify_accepts_issued_token_witness :
  exists token,
    generate_token 2 (lit "Secretariosajhb1a") (lit "secretario") seeded_world
    = (Ok token, tick seeded_world)
    /\ verify (mkRequest (Raise TypeError) (Some (lit "Bearer " ++ token)) None None)
              (tick seeded_world)
       = (Ok (VDict [(lit "valid", VBool true);
                     (lit "user",
                      VDict (token_claims 2 (lit "Secretariosajhb1a")
                                          (lit "secretario") 1704189599))], 200),
          tick (tick seeded_world)).
Proof.
  pose proof (generate_token_signed 2 (lit "Secretariosajhb1a") (lit "secretario")
                (JWT_SECRET seeded_world) seeded_world eq_refl eq_refl
                (str_encode_ascii (JWT_SECRET seeded_world) eq_refl)) as G.
  eexists. split; [exact G|].
  exact (verify_accepts_issued_token 2 (lit "Secretariosajhb1a") (lit "secretario") _
           seeded_world (tick seeded_world) (tick seeded_world)
           (mkRequest (Raise TypeError) (Some (lit "Bearer " ++ _)) None None)
           eq_refl eq_refl eq_refl G (or_introl eq_refl) eq_refl).
Defined.
(** ** What an accepted token has been checked for *)








(** X22: /api/verify answers 200 only for a token [verify_token] accepts,
    with claims that are not empty, and the body then carries exactly those
    claims; the database is as it was. *)
Theorem verify_answers_200_for_valid_tokens_only (req : request) (w w' : world)
    (body : pyval) :
  verify req w = (Ok (body, 200), w') ->
  exists token claims,
    verify_token token w = (Ok (Some claims), w')
    /\ claims <> []
    /\ body = VDict [(lit "valid", VBool true); (lit "user", VDict claims)]
    /\ w_db w' = w_db w.
Proof.
  unfold verify, try_catch.
  assert (T : forall (m : M pyval),
             (forall w1 r, m w = (r, w1) -> w1 = w) ->
             (let (r, w1) :=
                (token <<- m ;;
                 if negb (truthy token) then ret (invalid token_no_proporcionado 400)
                 else
                   payload <<- verify_token_value token ;;
                   match payload with
                   | None | Some [] => ret (invalid token_invalido_o_expirado 401)
                   | Some p =>
                       ret (VDict [(lit "valid", VBool true); (lit "user", VDict p)],
                            200)
                   end) w in
              match r with
              | Ok a => (Ok a, w1)
              | Raise e =>
                  if is_Exception e then ret (invalid error_interno 500) w1
                  else (Raise e, w1)
              end) = (Ok (body, 200), w') ->
             exists token claims,
               verify_token token w = (Ok (Some claims), w')
               /\ claims <> []
               /\ body = VDict [(lit "valid", VBool true); (lit "user", VDict claims)]
               /\ w_db w' = w_db w).
  { intros m Hm. unfold bindM at 1.
    destruct (m w) as [[token|e] w1] eqn:E; [|discriminate].
    rewrite (Hm _ _ eq_refl).
    destruct (truthy token); cbn [negb]; [|discriminate].
    unfold bindM.
    destruct token as [| | |t| |]; cbn [verify_token_value]; try discriminate.
    pose proof (stable_store (verify_token t) w (stable_verify_token t)) as S.
    destruct (verify_token t w) as [[[[|kv p]|]|e] w2] eqn:V; cbn [snd] in S;
      try discriminate.
    intro H. inversion H; subst. exists t, (kv :: p).
    split; [exact V|]. split; [discriminate|]. split; [reflexivity | exact S]. }
  assert (B : forall w1 r,
             (data <<- lift (req_json req) ;;
              if truthy data then lift (py_get data (lit "token")) else ret VNone) w
             = (r, w1) -> w1 = w).
  { intros w1 r. unfold bindM, lift.
    destruct (req_json req) as [data|e]; [|intro H; inversion H; reflexivity].
    destruct (truthy data); intro H; inversion H; reflexivity. }
  destruct (req_authorization req) as [[|c h]|]; try (apply T, B).
  destruct (starts_with (lit "Bearer ") (c :: h)); [|apply T, B].
  apply T. intros w1 r H. inversion H. reflexivity.
Qed.

Lemma verify_director_answer :
  verify (with_bearer director_token (Ok VNone)) (tick seeded_world)
  = (Ok (VDict [(lit "valid", VBool true);
                (lit "user",
                 VDict (token_claims 1 (lit "DirectorEjecutivoAndres")
                                     (lit "director") 1704189599))], 200),
     tick (tick seeded_world)).
Proof. vm_compute. reflexivity. Qed.

Lemma verify_answers_200_for_valid_tokens_only_witness :
  exists token claims,
    verify_token token (tick seeded_world)
    = (Ok (Some claims), tick (tick seeded_world))
    /\ claims <> []
    /\ VDict [(lit "valid", VBool true);
              (lit "user",
               VDict (token_claims 1 (lit "DirectorEjecutivoAndres") (lit "director")
                                   1704189599))]
       = VDict [(lit "valid", VBool true); (lit "user", VDict claims)]
    /\ w_db (tick (tick seeded_world)) = w_db (tick seeded_world).
Proof.
  exact (verify_answers_200_for_valid_tokens_only
           (with_bearer director_token (Ok VNone)) (tick seeded_world) _ _
           verify_director_answer).
Defined.
(** ** The shape of a ciphertext *)

Lemma pkcs7_pad_blocks (d : bytes) :
  length (pkcs7_pad d) = (16 * (length d / 16 + 1))%nat.
Proof.
  unfold pkcs7_pad. rewrite length_app, repeat_length.
  apply Nat2Z.inj. rewrite Nat2Z.inj_add, Z2Nat.id by zlia.
  rewrite Nat2Z.inj_mul, Nat2Z.inj_add, Nat2Z.inj_div. cbn [Z.of_nat Pos.of_succ_nat Pos.succ].
  zlia.
Qed.

(** X23: for a text UTF-8 can encode, under a key of 32 bytes,
    [encrypt_data] draws 16 random bytes as the IV and returns base64 text
    that decodes to the IV followed by the encrypted blocks: one block more
    than the whole blocks of the encoded plaintext, so that a plaintext is
    never sent without padding.  The database is not touched. *)
Theorem encrypt_data_format (T : pystr) (w : world) :
  is_text T = true ->
  length (AES_KEY w) = 32%nat -> all_bytes (AES_KEY w) ->
  exists d c body,
    str_encode T = Ok d
    /\ encrypt_data T w = (Ok c, drawn 16 w)
    /\ is_ascii c = true
    /\ b64decode c = Ok (fresh_iv w ++ body)
    /\ length body = (16 * (length d / 16 + 1))%nat
    /\ w_db (drawn 16 w) = w_db w.
Proof.
  intros HT KL KB.
  destruct (str_encode_text T HT) as [d D].
  assert (IB : is_block (fresh_iv w)).
  { split; [unfold fresh_iv; rewrite length_map, length_seq; reflexivity|].
    apply entropy_bytes. }
  pose proof (pkcs7_pad_blocks d) as N.
  pose proof (pkcs7_pad_bytes d (str_encode_bytes T d D)) as PB.
  destruct (cbc_round_trip (AES_KEY w) KL KB _ (fresh_iv w) (pkcs7_pad d) IB PB N)
    as [EL [EB _]].
  assert (Q : (length (pkcs7_pad d) / 16)%nat = (length d / 16 + 1)%nat).
  { rewrite N, Nat.mul_comm. apply Nat.div_mul. discriminate. }
  remember (cbc_encrypt_go (length d / 16 + 1) (AES_KEY w) (fresh_iv w) (pkcs7_pad d))
    as body eqn:Ebody.
  assert (AB : all_bytes (fresh_iv w ++ body)).
  { apply Forall_app. split; [apply IB | exact EB]. }
  exists d, (b64encode (fresh_iv w ++ body)), body.
  split; [exact D|]. split; [|split; [apply b64encode_ascii|]].
  - assert (I : token_bytes 16 w = (Ok (fresh_iv w), drawn 16 w)) by reflexivity.
    unfold encrypt_data. apply try_catch_ok.
    eapply bindM_step; [exact I|].
    eapply bindM_step; [reflexivity|].
    change (AES_KEY (drawn 16 w)) with (AES_KEY w).
    eapply bindM_step;
      [apply lift_eq, cipher_aes_cbc_ok; [exact KL | apply IB]|].
    eapply bindM_step; [apply lift_eq, D|].
    apply lift_eq. unfold cbc_encrypt. rewrite Q, <- Ebody.
    apply bytes_decode_ascii, b64encode_ascii.
  - split; [apply b64decode_encode, AB|]. split; [exact EL | reflexivity].
Qed.

Lemma encrypt_data_format_witness :
  exists d c body,
    str_encode (lit "ventas,secretarios") = Ok d
    /\ encrypt_data (lit "ventas,secretarios") seeded_world
       = (Ok c, drawn 16 seeded_world)
    /\ is_ascii c = true
    /\ b64decode c = Ok (fresh_iv seeded_world ++ body)
    /\ length body = (16 * (length d / 16 + 1))%nat
    /\ w_db (drawn 16 seeded_world) = w_db seeded_world.
Proof.
  refine (encrypt_data_format (lit "ventas,secretarios") seeded_world
            eq_refl eq_refl _).
  apply forallb_is_byte. vm_compute. reflexivity.
Defined.

(** ** Ciphertexts [decrypt_data] refuses *)

(** X24: [decrypt_data] returns no text for a ciphertext that is too
    short: when the base64 text decodes to fewer than 32 bytes, less than
    an IV and one block, it raises, whatever the key. *)
Theorem decrypt_data_refuses_short (c : pystr) (b : bytes) (w : world) :
  b64decode c = Ok b -> (length b < 32)%nat ->
  exists e, decrypt_data c w = (Raise e, w).
Proof.
  intros D L.
  assert (R : exists e,
             (_ <<- lift (cipher_aes_cbc (AES_KEY w) (firstn 16 b)) ;;
              _ <<- lift (if Z.of_nat (length (skipn 16 b)) mod 16 =? 0 then Ok tt
                          else Raise ValueError) ;;
              decrypted <<- lift (pkcs7_unpad
                                    (cbc_decrypt (AES_KEY w) (firstn 16 b)
                                                 (skipn 16 b))) ;;
              lift (bytes_decode decrypted)) w = (Raise e, w)).
  { unfold bindM, lift.
    destruct (cipher_aes_cbc (AES_KEY w) (firstn 16 b)) as [[]|e];
      [|exists e; reflexivity].
    destruct (Z.of_nat (length (skipn 16 b)) mod 16 =? 0) eqn:M;
      [|exists ValueError; reflexivity].
    apply Z.eqb_eq in M. rewrite length_skipn in M.
    assert (Z : length (skipn 16 b) = 0%nat) by (rewrite length_skipn; zlia).
    apply length_zero_iff_nil in Z. rewrite Z.
    exists ValueError. reflexivity. }
  destruct R as [e R]. exists e. unfold decrypt_data.
  eapply try_catch_caught; [|reflexivity|reflexivity].
  eapply bindM_step; [apply lift_eq, D|]. cbv zeta.
  eapply bindM_step; [reflexivity|]. exact R.
Qed.

Lemma decrypt_data_refuses_short_witness :
  exists e, decrypt_data (lit "QUJDREVGR0hJSktMTU5PUFFSU1RVVg==") seeded_world
            = (Raise e, seeded_world).
Proof.
  refine (decrypt_data_refuses_short (lit "QUJDREVGR0hJSktMTU5PUFFSU1RVVg==")
            (lit "ABCDEFGHIJKLMNOPQRSTUV") seeded_world _ _).
  - vm_compute. reflexivity.
  - cbn. lia.
Defined.
(** ** What POST /api/login can do to the tables *)

Lemma update_ultimo_acceso_frame (conn conn' : database) (fecha : pystr) (id : Z) :
  update_ultimo_acceso conn fecha id = Ok conn' ->
  Forall2 (fun u u' => u' = u \/ exists f, u' = set_ultimo_acceso u f)
          (usuarios conn) (usuarios conn')
  /\ sesiones conn' = sesiones conn.
Proof.
  unfold update_ultimo_acceso. intro H. bind_inv H. inversion H; subst. clear H.
  cbn [usuarios sesiones]. split; [|reflexivity].
  destruct (opt_text a) as [f|] eqn:F.
  - induction (usuarios conn) as [|u l IH]; cbn [map]; constructor; [|exact IH].
    match goal with |- context [if ?c then _ else _] => destruct c end;
      [right; exists f; reflexivity | left; reflexivity].
  - exfalso. cbn [bind_param] in Ha. destruct (is_text fecha); [|discriminate].
    inversion Ha; subst. discriminate F.
Qed.

Lemma insert_sesion_frame (conn conn' : database) (user_id : Z) (token : pystr)
    (ip ua : option pystr) (inicio expiracion : pystr) :
  insert_sesion conn user_id token ip ua inicio expiracion = Ok conn' ->
  usuarios conn' = usuarios conn
  /\ exists s, sesiones conn' = sesiones conn ++ [s]
               /\ s_activa s = SInt 1 /\ s_token s = token /\ s_user_id s = user_id.
Proof.
  unfold insert_sesion. intro H. bind_inv H. inversion H; subst. clear H.
  cbn [usuarios sesiones]. split; [reflexivity|].
  eexists. split; [reflexivity|]. cbn [s_activa s_token s_user_id].
  split; [reflexivity|]. split; [|reflexivity].
  cbn [bind_param] in Ha0. destruct (is_text token); [|discriminate].
  inversion Ha0; subst. inversion Ha5. reflexivity.
Qed.

Lemma users_frame_refl (l : list usuario) :
  Forall2 (fun u u' => u' = u \/ exists f, u' = set_ultimo_acceso u f) l l.
Proof. induction l; constructor; [left; reflexivity | assumption]. Qed.

(** The tables after a login: users and sessions as before, the answer not
    being 200, or as the UPDATE and the INSERT of the handler left them,
    the answer being 200 with the token of the new session. *)
Lemma login_store (req : request) (w w' : world) (r : result response) :
  login req w = (r, w') ->
  (usuarios (w_db w') = usuarios (w_db w)
   /\ sesiones (w_db w') = sesiones (w_db w)
   /\ forall body, r <> Ok (body, 200))
  \/ exists user token inicio expiracion conn1 conn2 body,
       update_ultimo_acceso (w_db w) inicio (u_id user) = Ok conn1
       /\ insert_sesion conn1 (u_id user) token (req_remote_addr req)
                        (req_user_agent req) inicio expiracion = Ok conn2
       /\ usuarios (w_db w') = usuarios conn2
       /\ sesiones (w_db w') = sesiones conn2
       /\ r = Ok (VDict ((lit "success", VBool true)
                         :: (lit "token", VStr token) :: body), 200).
Proof.
  unfold login, try_catch.
  assert (Fail : forall (resp : response) (w1 : world),
             snd resp <> 200 ->
             usuarios (w_db w1) = usuarios (w_db w) ->
             sesiones (w_db w1) = sesiones (w_db w) ->
             (Ok resp, w1) = (r, w') ->
             (usuarios (w_db w') = usuarios (w_db w)
              /\ sesiones (w_db w') = sesiones (w_db w)
              /\ forall body, r <> Ok (body, 200))
             \/ exists user token inicio expiracion conn1 conn2 body,
                  update_ultimo_acceso (w_db w) inicio (u_id user) = Ok conn1
                  /\ insert_sesion conn1 (u_id user) token (req_remote_addr req)
                                   (req_user_agent req) inicio expiracion = Ok conn2
                  /\ usuarios (w_db w') = usuarios conn2
                  /\ sesiones (w_db w') = sesiones conn2
                  /\ r = Ok (VDict ((lit "success", VBool true)
                                    :: (lit "token", VStr token) :: body), 200)).
  { intros resp w1 N U S H. inversion H; subst. left.
    split; [exact U|]. split; [exact S|].
    intros body E. inversion E; subst. apply N. reflexivity. }
  assert (N500 : forall e, snd (failure e 500) <> 200) by (intros e; discriminate).
  assert (N401 : forall e, snd (failure e 401) <> 200) by (intros e; discriminate).
  assert (N400 : forall e, snd (failure e 400) <> 200) by (intros e; discriminate).
  unfold bindM at 1, lift at 1.
  destruct (req_json req) as [data|e]; [|apply Fail; auto].
  unfold bindM at 1, lift at 1.
  destruct (py_get data (lit "username")) as [username|e]; [|apply Fail; auto].
  unfold bindM at 1, lift at 1.
  destruct (py_get data (lit "password")) as [password|e]; [|apply Fail; auto].
  destruct (negb (truthy username) || negb (truthy password)); [apply Fail; auto|].
  unfold bindM at 1, get_db.
  unfold bindM at 1, lift at 1.
  destruct (select_active_user (w_db w) username) as [[user|]|e];
    [| |apply Fail; auto].
  2: { unfold bindM at 1.
       destruct (log_access_total None username (lit "login_fallido")
                   (req_remote_addr req) false w) as [w1 [L [U S]]].
       rewrite L. apply Fail; auto. }
  unfold bindM at 1.
  pose proof (stable_store _ w (stable_verify_password password
                                  (u_password_hash user) (u_salt user))) as V.
  destruct (verify_password password (u_password_hash user) (u_salt user) w)
    as [[ok|e] w1]; cbn [snd] in V; [|apply Fail; auto; congruence].
  destruct ok; cbn [negb].
  2: { unfold bindM at 1.
       destruct (log_access_total (Some (u_id user)) username (lit "login_fallido")
                   (req_remote_addr req) false w1) as [w2 [L [U S]]].
       rewrite L. apply Fail; auto; congruence. }
  unfold bindM at 1.
  pose proof (stable_store _ w1 (stable_generate_token (u_id user) (u_username user)
                                   (u_role user))) as G.
  destruct (generate_token (u_id user) (u_username user) (u_role user) w1)
    as [[token|e] w2]; cbn [snd] in G; [|apply Fail; auto; congruence].
  unfold bindM at 1.
  pose proof (stable_store _ w2 stable_now) as T1.
  destruct (now w2) as [[t|e] w3]; cbn [snd] in T1; [|apply Fail; auto; congruence].
  unfold bindM at 1, lift at 1.
  destruct (update_ultimo_acceso (w_db w) (strftime t) (u_id user))
    as [conn1|e] eqn:E1; [|apply Fail; auto; congruence].
  unfold bindM at 1.
  pose proof (stable_store _ w3 stable_now) as T2.
  destruct (now w3) as [[t'|e] w4]; cbn [snd] in T2; [|apply Fail; auto; congruence].
  unfold bindM at 1, lift at 1.
  destruct (insert_sesion conn1 (u_id user) token (req_remote_addr req)
                          (req_user_agent req) (strftime t) (strftime (t' + hours 24)))
    as [conn2|e] eqn:E2; [|apply Fail; auto; congruence].
  unfold bindM at 1, commit at 1.
  unfold bindM at 1.
  destruct (log_access_total (Some (u_id user)) username (lit "login_exitoso")
              (req_remote_addr req) true (set_db w4 conn2)) as [w5 [L [U S]]].
  rewrite L. unfold ret. intro H. inversion H; subst. right.
  exists user, token, (strftime t), (strftime (t' + hours 24)), conn1, conn2.
  eexists. split; [exact E1|]. split; [exact E2|].
  split; [exact U|]. split; [exact S|]. reflexivity.
Qed.

(** X25: whatever the request, a login changes no column of any user but
    the date of the last access, and removes or changes no session.  It
    appends a session exactly when it answers 200: one session, active,
    for the token the answer carries. *)
Theorem login_touches_only_last_access (req : request) (w : world) :
  let r := fst (login req w) in
  let w' := snd (login req w) in
  Forall2 (fun u u' => u' = u \/ exists f, u' = set_ultimo_acceso u f)
          (usuarios (w_db w)) (usuarios (w_db w'))
  /\ ((sesiones (w_db w') = sesiones (w_db w) /\ forall body, r <> Ok (body, 200))
      \/ exists s body,
           sesiones (w_db w') = sesiones (w_db w) ++ [s]
           /\ s_activa s = SInt 1
           /\ r = Ok (VDict ((lit "success", VBool true)
                             :: (lit "token", VStr (s_token s)) :: body), 200)).
Proof.
  cbv zeta. destruct (login req w) as [r w'] eqn:H. cbn [fst snd].
  destruct (login_store req w w' r H)
    as [[U [S N]]|(user & token & f & f' & c1 & c2 & body & E1 & E2 & U & S & R)].
  - rewrite U. split; [apply users_frame_refl|]. left. split; assumption.
  - destruct (update_ultimo_acceso_frame _ _ _ _ E1) as [F1 S1].
    destruct (insert_sesion_frame _ _ _ _ _ _ _ _ E2) as [U2 [s [S2 [A [Tk _]]]]].
    rewrite U, U2. split; [exact F1|]. right. exists s, body.
    rewrite S, S2, S1, Tk. repeat split; assumption.
Qed.
